(** * pgxnclient: the installation and loading commands

    A shallow embedding of [pgxnclient/commands/install.py] and the
    properties of its commands: [Download], [Install], [Uninstall],
    [Check], [Load] and [Unload].

    Python's [str] is a byte string: names, paths and messages are
    [string], file contents are [list byte].  The file system is a finite
    map from path names to contents.  A command is a function from a
    state to an outcome (a value or a raised exception), a new state and
    the events it produced, in the order the code produces them. *)

From Stdlib Require Import ZArith NArith String Ascii.
From stdpp Require Import gmap strings list fin_maps pretty.

Open Scope string_scope.
Open Scope list_scope.

(** ** Strings and paths *)

Module Str.

(** [s[:n]] and [s[n:]] for [0 <= n]. *)
Fixpoint take (n : nat) (s : string) : string :=
  match n, s with
  | S k, String a r => String a (take k r)
  | _, _ => ""
  end.

Fixpoint drop (n : nat) (s : string) : string :=
  match n, s with
  | S k, String _ r => drop k r
  | _, _ => s
  end.

(** [bool(s)]: a string is true when it is not empty. *)
Definition truthy (s : string) : bool := negb (String.eqb s "").

(** [s.startswith(p)] and [s.endswith(p)]. *)
Definition startswith (s p : string) : bool := String.prefix p s.

Definition endswith (s p : string) : bool :=
  (String.length p <=? String.length s)%nat
  && String.eqb (drop (String.length s - String.length p) s) p.

(** [c in s]. *)
Fixpoint contains (c : ascii) (s : string) : bool :=
  match s with
  | "" => false
  | String a r => Ascii.eqb a c || contains c r
  end.

(** [s.rfind(c)]: the index of the last [c] in [s], [-1] when there is
    none.  [rfind_from] scans [s], whose first character has index [i],
    and remembers the last index seen. *)
Fixpoint rfind_from (c : ascii) (s : string) (i last : Z) : Z :=
  match s with
  | "" => last
  | String a r => rfind_from c r (i + 1) (if Ascii.eqb a c then i else last)
  end.

Definition rfind (c : ascii) (s : string) : Z := rfind_from c s 0 (-1).

(** [s.rsplit(c, 1)[0]] and [s.rsplit(c, 1)[-1]]. *)
Definition rsplit1_head (c : ascii) (s : string) : string :=
  let i := rfind c s in
  if (i <? 0)%Z then s else take (Z.to_nat i) s.

Definition rsplit1_last (c : ascii) (s : string) : string :=
  drop (Z.to_nat (rfind c s + 1)) s.

End Str.

Module Path.

(** [os.path.basename(p)]: [p[p.rfind('/') + 1:]]. *)
Definition basename (p : string) : string :=
  Str.drop (Z.to_nat (Str.rfind "/" p + 1)) p.

(** [os.path.join(a, b)]. *)
Definition join (a b : string) : string :=
  if Str.startswith b "/" then b
  else if String.eqb a "" || Str.endswith a "/" then a +:+ b
  else a +:+ "/" +:+ b.

(** [os.path.join(a, b, c)]. *)
Definition join3 (a b c : string) : string := join (join a b) c.

End Path.

(** Strings and paths are not to be unfolded when a command is run
    symbolically. *)
#[global] Arguments String.append : simpl never.
#[global] Arguments Str.endswith : simpl never.
#[global] Arguments Str.rsplit1_head : simpl never.
#[global] Arguments Str.rsplit1_last : simpl never.
#[global] Arguments Path.basename : simpl never.
#[global] Arguments Path.join : simpl never.
#[global] Arguments Path.join3 : simpl never.
#[global] Arguments pretty : simpl never.

(** ** Server versions *)

Module Version.

(** A version as [parse_pg_version] returns it: a tuple of three
    integers, compared as Python compares tuples. *)
Definition t : Type := N * N * N.

Definition ge (v w : t) : bool :=
  let '(a1, b1, c1) := v in
  let '(a2, b2, c2) := w in
  match (a1 ?= a2)%N with
  | Gt => true
  | Lt => false
  | Eq => match (b1 ?= b2)%N with
          | Gt => true
          | Lt => false
          | Eq => (c2 <=? c1)%N
          end
  end.

(** [\s] and [\d] on byte strings. *)
Definition is_space (c : ascii) : bool :=
  let n := nat_of_ascii c in
  ((9 <=? n) && (n <=? 13) || (n =? 32))%nat.

Definition is_digit (c : ascii) : bool :=
  let n := nat_of_ascii c in
  ((48 <=? n) && (n <=? 57))%nat.

(** The longest prefix of [s] whose characters satisfy [p], and what
    follows it. *)
Fixpoint span (p : ascii -> bool) (s : string) : string * string :=
  match s with
  | "" => ("", "")
  | String a r =>
      if p a then let '(u, v) := span p r in (String a u, v)
      else ("", s)
  end.

(** [int(s)] for a string of digits. *)
Definition int (s : string) : N :=
  fold_left (fun acc c => (10 * acc + (N_of_ascii c - 48))%N)
            (list_ascii_of_string s) 0%N.

End Version.

(** ** Data model *)

(** File contents and the file system. *)
Abbreviation bytes := (list Byte.byte).
Abbreviation FS := (gmap string bytes).
Abbreviation Environ := (gmap string string).

(** The three kinds of distribution reference [get_spec] returns. *)
Inductive Spec : Type :=
| SpecDir (dirname : string)
| SpecFile (filename : string)
| SpecName (name : string) (ver : string).

Definition is_dir (spec : Spec) : bool :=
  match spec with SpecDir _ => true | _ => false end.

Definition is_file (spec : Spec) : bool :=
  match spec with SpecFile _ => true | _ => false end.

Definition spec_name (spec : Spec) : string :=
  match spec with SpecName n _ => n | _ => "" end.

(** The distribution metadata [get_meta] returns: [data['sha1']],
    [data['version']] and [dist['provides']], whose [items()] are the
    pairs of an object name and its record, in the order the mapping
    yields them.  [file] is [data.get('file')]. *)
Record Provided : Type := { file : option string }.

Record Meta : Type := {
  meta_sha1 : option string;
  meta_version : string;
  provides : list (string * Provided);
}.

(** The options of a command line. *)
Record Opts : Type := {
  opt_spec : Spec;
  opt_target : string;
  opt_sudo : option string;
}.

(** Exceptions.  [OutOfFuel] is not a Python exception: it marks a loop
    of the model that was not given enough steps to finish. *)
Inductive Exn : Type :=
| PgxnClientException (msg : string)
| BadChecksum (msg : string)
| UserAbort
| EnvironmentError (fn : string)
| TypeError
| ShutilError (src dst : string)
| ValueError (msg : string)
| OutOfFuel.

(** What a child process reads from its standard input. *)
Inductive Stdin : Type :=
| StdinInherit
| StdinFile (fn : string)
| StdinPipe (data : string).

(** The arguments of [self.popen]. *)
Record ProcCall : Type := {
  argv : list string;
  cwd : option string;
  penv : option Environ;
  stdin : Stdin;
}.

(** The arguments of [self.run_make]. *)
Record MakeCall : Type := {
  mk_cmd : list string;
  mk_dir : string;
  mk_env : option Environ;
  mk_sudo : option string;
}.

(** The messages of the module's logger, one constructor for each call of
    [logger.debug], [logger.info] and [logger.error] in the source. *)
Inductive Level : Type := Debug | Info | Error.

Inductive LogMsg : Type :=
| CheckingSha1 (fn : string)
| BadSha1 (fn sha chk : string)
| CheckingPath (fn : string)
| RunningConfigure
| BuildingExtension
| InstallingExtension
| RemovingExtension
| CheckingExtension
| AdditionalEnv (upenv : Environ)
| CopyingRegression (ext : string)
| PostgresVersion (pgver : Version.t)
| CheckingIfExists (fn : string)
| Calling (cmdline : list string)
| CheckingSqlFile (fn : string)
| LoadingExtension (name : string) (sqlfile : option string)
| UnloadingExtension (name : string) (sqlfile : option string)
| NotSql (sqlfile name : string)
| AlreadyLoaded (fn : string).

(** The questions put to the user, one constructor for each call of
    [self.confirm] in the source. *)
Inductive Prompt : Type :=
| LooseObjects (name : string)
| GuessedFile (name fn : string)
| LookForScript (name : string)
| ExecuteToUnload (name fn : string).

(** What a command does that can be seen from outside. *)
Inductive Event : Type :=
| EvLog (lvl : Level) (msg : LogMsg)
| EvPopen (call : ProcCall) (returncode : Z)
| EvMake (call : MakeCall) (returncode : Z)
| EvConfirm (prompt : Prompt) (accepted : bool)
| EvUnlink (fn : string)
| EvCopy (src dst : string).

(** ** What the module imports *)

(** [pgxnclient.utils.sha1]: a hash object is created by [sha1()], fed with
    [update] and read with [hexdigest].  Feeding nothing changes nothing,
    and feeding two chunks one after the other is feeding their
    concatenation. *)
Class Sha1 : Type := {
  sha_state : Type;
  sha1 : sha_state;
  update : sha_state -> bytes -> sha_state;
  hexdigest : sha_state -> string;
  update_nil : forall h, update h [] = h;
  update_app : forall h a b, update (update h a) b = update h (a ++ b);
}.

(** The digest of a whole content. *)
Definition digest {Sh : Sha1} (content : bytes) : string :=
  hexdigest (update sha1 content).

(** The rest of what the commands call and the module does not define is
    taken as a parameter: the configuration of the command
    ([call_pg_config], [get_psql_options], [get_psql_env], [os.environ]),
    the constructor [Label], which may refuse a name, the path
    functions that depend on things outside the model, and the outside
    world.  [realpath] gives the canonical name of the file a path names:
    two paths name the same file when they have the same canonical name,
    however they are spelled.  The outside world has a state of type [W] next to the file
    system; a child process, the build tool, the unpacker and the network
    may change both, the user only answers. *)
Class World : Type := {
  W : Type;
  call_pg_config : string -> string;
  get_psql_options : list string;
  get_psql_env : Environ;
  os_environ : Environ;
  Label : string -> Exn + string;
  urlsplit_path : string -> string;
  abspath : string -> string;
  realpath : string -> string;
  sys_isdir : string -> W -> bool;
  sys_popen : ProcCall -> W -> FS -> W * FS * Z * string;
  sys_make : MakeCall -> W -> FS -> W * FS * Z;
  sys_answer : Prompt -> W -> W * bool;
  sys_unpack : string -> string -> W -> FS -> W * FS * (Exn + string);
  sys_get_meta : Spec -> W -> FS -> W * (Exn + Meta);
  sys_api_download : string -> string -> W -> W * (Exn + string);
  sys_download : string -> string -> W -> FS -> W * FS * (Exn + string);
}.

(** ** States and commands *)

Section Commands.
Context {Wd : World}.

(** The state a command runs in: the outside world, the file system and
    the attribute [_loaded] of the command object, [None] as long as the
    object has no such attribute. *)
Record State : Type := mkState {
  world : W;
  fs : FS;
  _loaded : option (list string);
}.

Inductive Res (A : Type) : Type :=
| Ok (a : A)
| Raise (e : Exn).

Definition M (A : Type) : Type := State -> Res A * State * list Event.

End Commands.

Arguments Ok {A} a.
Arguments Raise {A} e.

Section Monad.
Context {Wd : World}.

Definition ret {A} (a : A) : M A := fun s => (Ok a, s, []).

Definition bind {A B} (m : M A) (k : A -> M B) : M B :=
  fun s =>
    match m s with
    | (Ok a, s1, ev1) =>
        let '(r, s2, ev2) := k a s1 in (r, s2, ev1 ++ ev2)
    | (Raise e, s1, ev1) => (Raise e, s1, ev1)
    end.

Definition raise {A} (e : Exn) : M A := fun s => (Raise e, s, []).

(** [try: m  except <caught>: h e]. *)
Definition try_except {A} (m : M A) (caught : Exn -> bool) (h : Exn -> M A)
  : M A :=
  fun s =>
    match m s with
    | (Raise e, s1, ev1) =>
        if caught e
        then let '(r, s2, ev2) := h e s1 in (r, s2, ev1 ++ ev2)
        else (Raise e, s1, ev1)
    | r => r
    end.

(** [for x in l: body x]. *)
Fixpoint for_each {A} (l : list A) (body : A -> M unit) : M unit :=
  match l with
  | [] => ret tt
  | x :: r => bind (body x) (fun _ => for_each r body)
  end.

Definition emit (e : Event) : M unit := fun s => (Ok tt, s, [e]).

Definition lift_either {A} (r : Exn + A) : M A :=
  match r with inl e => raise e | inr a => ret a end.

End Monad.

Declare Scope cmd_scope.
Delimit Scope cmd_scope with cmd.
Notation "x ← y ; z" := (bind y (fun x => z))
  (at level 20, y at level 100, z at level 200, only parsing) : cmd_scope.
Notation "' x ← y ; z" := (bind y (fun x => z))
  (at level 20, x pattern, y at level 100, z at level 200, only parsing)
  : cmd_scope.
Notation "x ;; z" := (bind x (fun _ => z))
  (at level 100, z at level 200, only parsing, right associativity)
  : cmd_scope.
Open Scope cmd_scope.

(** The outcome, the final state and the events of a command. *)
Definition result {Wd : World} {A} (x : Res A * State * list Event) : Res A := x.1.1.
Definition final {Wd : World} {A} (x : Res A * State * list Event) : State := x.1.2.
Definition events {Wd : World} {A} (x : Res A * State * list Event) : list Event := x.2.

(** ** The operating system and the collaborators *)

Section System.
Context {Wd : World}.

Definition logger (lvl : Level) (msg : LogMsg) : M unit := emit (EvLog lvl msg).

(** [os.path.exists(fn)]. *)
Definition exists_ (fn : string) : M bool :=
  fun s => (Ok (bool_decide (is_Some (fs s !! fn))), s, []).

(** [os.path.isdir(fn)]. *)
Definition isdir (fn : string) : M bool :=
  fun s => (Ok (sys_isdir fn (world s)), s, []).

(** [open(fn)], for reading. *)
Definition open (fn : string) : M bytes :=
  fun s =>
    match fs s !! fn with
    | Some content => (Ok content, s, [])
    | None => (Raise (EnvironmentError fn), s, [])
    end.

(** [os.unlink(fn)]. *)
Definition unlink (fn : string) : M unit :=
  fun s =>
    match fs s !! fn with
    | Some _ =>
        (Ok tt, mkState (world s) (delete fn (fs s)) (_loaded s), [EvUnlink fn])
    | None => (Raise (EnvironmentError fn), s, [])
    end.

(** [os.path.samefile(src, dst)], as [shutil.copy] asks it of a [src]
    that exists: the two paths name one file, whatever their spelling. *)
Definition samefile (src dst : string) : bool :=
  String.eqb (realpath src) (realpath dst).

(** [shutil.copy(src, dst)] for a [dst] that is not a directory: it
    refuses to copy a file onto itself, that is when [src] and [dst] are
    the same file, and not only when they are the same name. *)
Definition shutil_copy (src dst : string) : M unit :=
  fun s =>
    match fs s !! src with
    | Some content =>
        if samefile src dst then (Raise (ShutilError src dst), s, [])
        else (Ok tt, mkState (world s) (<[dst := content]> (fs s)) (_loaded s),
              [EvCopy src dst])
    | None => (Raise (EnvironmentError src), s, [])
    end.

(** [p = self.popen(...); p.communicate()]: the return code and what the
    child wrote to its standard output. *)
Definition popen (call : ProcCall) : M (Z * string) :=
  fun s =>
    let '(w, f, rc, out) := sys_popen call (world s) (fs s) in
    (Ok (rc, out), mkState w f (_loaded s), [EvPopen call rc]).

(** Modelled from the spec: [Command.confirm], which the module calls and
    does not define.  The user is asked; when the user declines, the
    command is left with a user-cancellation outcome.  The callers ignore
    what [confirm] returns, so the cancellation is an exception. *)
Definition confirm (prompt : Prompt) : M unit :=
  fun s =>
    let '(w, yes) := sys_answer prompt (world s) in
    let s1 := mkState w (fs s) (_loaded s) in
    (if yes then Ok tt else Raise UserAbort, s1, [EvConfirm prompt yes]).

(** Modelled from the spec: [WithMake.run_make], which the module calls and
    does not define.  The build tool is run on the targets [cmd] in [dir];
    an exit code other than zero is fatal for the command. *)
Definition run_make (cmd : list string) (dir : string) (env : option Environ)
    (sudo : option string) : M unit :=
  fun s =>
    let call := {| mk_cmd := cmd; mk_dir := dir; mk_env := env; mk_sudo := sudo |} in
    let '(w, f, rc) := sys_make call (world s) (fs s) in
    let s1 := mkState w f (_loaded s) in
    (if (rc =? 0)%Z then Ok tt
     else Raise (PgxnClientException ("command returned " +:+ pretty rc)),
     s1, [EvMake call rc]).

(** [self.unpack], [self.get_meta], [self.api.download] and
    [pgxnclient.network.download] are the outside world's. *)
Definition unpack (fn dir : string) : M string :=
  fun s =>
    let '(w, f, r) := sys_unpack fn dir (world s) (fs s) in
    lift_either r (mkState w f (_loaded s)).

Definition get_meta (spec : Spec) : M Meta :=
  fun s =>
    let '(w, r) := sys_get_meta spec (world s) (fs s) in
    lift_either r (mkState w (fs s) (_loaded s)).

Definition api_download (name ver : string) : M string :=
  fun s =>
    let '(w, r) := sys_api_download name ver (world s) in
    lift_either r (mkState w (fs s) (_loaded s)).

Definition download (url fn : string) : M string :=
  fun s =>
    let '(w, f, r) := sys_download url fn (world s) (fs s) in
    lift_either r (mkState w f (_loaded s)).

End System.

(** ** class Download *)

Module Download.
Section Download.
Context {Wd : World} {Sh : Sha1}.

(** The size of the chunks [verify_checksum] reads. *)
Definition chunk_size : nat := N.to_nat 8192.

(** The loop of [verify_checksum]: [data = f.read(8192)], leave when
    [data] is empty, else [sha.update(data)].  [rest] is what the file
    object has not yet returned. *)
Fixpoint read_loop (fuel : nat) (rest : bytes) (sha : sha_state)
  : option sha_state :=
  match fuel with
  | O => None
  | S fuel' =>
      match take chunk_size rest with
      | [] => Some sha
      | data => read_loop fuel' (drop chunk_size rest) (update sha data)
      end
  end.

Definition verify_checksum (fn chk : string) : M unit :=
  let sha := sha1 in
  logger Debug (CheckingSha1 fn);;
  content ← open fn;
  match read_loop (S (length content)) content sha with
  | None => raise OutOfFuel
  | Some sha =>
      let sha := hexdigest sha in
      if negb (String.eqb sha chk) then
        unlink fn;;
        logger Error (BadSha1 fn sha chk);;
        raise (BadChecksum "bad sha1 in downloaded file")
      else ret tt
  end.

Definition _get_local_file_name (opts : Opts) (url : string) : M string :=
  d ← isdir (opt_target opts);
  let fn :=
    if d then
      let basename := Str.rsplit1_last "/" (urlsplit_path url) in
      Path.join (opt_target opts) basename
    else opt_target opts in
  ret (abspath fn).

Definition run (opts : Opts) : M string :=
  let spec := opt_spec opts in
  data ← get_meta spec;
  chk ← match meta_sha1 data with
        | Some chk => ret chk
        | None => raise (PgxnClientException "sha1 missing from the distribution meta")
        end;
  url ← api_download (spec_name spec) (meta_version data);
  fn ← _get_local_file_name opts url;
  fn ← download url fn;
  verify_checksum fn chk;;
  ret fn.

End Download.
End Download.

(** ** class InstallUninstall *)

Module InstallUninstall.
Section InstallUninstall.
Context {Wd : World} {Sh : Sha1}.

(** The method the subclasses implement. *)
Variable _inun : Opts -> string -> M unit.

Definition maybe_run_configure (dir : string) : M unit :=
  let fn := Path.join dir "configure" in
  logger Debug (CheckingPath fn);;
  e ← exists_ fn;
  if negb e then ret tt
  else
    logger Info RunningConfigure;;
    '(returncode, _) ← popen {| argv := [fn]; cwd := Some dir;
                                penv := None; stdin := StdinInherit |};
    if negb (returncode =? 0)%Z then
      raise (PgxnClientException
               ("configure failed with return code " +:+ pretty returncode))
    else ret tt.

Definition _run (opts : Opts) (dir : string) : M unit :=
  pdir ← match opt_spec opts with
         | SpecDir dirname => ret dirname
         | SpecFile filename => unpack filename dir
         | SpecName _ _ =>
             let opts := {| opt_spec := opt_spec opts; opt_target := dir;
                            opt_sudo := opt_sudo opts |} in
             fn ← Download.run opts;
             unpack fn dir
         end;
  maybe_run_configure pdir;;
  _inun opts pdir.

End InstallUninstall.
End InstallUninstall.

(** ** class Install, class Uninstall, class Check *)

Module Install.
Section Install.
Context {Wd : World} {Sh : Sha1}.

Definition _inun (opts : Opts) (pdir : string) : M unit :=
  logger Info BuildingExtension;;
  run_make ["all"] pdir None None;;
  logger Info InstallingExtension;;
  run_make ["install"] pdir None (opt_sudo opts).

Definition _run : Opts -> string -> M unit := InstallUninstall._run _inun.

End Install.
End Install.

Module Uninstall.
Section Uninstall.
Context {Wd : World} {Sh : Sha1}.

Definition _inun (opts : Opts) (pdir : string) : M unit :=
  logger Info RemovingExtension;;
  run_make ["uninstall"] pdir None (opt_sudo opts).

Definition _run : Opts -> string -> M unit := InstallUninstall._run _inun.

End Uninstall.
End Uninstall.

Module Check.
Section Check.
Context {Wd : World} {Sh : Sha1}.

(** [except PgxnClientException] catches the exceptions of that class and
    of its subclasses in [pgxnclient.errors]. *)
Definition is_PgxnClientException (e : Exn) : bool :=
  match e with
  | PgxnClientException _ | BadChecksum _ | UserAbort => true
  | _ => false
  end.

Definition _inun (opts : Opts) (pdir : string) : M unit :=
  logger Info CheckingExtension;;
  let upenv := get_psql_env in
  logger Debug (AdditionalEnv upenv);;
  let env := upenv ∪ os_environ in
  let cmd := ["installcheck"] in
  let cmd :=
    if bool_decide (is_Some (upenv !! "PGDATABASE"))
    then cmd ++ ["CONTRIB_TESTDB=" +:+ default "" (env !! "PGDATABASE")]
    else cmd in
  try_except (run_make cmd pdir (Some env) None)
    is_PgxnClientException
    (fun e =>
       for_each ["out"; "diffs"] (fun ext =>
         let fn := Path.join pdir ("regression." +:+ ext) in
         e ← exists_ fn;
         if e then
           logger Info (CopyingRegression ext);;
           shutil_copy fn ("./regression." +:+ ext)
         else ret tt);;
       raise e).

Definition _run : Opts -> string -> M unit := InstallUninstall._run _inun.

End Check.
End Check.

(** ** class LoadUnload *)

Module LoadUnload.
Section LoadUnload.
Context {Wd : World}.

Definition find_psql : string := call_pg_config "bindir" +:+ "/psql".

Definition call_psql (command : option string) : M string :=
  let cmdline := [find_psql] in
  let cmdline := cmdline ++ get_psql_options in
  let cmdline :=
    match command with
    | Some command => (cmdline ++ ["-tA"]) ++ ["-c"; command]
    | None => cmdline
    end in
  logger Debug (Calling cmdline);;
  '(returncode, out) ← popen {| argv := cmdline; cwd := None;
                                penv := None; stdin := StdinInherit |};
  if negb (returncode =? 0)%Z then
    raise (PgxnClientException
             ("psql returned " +:+ pretty returncode +:+ " running command"))
  else ret out.

(** [re.match(r'\S+\s+(\d+)\.(\d+)(?:\.(\d+))?', data)]: each repetition
    is followed by a character it cannot match, so each one takes the
    longest run. *)
Definition parse_pg_version (data : string) : M Version.t :=
  let fail := raise (PgxnClientException
                ("cannot parse version number from '" +:+ data +:+ "'")) in
  let '(word, r) := Version.span (fun c => negb (Version.is_space c)) data in
  let '(blank, r) := Version.span Version.is_space r in
  let '(g1, r) := Version.span Version.is_digit r in
  if negb (Str.truthy word && Str.truthy blank && Str.truthy g1) then fail
  else
    match r with
    | String "." r =>
        let '(g2, r) := Version.span Version.is_digit r in
        if negb (Str.truthy g2) then fail
        else
          let g3 := match r with
                    | String "." r => fst (Version.span Version.is_digit r)
                    | _ => ""
                    end in
          ret (Version.int g1, Version.int g2,
               if Str.truthy g3 then Version.int g3 else 0%N)
    | _ => fail
    end.

Definition get_pg_version : M Version.t :=
  data ← call_psql (Some "SELECT version();");
  pgver ← parse_pg_version data;
  logger Debug (PostgresVersion pgver);;
  ret pgver.

Definition is_extension (name : string) : M bool :=
  let fn := Path.join3 (call_pg_config "sharedir") "extension"
                       (name +:+ ".control") in
  logger Debug (CheckingIfExists fn);;
  exists_ fn.

(** [bool(x)] for an optional string: [None] and the empty string are
    false. *)
Definition given (x : option string) : bool :=
  match x with Some f => Str.truthy f | None => false end.

Definition load_sql (filename : option string) (data : option string) : M unit :=
  let cmdline := [find_psql] in
  let cmdline := cmdline ++ get_psql_options in
  '(returncode, _) ←
    (if negb (given data) then
       match filename with
       | Some fn =>
           open fn;;
           popen {| argv := cmdline; cwd := None; penv := None;
                    stdin := StdinFile fn |}
       | None => raise TypeError
       end
     else
       popen {| argv := cmdline; cwd := None; penv := None;
                stdin := StdinPipe (default "" data) |});
  if negb (returncode =? 0)%Z then
    raise (PgxnClientException
             ("psql returned " +:+ pretty returncode +:+ " loading extension"))
  else ret tt.

(** The loop of [find_sql_file] over [tries]; [None] when the loop ends
    without returning, which is when its [else] branch runs. *)
Fixpoint find_sql_loop (sharedir : string) (tries : list string)
    (tried : gset string) : M (option string) :=
  match tries with
  | [] => ret None
  | fn :: tries =>
      if bool_decide (fn ∈ tried) then find_sql_loop sharedir tries tried
      else
        let tried := tried ∪ {[fn]} in
        let fn := sharedir +:+ "/" +:+ fn in
        logger Debug (CheckingSqlFile fn);;
        e ← exists_ fn;
        if e then ret (Some fn) else find_sql_loop sharedir tries tried
  end.

Definition sql_file_not_found (name sqlfile : string) : Exn :=
  PgxnClientException
    ("cannot find sql file for extension '" +:+ name +:+ "': '"
     +:+ sqlfile +:+ "'").

Definition find_sql_file (name sqlfile : string) : M string :=
  let sqlfile := Path.basename sqlfile in
  let sharedir := call_pg_config "sharedir" in
  let tries := [
    name +:+ "/" +:+ sqlfile;
    Str.rsplit1_head "." sqlfile +:+ "/" +:+ sqlfile;
    "contrib/" +:+ sqlfile
  ] in
  found ← find_sql_loop sharedir tries ∅;
  match found with
  | Some fn => ret fn
  | None => raise (sql_file_not_found name sqlfile)
  end.

Definition _register_loaded (fn : string) : M unit :=
  fun s =>
    let l := match _loaded s with Some l => l | None => [] end in
    (Ok tt, mkState (world s) (fs s) (Some (l ++ [fn])), []).

Definition _is_loaded (fn : string) : M bool :=
  fun s =>
    (Ok match _loaded s with
        | Some l => bool_decide (fn ∈ l)
        | None => false
        end, s, []).

End LoadUnload.
End LoadUnload.

(** ** class Load *)

Module Load.
Section Load.
Context {Wd : World}.
Import LoadUnload.

Definition create_extension (name : string) : M unit :=
  label ← lift_either (Label name);
  let cmd := "CREATE EXTENSION " +:+ label +:+ ";" in
  load_sql None (Some cmd).

Definition load_ext (name : string) (sqlfile : option string) : M unit :=
  logger Debug (LoadingExtension name sqlfile);;
  if given sqlfile && negb (Str.endswith (default "" sqlfile) ".sql") then
    logger Info (NotSql (default "" sqlfile) name)
  else
    pgver ← get_pg_version;
    returned ←
      (if Version.ge pgver (9, 1, 0)%N then
         e ← is_extension name;
         if e then create_extension name;; ret true
         else confirm (LooseObjects name);; ret false
       else ret false);
    if (returned : bool) then ret tt
    else
      let confirm_ := false in
      let '(sqlfile, confirm_) :=
        if negb (given sqlfile) then (name +:+ ".sql", true)
        else (default "" sqlfile, confirm_) in
      fn ← find_sql_file name sqlfile;
      (if confirm_ then confirm (GuessedFile name fn) else ret tt);;
      loaded ← _is_loaded fn;
      if loaded then logger Info (AlreadyLoaded fn)
      else
        load_sql (Some fn) None;;
        _register_loaded fn.

Definition run (opts : Opts) : M unit :=
  let spec := opt_spec opts in
  dist ← get_meta spec;
  for_each (provides dist) (fun '(name, data) =>
    let sql := file data in
    load_ext name sql).

End Load.
End Load.

(** ** class Unload *)

Module Unload.
Section Unload.
Context {Wd : World}.
Import LoadUnload.

Definition drop_extension (name : string) : M unit :=
  label ← lift_either (Label name);
  let cmd := "DROP EXTENSION " +:+ label +:+ ";" in
  load_sql None (Some cmd).

Definition load_ext (name : string) (sqlfile : option string) : M unit :=
  logger Debug (UnloadingExtension name sqlfile);;
  if given sqlfile && negb (Str.endswith (default "" sqlfile) ".sql") then
    logger Info (NotSql (default "" sqlfile) name)
  else
    pgver ← get_pg_version;
    returned ←
      (if Version.ge pgver (9, 1, 0)%N then
         e ← is_extension name;
         if e then drop_extension name;; ret true
         else confirm (LookForScript name);; ret false
       else ret false);
    if (returned : bool) then ret tt
    else
      let sqlfile :=
        if negb (given sqlfile) then name +:+ ".sql"
        else default "" sqlfile in
      let sqlfile := "uninstall_" +:+ sqlfile in
      fn ← find_sql_file name sqlfile;
      confirm (ExecuteToUnload name fn);;
      load_sql (Some fn) None.

Definition run (opts : Opts) : M unit :=
  let spec := opt_spec opts in
  dist ← get_meta spec;
  let provs := provides dist in
  let provs := reverse provs in
  for_each provs (fun '(name, data) =>
    let sql := file data in
    load_ext name sql).

End Unload.
End Unload.

(** ** What is observed of a run *)

(** The external programs a command runs, in order: a child process with
    its command line, or the build tool with its targets. *)
Inductive Step : Type :=
| Run (argv : list string)
| Make (cmd : list string).

Definition step_of (e : Event) : option Step :=
  match e with
  | EvPopen call _ => Some (Run (argv call))
  | EvMake call _ => Some (Make (mk_cmd call))
  | _ => None
  end.

Definition steps (evs : list Event) : list Step := omap step_of evs.

(** The objects whose activation was started, as [load_ext] logs them. *)
Definition activation_of (e : Event) : option (string * option string) :=
  match e with
  | EvLog Debug (LoadingExtension name sqlfile) => Some (name, sqlfile)
  | EvLog Debug (UnloadingExtension name sqlfile) => Some (name, sqlfile)
  | _ => None
  end.

Definition activations (evs : list Event) : list (string * option string) :=
  omap activation_of evs.

(** The commands piped to a child process, the files given to a child
    process as its standard input, the paths probed for a script, the
    questions asked and the files reported as already loaded. *)
Definition piped_of (e : Event) : option string :=
  match e with
  | EvPopen call _ =>
      match stdin call with StdinPipe data => Some data | _ => None end
  | _ => None
  end.

Definition executed_of (e : Event) : option string :=
  match e with
  | EvPopen call _ =>
      match stdin call with StdinFile fn => Some fn | _ => None end
  | _ => None
  end.

Definition probe_of (e : Event) : option string :=
  match e with
  | EvLog Debug (CheckingSqlFile fn) => Some fn
  | _ => None
  end.

Definition prompt_of (e : Event) : option Prompt :=
  match e with
  | EvConfirm prompt _ => Some prompt
  | _ => None
  end.

Definition skipped_of (e : Event) : option string :=
  match e with
  | EvLog Info (AlreadyLoaded fn) => Some fn
  | _ => None
  end.

Definition piped (evs : list Event) : list string := omap piped_of evs.
Definition executed (evs : list Event) : list string := omap executed_of evs.
Definition probes (evs : list Event) : list string := omap probe_of evs.
Definition prompts (evs : list Event) : list Prompt := omap prompt_of evs.
Definition skipped (evs : list Event) : list string := omap skipped_of evs.

(** The pairs [Load.run] and [Unload.run] pass to [load_ext]. *)
Definition pairs (provs : list (string * Provided))
  : list (string * option string) :=
  (fun '(name, data) => (name, file data)) <$> provs.

(** The files [_is_loaded] answers yes for. *)
Definition loaded_files {Wd : World} (s : State) : list string :=
  default [] (_loaded s).

(** ** Parts of the commands *)

Section Parts.
Context {Wd : World} {Sh : Sha1}.
Import LoadUnload.

(** The first statement of [InstallUninstall._run]: the source directory
    of the distribution. *)
Definition acquire (opts : Opts) (dir : string) : M string :=
  match opt_spec opts with
  | SpecDir dirname => ret dirname
  | SpecFile filename => unpack filename dir
  | SpecName _ _ =>
      let opts := {| opt_spec := opt_spec opts; opt_target := dir;
                     opt_sudo := opt_sudo opts |} in
      fn ← Download.run opts;
      unpack fn dir
  end.

(** What [_run] does once the source is in [pdir]. *)
Definition pipeline (_inun : Opts -> string -> M unit) (opts : Opts)
    (pdir : string) : M unit :=
  InstallUninstall.maybe_run_configure pdir;;
  _inun opts pdir.

(** The step [maybe_run_configure] takes in [pdir] when the file system
    is [f]. *)
Definition configure_step (pdir : string) (f : FS) : list Step :=
  if bool_decide (is_Some (f !! Path.join pdir "configure"))
  then [Run [Path.join pdir "configure"]]
  else [].

(** The paths [find_sql_file] tries for the file name [sqlfile]. *)
Definition candidates (name sqlfile : string) : list string :=
  let sharedir := call_pg_config "sharedir" in
  [ sharedir +:+ "/" +:+ (name +:+ "/" +:+ sqlfile);
    sharedir +:+ "/" +:+ (Str.rsplit1_head "." sqlfile +:+ "/" +:+ sqlfile);
    sharedir +:+ "/" +:+ ("contrib/" +:+ sqlfile) ].

(** The first of the paths [l] that exists in [f]. *)
Fixpoint first_existing (f : FS) (l : list string) : option string :=
  match l with
  | [] => None
  | p :: l =>
      if bool_decide (is_Some (f !! p)) then Some p else first_existing f l
  end.

(** [Load.load_ext] up to the point where the file to load is known:
    [Some fn] when the object is to be loaded from the file [fn], [None]
    when [load_ext] has returned before. *)
Definition Load_locate (name : string) (sqlfile : option string)
  : M (option string) :=
  logger Debug (LoadingExtension name sqlfile);;
  if given sqlfile && negb (Str.endswith (default "" sqlfile) ".sql") then
    logger Info (NotSql (default "" sqlfile) name);; ret None
  else
    pgver ← get_pg_version;
    returned ←
      (if Version.ge pgver (9, 1, 0)%N then
         e ← is_extension name;
         if e then Load.create_extension name;; ret true
         else confirm (LooseObjects name);; ret false
       else ret false);
    if (returned : bool) then ret None
    else
      let '(sqlfile, confirm_) :=
        if negb (given sqlfile) then (name +:+ ".sql", true)
        else (default "" sqlfile, false) in
      fn ← find_sql_file name sqlfile;
      (if confirm_ then confirm (GuessedFile name fn) else ret tt);;
      ret (Some fn).

(** The end of [Load.load_ext]. *)
Definition Load_finish (fn : string) : M unit :=
  loaded ← _is_loaded fn;
  if loaded then logger Info (AlreadyLoaded fn)
  else
    load_sql (Some fn) None;;
    _register_loaded fn.

(** [Unload.load_ext] up to the point where the script is known. *)
Definition Unload_locate (name : string) (sqlfile : option string)
  : M (option string) :=
  logger Debug (UnloadingExtension name sqlfile);;
  if given sqlfile && negb (Str.endswith (default "" sqlfile) ".sql") then
    logger Info (NotSql (default "" sqlfile) name);; ret None
  else
    pgver ← get_pg_version;
    returned ←
      (if Version.ge pgver (9, 1, 0)%N then
         e ← is_extension name;
         if e then Unload.drop_extension name;; ret true
         else confirm (LookForScript name);; ret false
       else ret false);
    if (returned : bool) then ret None
    else
      let sqlfile :=
        if negb (given sqlfile) then name +:+ ".sql"
        else default "" sqlfile in
      let sqlfile := "uninstall_" +:+ sqlfile in
      fn ← find_sql_file name sqlfile;
      ret (Some fn).

(** The end of [Unload.load_ext]. *)
Definition Unload_finish (name fn : string) : M unit :=
  confirm (ExecuteToUnload name fn);;
  load_sql (Some fn) None.

End Parts.

(** ** Predicates on commands and on their events *)

Section Predicates.
Context {Wd : World}.
Import LoadUnload.

(** [emits P m]: every event of [m] satisfies [P]. *)
Definition emits {A} (P : Event -> Prop) (m : M A) : Prop :=
  forall s, Forall P (events (m s)).

(** What an activation can produce after its first line of log. *)
Definition activation_event (e : Event) : Prop :=
  match e with
  | EvLog Debug (Calling _) | EvLog Debug (PostgresVersion _)
  | EvLog Debug (CheckingIfExists _) | EvLog Debug (CheckingSqlFile _)
  | EvLog Info (NotSql _ _) | EvLog Info (AlreadyLoaded _)
  | EvPopen _ _ | EvConfirm _ _ => True
  | _ => False
  end.

(** [declined evs]: the user has answered no to a question. *)
Definition declined (evs : list Event) : Prop :=
  exists prompt, EvConfirm prompt false ∈ evs.

(** A command in which a refusal of the user is fatal. *)
Definition decline_aborts {A} (m : M A) : Prop :=
  forall s, declined (events (m s)) -> result (m s) = Raise UserAbort.

Definition not_declined (e : Event) : Prop :=
  forall prompt, e <> EvConfirm prompt false.

(** A command that leaves the attribute [_loaded] as it is, whatever its
    outcome. *)
Definition keeps_loaded {A} (m : M A) : Prop :=
  forall s, _loaded (final (m s)) = _loaded s.

(** [ensures Q m]: when [m] returns [a] in the state [s'], [Q a s']. *)
Definition ensures {A} (Q : A -> State -> Prop) (m : M A) : Prop :=
  forall s a, result (m s) = Ok a -> Q a (final (m s)).

(** The file a locate step returns exists. *)
Definition found_exists (found : option string) (s : State) : Prop :=
  forall fn, found = Some fn -> is_Some (fs s !! fn).

(** A locate step gives no file to [psql] and reports no file as already
    loaded. *)
Definition not_finish (e : Event) : Prop :=
  executed_of e = None /\ skipped_of e = None.

(** The events of the file-based path: a probe for a script, a question,
    a file given to [psql]. *)
Definition file_path_event (e : Event) : bool :=
  match probe_of e, prompt_of e, executed_of e with
  | None, None, None => false
  | _, _, _ => true
  end.

Definition file_path (evs : list Event) : list Event :=
  filter (fun e => file_path_event e = true) evs.

(** An event that probes or executes no file outside [paths]. *)
Definition within (paths : list string) (e : Event) : Prop :=
  (forall fn, probe_of e = Some fn -> fn ∈ paths)
  /\ (forall fn, executed_of e = Some fn -> fn ∈ paths).

(** The file system after [shutil.copy] of the result [ext] of the tests
    from [pdir] to the current directory, when there is one. *)
Definition saved (pdir ext : string) (f : FS) : FS :=
  match f !! Path.join pdir ("regression." +:+ ext) with
  | Some content => <["./regression." +:+ ext := content]> f
  | None => f
  end.

(** The body of the loop of [Check._inun] over the two results. *)
Definition save_result (pdir ext : string) : M unit :=
  let fn := Path.join pdir ("regression." +:+ ext) in
  e ← exists_ fn;
  if e then
    logger Info (CopyingRegression ext);;
    shutil_copy fn ("./regression." +:+ ext)
  else ret tt.

(** The command line of [make] in [Check._inun]. *)
Definition installcheck : list string :=
  if bool_decide (is_Some (get_psql_env !! "PGDATABASE"))
  then ["installcheck"]
       ++ ["CONTRIB_TESTDB="
           +:+ default "" ((get_psql_env ∪ os_environ) !! "PGDATABASE")]
  else ["installcheck"].

(** Follows the spec's words, for the comparison with [Load.run] and
    [Unload.run]: a batch processes the pairs of a name and a file in the
    order it is given them, each activation from the state the one before
    has left; an activation that fails ends the batch, and the pairs that
    follow are not processed. *)
Fixpoint process (activate : string -> option string -> M unit)
    (batch : list (string * option string)) : M unit :=
  match batch with
  | [] => ret tt
  | (name, sqlfile) :: batch => activate name sqlfile;; process activate batch
  end.

End Predicates.

(** ** Shapes of strings *)

(** Every character of [s] satisfies [p]; the first character of [s]
    satisfies [p]. *)
Fixpoint all_chars (p : ascii -> bool) (s : string) : bool :=
  match s with
  | "" => true
  | String a r => p a && all_chars p r
  end.

Definition starts (p : ascii -> bool) (s : string) : bool :=
  match s with
  | "" => false
  | String a _ => p a
  end.

(** A word, a blank and a number as [parse_pg_version] reads them. *)
Definition is_word (s : string) : bool :=
  Str.truthy s && all_chars (fun c => negb (Version.is_space c)) s.

Definition is_blank (s : string) : bool :=
  Str.truthy s && all_chars Version.is_space s.

Definition is_number (s : string) : bool :=
  Str.truthy s && all_chars Version.is_digit s.

(** ** More parts of the commands *)

Section MoreParts.
Context {Wd : World} {Sh : Sha1}.

(** [Download.run] up to the call of [verify_checksum]: the name of the
    downloaded file and the digest expected for it. *)
Definition Download_fetch (opts : Opts) : M (string * string) :=
  let spec := opt_spec opts in
  data ← get_meta spec;
  chk ← match meta_sha1 data with
        | Some chk => ret chk
        | None => raise (PgxnClientException "sha1 missing from the distribution meta")
        end;
  url ← api_download (spec_name spec) (meta_version data);
  fn ← Download._get_local_file_name opts url;
  fn ← download url fn;
  ret (fn, chk).

End MoreParts.

(** ** A small world to run the commands in *)

Module Sample.

(** A hash that keeps what it was fed. *)
#[local] Program Instance sha : Sha1 := {|
  sha_state := bytes;
  sha1 := [];
  update := fun h data => h ++ data;
  hexdigest := string_of_list_byte;
|}.
Next Obligation. intros h. apply app_nil_r. Qed.
Next Obligation. intros h a b. symmetry. apply app_assoc. Qed.

(** A world without state: every child process exits with [popen_rc] and
    prints [version_line], the build tool exits with [make_rc], the user answers
    [yes] to every question, the metadata of every distribution is
    [dist], and the network delivers [payload]. *)
Definition world (yes : bool) (popen_rc make_rc : Z) (version_line : string)
    (dist : Meta) (payload : bytes) : World := {|
  W := unit;
  call_pg_config := fun what =>
    if String.eqb what "sharedir" then "/share" else "/bin";
  get_psql_options := [];
  get_psql_env := ∅;
  os_environ := ∅;
  Label := inr;
  urlsplit_path := fun url => url;
  abspath := fun fn => fn;
  realpath := fun fn => fn;
  sys_isdir := fun _ _ => true;
  sys_popen := fun _ w f => (w, f, popen_rc, version_line);
  sys_make := fun _ w f => (w, f, make_rc);
  sys_answer := fun _ w => (w, yes);
  sys_unpack := fun _ dir w f => (w, f, inr dir);
  sys_get_meta := fun _ w _ => (w, inr dist);
  sys_api_download := fun name _ w => (w, inr ("/dist/" +:+ name +:+ ".zip"));
  sys_download := fun _ fn w f => (w, <[fn := payload]> f, inr fn);
|}.

Definition pg84 : string := "PostgreSQL 8.4.22 on x86_64-pc-linux-gnu".
Definition pg92 : string := "PostgreSQL 9.2.0 on x86_64-pc-linux-gnu".

Definition foobar : Meta := {|
  meta_sha1 := None;
  meta_version := "1.0.0";
  provides := [("foo", {| file := None |});
               ("bar", {| file := Some "bar.sql" |})];
|}.

Definition opts (spec : Spec) : Opts :=
  {| opt_spec := spec; opt_target := "."; opt_sudo := None |}.

Definition state {Wd : World} (w : W) (files : list (string * bytes)) : State :=
  mkState w (list_to_map files) None.

(** The world where nothing fails, on a server of version 9.2.0. *)
Definition quiet : World := world true 0 0 pg92 foobar [].

(** A downloaded archive of two bytes. *)
Definition two_bytes : bytes := [Byte.x50; Byte.x4b].

Definition downloaded : State :=
  state (Wd := quiet) tt [("/tmp/foo-1.0.0.zip", two_bytes)].

(** A distribution in the directory [/src/foo], without and with a
    configure script, and a world where child processes exit with [2]. *)
Definition local : Opts := opts (SpecDir "/src/foo").

Definition plain_source : State :=
  state (Wd := quiet) tt [("/src/foo/Makefile", [])].

Definition configured_source : State :=
  state (Wd := quiet) tt [("/src/foo/Makefile", []); ("/src/foo/configure", [])].

Definition failing : World := world true 2 0 pg92 foobar [].

Definition failing_configure : State :=
  state (Wd := failing) tt [("/src/foo/Makefile", []); ("/src/foo/configure", [])].

(** A server where the scripts of [foobar] are installed. *)
Definition installed : State :=
  state (Wd := quiet) tt
    [("/share/foo/foo.sql", []); ("/share/contrib/bar.sql", []);
     ("/share/foo/uninstall_foo.sql", []);
     ("/share/contrib/uninstall_bar.sql", [])].

Definition remote : Opts := opts (SpecName "foobar" "1.0.0").

(** The world where the user answers no. *)
Definition refusing : World := world false 0 0 pg92 foobar [].

Definition installed_refusing : State :=
  state (Wd := refusing) tt
    [("/share/foo/foo.sql", []); ("/share/contrib/bar.sql", []);
     ("/share/foo/uninstall_foo.sql", []);
     ("/share/contrib/uninstall_bar.sql", [])].

(** A server of version 8.4.22, and servers where [foo] has a control
    file. *)
Definition old : World := world true 0 0 pg84 foobar [].

Definition with_control_old : State :=
  state (Wd := old) tt
    [("/share/extension/foo.control", []); ("/share/foo/foo.sql", []);
     ("/share/foo/uninstall_foo.sql", [])].

Definition with_control : State :=
  state (Wd := quiet) tt
    [("/share/extension/foo.control", []); ("/share/foo/foo.sql", []);
     ("/share/foo/uninstall_foo.sql", [])].

(** A world where the tests fail, and the directory [./] after the tests
    have left their results in it. *)
Definition failing_tests : World := world true 0 1 pg92 foobar [].

Definition here : Opts := opts (SpecDir "./").

Definition tested_here : State :=
  state (Wd := failing_tests) tt
    [("./Makefile", []); ("./regression.out", [Byte.x6f]);
     ("./regression.diffs", [Byte.x64])].

(** A server where [bar.sql] is installed in two places. *)
Definition two_places : State :=
  state (Wd := quiet) tt
    [("/share/contrib/bar.sql", []); ("/share/foo/bar.sql", [])].

(** A distribution with a digest in its metadata: the digest of
    [two_bytes] for the hash [sha], which is the content itself. *)
Definition signed : Meta := {|
  meta_sha1 := Some "PK";
  meta_version := "1.0.0";
  provides := [("foo", {| file := None |})];
|}.

(** The network delivers [two_bytes], the content announced, or something
    else. *)
Definition honest : World := world true 0 0 pg92 signed two_bytes.
Definition tampered : World := world true 0 0 pg92 signed [Byte.x50].

Definition empty_honest : State := state (Wd := honest) tt [].
Definition empty_tampered : State := state (Wd := tampered) tt [].
Definition empty_quiet : State := state (Wd := quiet) tt [].

Definition to_tmp : Opts :=
  {| opt_spec := SpecName "foo" "1.0.0"; opt_target := "/tmp/pgxn";
     opt_sudo := None |}.

(** The distribution of [/src/foo] after its tests have failed. *)
Definition tested_elsewhere : State :=
  state (Wd := failing_tests) tt
    [("/src/foo/Makefile", []); ("/src/foo/regression.out", [Byte.x6f]);
     ("/src/foo/regression.diffs", [Byte.x64])].

(** A distribution whose only object is a shared library. *)
Definition binary : Meta := {|
  meta_sha1 := None;
  meta_version := "1.0.0";
  provides := [("foo", {| file := Some "src/foo.so" |})];
|}.

Definition binary_world : World := world true 0 0 pg92 binary [].

Definition with_sudo : Opts :=
  {| opt_spec := SpecDir "/src/foo"; opt_target := ".";
     opt_sudo := Some "sudo" |}.

End Sample.

(** * Properties *)

(** ** Running commands *)

Section Running.
Context {Wd : World}.

Lemma bind_ok {A B} (m : M A) (k : A -> M B) s a s1 ev1 :
  m s = (Ok a, s1, ev1) ->
  bind m k s = (result (k a s1), final (k a s1), ev1 ++ events (k a s1)).
Proof.
  intros Hm. unfold bind. rewrite Hm.
  destruct (k a s1) as [[r s2] ev2]. reflexivity.
Qed.

Lemma bind_raise {A B} (m : M A) (k : A -> M B) s e s1 ev1 :
  m s = (Raise e, s1, ev1) -> bind m k s = (Raise e, s1, ev1).
Proof. intros Hm. unfold bind. rewrite Hm. reflexivity. Qed.

Lemma run_eta {A} (x : Res A * State * list Event) :
  x = (result x, final x, events x).
Proof. destruct x as [[r s] ev]. reflexivity. Qed.

Lemma bind_result_ok {A B} (m : M A) (k : A -> M B) s a :
  result (m s) = Ok a ->
  bind m k s
  = (result (k a (final (m s))), final (k a (final (m s))),
     events (m s) ++ events (k a (final (m s)))).
Proof.
  intros Hm. apply bind_ok. rewrite (run_eta (m s)) at 1. by rewrite Hm.
Qed.

Lemma bind_result_raise {A B} (m : M A) (k : A -> M B) s e :
  result (m s) = Raise e ->
  bind m k s = (Raise e, final (m s), events (m s)).
Proof.
  intros Hm. apply bind_raise. rewrite (run_eta (m s)) at 1. by rewrite Hm.
Qed.

Lemma events_bind {A B} (m : M A) (k : A -> M B) s :
  events (bind m k s) =
  events (m s) ++ match result (m s) with
                  | Ok a => events (k a (final (m s)))
                  | Raise _ => []
                  end.
Proof.
  destruct (m s) as [[[a|e] s1] ev1] eqn:Hm.
  - rewrite (bind_ok _ _ _ _ _ _ Hm). reflexivity.
  - rewrite (bind_raise _ _ _ _ _ _ Hm). cbn. symmetry. apply app_nil_r.
Qed.

Lemma result_bind {A B} (m : M A) (k : A -> M B) s :
  result (bind m k s) =
  match result (m s) with
  | Ok a => result (k a (final (m s)))
  | Raise e => Raise e
  end.
Proof.
  destruct (m s) as [[[a|e] s1] ev1] eqn:Hm.
  - rewrite (bind_ok _ _ _ _ _ _ Hm). reflexivity.
  - rewrite (bind_raise _ _ _ _ _ _ Hm). reflexivity.
Qed.

Lemma final_bind {A B} (m : M A) (k : A -> M B) s :
  final (bind m k s) =
  match result (m s) with
  | Ok a => final (k a (final (m s)))
  | Raise e => final (m s)
  end.
Proof.
  destruct (m s) as [[[a|e] s1] ev1] eqn:Hm.
  - rewrite (bind_ok _ _ _ _ _ _ Hm). reflexivity.
  - rewrite (bind_raise _ _ _ _ _ _ Hm). reflexivity.
Qed.

Lemma bind_assoc {A B C} (m : M A) (k : A -> M B) (h : B -> M C) s :
  bind (bind m k) h s = bind m (fun a => bind (k a) h) s.
Proof.
  unfold bind. destruct (m s) as [[[a|e] s1] ev1]; [|reflexivity].
  destruct (k a s1) as [[[b|e] s2] ev2]; [|reflexivity].
  destruct (h b s2) as [[r s3] ev3]. by rewrite app_assoc.
Qed.

Lemma bind_ext {A B} (m : M A) (k k' : A -> M B) s :
  (forall a s1, k a s1 = k' a s1) -> bind m k s = bind m k' s.
Proof.
  intros Hk. unfold bind. destruct (m s) as [[[a|e] s1] ev1]; [|reflexivity].
  by rewrite Hk.
Qed.

Lemma bind_ret_l {A B} (a : A) (k : A -> M B) s : bind (ret a) k s = k a s.
Proof. unfold bind, ret. by destruct (k a s) as [[r s2] ev2]. Qed.

Lemma bind_ret_r {A} (m : M A) s : bind m ret s = m s.
Proof.
  unfold bind, ret. destruct (m s) as [[[a|e] s1] ev1]; [|reflexivity].
  by rewrite app_nil_r.
Qed.

Lemma emits_ret {A} P (a : A) : emits P (ret a).
Proof. intros s. constructor. Qed.

Lemma emits_raise {A} P e : emits P (raise e : M A).
Proof. intros s. constructor. Qed.

Lemma emits_bind {A B} P (m : M A) (k : A -> M B) :
  emits P m -> (forall a, emits P (k a)) -> emits P (bind m k).
Proof.
  intros Hm Hk s. rewrite events_bind. apply Forall_app. split; [apply Hm|].
  destruct (result (m s)); [apply Hk|constructor].
Qed.

Lemma emits_for_each {A} P (l : list A) (body : A -> M unit) :
  (forall a, emits P (body a)) -> emits P (for_each l body).
Proof.
  intros Hb. induction l as [|a l IH]; cbn.
  - apply emits_ret.
  - apply emits_bind; [apply Hb|intros _; apply IH].
Qed.

Lemma emits_lift_either {A} P (r : Exn + A) : emits P (lift_either r).
Proof. destruct r; [apply emits_raise|apply emits_ret]. Qed.

Lemma emits_logger P lvl msg : P (EvLog lvl msg) -> emits P (logger lvl msg).
Proof. intros HP s. by repeat constructor. Qed.

Lemma emits_exists P fn : emits P (exists_ fn).
Proof. intros s. constructor. Qed.

Lemma emits_open P fn : emits P (open fn).
Proof. intros s. unfold open. destruct (fs s !! fn); constructor. Qed.

Lemma emits_popen P call :
  (forall rc, P (EvPopen call rc)) -> emits P (popen call).
Proof.
  intros HP s. unfold popen.
  destruct (sys_popen call (world s) (fs s)) as [[[w f] rc] out].
  by repeat constructor.
Qed.

Lemma emits_confirm P prompt :
  (forall yes, P (EvConfirm prompt yes)) -> emits P (confirm prompt).
Proof.
  intros HP s. unfold confirm.
  destruct (sys_answer prompt (world s)) as [w yes]. by repeat constructor.
Qed.

Lemma emits_run_make P cmd dir env sudo :
  (forall call rc, mk_cmd call = cmd -> P (EvMake call rc)) ->
  emits P (run_make cmd dir env sudo).
Proof.
  intros HP s. unfold run_make.
  destruct (sys_make _ (world s) (fs s)) as [[w f] rc].
  repeat constructor. by apply HP.
Qed.

Lemma emits_unlink P fn : P (EvUnlink fn) -> emits P (unlink fn).
Proof.
  intros HP s. unfold unlink. destruct (fs s !! fn); by repeat constructor.
Qed.

Lemma emits_isdir P fn : emits P (isdir fn).
Proof. intros s. constructor. Qed.

Lemma emits_unpack P fn dir : emits P (unpack fn dir).
Proof.
  intros s. unfold unpack.
  destruct (sys_unpack fn dir (world s) (fs s)) as [[w f] [e|a]]; constructor.
Qed.

Lemma emits_get_meta P spec : emits P (get_meta spec).
Proof.
  intros s. unfold get_meta.
  destruct (sys_get_meta spec (world s) (fs s)) as [w [e|a]]; constructor.
Qed.

Lemma emits_api_download P name ver : emits P (api_download name ver).
Proof.
  intros s. unfold api_download.
  destruct (sys_api_download name ver (world s)) as [w [e|a]]; constructor.
Qed.

Lemma emits_download P url fn : emits P (download url fn).
Proof.
  intros s. unfold download.
  destruct (sys_download url fn (world s) (fs s)) as [[w f] [e|a]]; constructor.
Qed.

Lemma emits_is_loaded P fn : emits P (LoadUnload._is_loaded fn).
Proof. intros s. constructor. Qed.

Lemma emits_register_loaded P fn : emits P (LoadUnload._register_loaded fn).
Proof. intros s. constructor. Qed.

Lemma omap_emits {A B} (p : Event -> option B) (m : M A) s :
  emits (fun e => p e = None) m -> omap p (events (m s)) = [].
Proof.
  intros Hm. specialize (Hm s). induction Hm as [|e l He _ IH]; [done|].
  cbn. by rewrite He.
Qed.

End Running.

(** Splits a goal [emits P m] along the structure of [m], down to the
    events [m] can produce. *)
Ltac emits_step :=
  first
    [ apply emits_ret
    | apply emits_raise
    | apply emits_lift_either
    | apply emits_exists
    | apply emits_open
    | apply emits_is_loaded
    | apply emits_isdir
    | apply emits_unpack
    | apply emits_get_meta
    | apply emits_api_download
    | apply emits_download
    | apply emits_unlink
    | apply emits_register_loaded
    | apply emits_logger
    | apply emits_popen; intros ?
    | apply emits_confirm; intros ?
    | apply emits_bind; [|intros ?]
    | match goal with
      | |- emits _ (if ?b then _ else _) => destruct b
      | |- emits _ (match ?x with _ => _ end) => destruct x
      | |- emits _ (let '(_, _) := ?x in _) => destruct x
      | |- emits _ (let _ := _ in _) => cbv zeta
      end ].

Ltac emits_tac := repeat emits_step.

(** ** Download: the checksum of the downloaded file *)

Section VerifyChecksum.
Context {Wd : World} {Sh : Sha1}.

Lemma chunk_size_pos : exists n, Download.chunk_size = S n.
Proof. exists (Nat.pred Download.chunk_size). unfold Download.chunk_size. lia. Qed.

(** The loop reads the whole file: given more steps than the file has
    bytes, it ends with the hash object fed with the whole content. *)
Lemma read_loop_reads fuel (rest : bytes) sha :
  length rest < fuel ->
  Download.read_loop fuel rest sha = Some (update sha rest).
Proof.
  destruct chunk_size_pos as [n Hn].
  revert rest sha. induction fuel as [|fuel IH]; intros rest sha Hlt; [lia|].
  cbn [Download.read_loop].
  destruct (take Download.chunk_size rest) as [|b data] eqn:Htake.
  - destruct rest as [|b rest]; [by rewrite update_nil|].
    rewrite Hn in Htake. discriminate.
  - rewrite <- Htake, IH.
    + by rewrite update_app, take_drop.
    + rewrite length_drop. destruct rest; [discriminate|].
      cbn [length] in *. lia.
Qed.

Lemma verify_checksum_match fn chk content s :
  fs s !! fn = Some content ->
  digest content = chk ->
  Download.verify_checksum fn chk s = (Ok tt, s, [EvLog Debug (CheckingSha1 fn)]).
Proof.
  intros Hfn Hchk. unfold Download.verify_checksum, bind, logger, emit, open.
  rewrite Hfn, read_loop_reads by lia.
  fold (digest content). rewrite Hchk, String.eqb_refl. reflexivity.
Qed.

Lemma verify_checksum_mismatch fn chk content s :
  fs s !! fn = Some content ->
  digest content <> chk ->
  Download.verify_checksum fn chk s =
  (Raise (BadChecksum "bad sha1 in downloaded file"),
   mkState (world s) (delete fn (fs s)) (_loaded s),
   [EvLog Debug (CheckingSha1 fn); EvUnlink fn;
    EvLog Error (BadSha1 fn (digest content) chk)]).
Proof.
  intros Hfn Hchk. unfold Download.verify_checksum, bind, logger, emit, open.
  rewrite Hfn, read_loop_reads by lia.
  fold (digest content). apply String.eqb_neq in Hchk. rewrite Hchk.
  cbn. unfold unlink. rewrite Hfn. reflexivity.
Qed.

(** C1.  For a file at [fn] with content [content]: when the SHA-1 digest
    of the content is the expected one, [verify_checksum] returns, the
    state (the file system with it) is the one it started in and the only
    event is the debug line of the logger; when the digest differs,
    [verify_checksum] raises [BadChecksum] after it has deleted the file
    at [fn], and the file is no longer there. *)
Theorem verify_checksum_keeps_or_deletes fn chk content s :
  fs s !! fn = Some content ->
  (digest content = chk ->
     Download.verify_checksum fn chk s
     = (Ok tt, s, [EvLog Debug (CheckingSha1 fn)])
     /\ fs (final (Download.verify_checksum fn chk s)) !! fn = Some content)
  /\
  (digest content <> chk ->
     result (Download.verify_checksum fn chk s)
     = Raise (BadChecksum "bad sha1 in downloaded file")
     /\ fs (final (Download.verify_checksum fn chk s)) = delete fn (fs s)
     /\ fs (final (Download.verify_checksum fn chk s)) !! fn = None
     /\ events (Download.verify_checksum fn chk s)
        = [EvLog Debug (CheckingSha1 fn); EvUnlink fn;
           EvLog Error (BadSha1 fn (digest content) chk)]).
Proof.
  intros Hfn. split; intros Hchk.
  - rewrite (verify_checksum_match _ _ _ _ Hfn Hchk). by split.
  - rewrite (verify_checksum_mismatch _ _ _ _ Hfn Hchk). cbn.
    repeat split. apply lookup_delete_eq.
Qed.

End VerifyChecksum.

(** The two cases of C1 on a file of two bytes. *)
Lemma verify_checksum_keeps_or_deletes_witness :
  (Download.verify_checksum (Wd := Sample.quiet) (Sh := Sample.sha)
     "/tmp/foo-1.0.0.zip" (digest (Sh := Sample.sha) Sample.two_bytes)
     Sample.downloaded
   = (Ok tt, Sample.downloaded,
      [EvLog Debug (CheckingSha1 "/tmp/foo-1.0.0.zip")])
   /\ fs (final (Download.verify_checksum (Wd := Sample.quiet)
                   (Sh := Sample.sha) "/tmp/foo-1.0.0.zip"
                   (digest (Sh := Sample.sha) Sample.two_bytes)
                   Sample.downloaded))
      !! "/tmp/foo-1.0.0.zip" = Some Sample.two_bytes)
  /\
  (result (Download.verify_checksum (Wd := Sample.quiet) (Sh := Sample.sha)
             "/tmp/foo-1.0.0.zip" "da39a3ee" Sample.downloaded)
   = Raise (BadChecksum "bad sha1 in downloaded file")
   /\ fs (final (Download.verify_checksum (Wd := Sample.quiet)
                   (Sh := Sample.sha) "/tmp/foo-1.0.0.zip" "da39a3ee"
                   Sample.downloaded))
      !! "/tmp/foo-1.0.0.zip" = None).
Proof.
  split.
  - exact (proj1 (verify_checksum_keeps_or_deletes (Wd := Sample.quiet)
                    (Sh := Sample.sha) "/tmp/foo-1.0.0.zip" _
                    Sample.two_bytes Sample.downloaded eq_refl) eq_refl).
  - destruct (proj2 (verify_checksum_keeps_or_deletes (Wd := Sample.quiet)
                       (Sh := Sample.sha) "/tmp/foo-1.0.0.zip" "da39a3ee"
                       Sample.two_bytes Sample.downloaded eq_refl))
      as (Hr & _ & Hgone & _).
    + discriminate.
    + split; [exact Hr|exact Hgone].
Defined.

(** ** LoadUnload: where the SQL file is *)

Section FindSqlFile.
Context {Wd : World}.
Import LoadUnload.

Lemma first_existing_Some (f : FS) l p :
  first_existing f l = Some p <->
  exists l1 l2, l = l1 ++ p :: l2 /\ is_Some (f !! p)
                /\ Forall (fun q => f !! q = None) l1.
Proof.
  induction l as [|q l IH]; cbn.
  - split; [discriminate|]. intros (l1 & l2 & Hl & _). by destruct l1.
  - case_bool_decide as Hq.
    + split.
      * intros [= ->]. exists [], l. repeat split; [done|constructor].
      * intros (l1 & l2 & Hl & Hp & Hl1). destruct l1 as [|q' l1].
        -- by injection Hl as -> _.
        -- injection Hl as -> _. apply Forall_cons_1 in Hl1 as [Hq' _].
           rewrite Hq' in Hq. by destruct Hq.
    + rewrite IH. split.
      * intros (l1 & l2 & -> & Hp & Hl1). exists (q :: l1), l2.
        repeat split; [done|]. constructor; [|done].
        by apply eq_None_not_Some.
      * intros (l1 & l2 & Hl & Hp & Hl1). destruct l1 as [|q' l1].
        -- injection Hl as -> _. contradiction.
        -- injection Hl as -> ->. apply Forall_cons_1 in Hl1 as [_ Hl1].
           by exists l1, l2.
Qed.

Lemma first_existing_None (f : FS) l :
  first_existing f l = None <-> Forall (fun q => f !! q = None) l.
Proof.
  induction l as [|q l IH]; cbn.
  - split; [constructor|done].
  - case_bool_decide as Hq.
    + split; [discriminate|]. intros [Hq' _]%Forall_cons_1.
      rewrite Hq' in Hq. by destruct Hq.
    + rewrite IH. split.
      * intros Hl. constructor; [by apply eq_None_not_Some|done].
      * by intros [_ Hl]%Forall_cons_1.
Qed.

(** The loop returns the first of its paths that exists, whatever it has
    tried before, as long as what it has tried does not exist; it leaves
    the state as it is and probes nothing but its paths. *)
Lemma find_sql_loop_first sharedir tries tried s :
  (forall t, t ∈ tried -> fs s !! (sharedir +:+ "/" +:+ t) = None) ->
  exists evs,
    find_sql_loop sharedir tries tried s
    = (Ok (first_existing (fs s)
             (map (fun t => sharedir +:+ "/" +:+ t) tries)), s, evs)
    /\ Forall (fun fn => fn ∈ map (fun t => sharedir +:+ "/" +:+ t) tries)
              (probes evs).
Proof.
  revert tried. induction tries as [|t tries IH]; intros tried Htried.
  - exists []. split; [reflexivity|constructor].
  - cbn [find_sql_loop map first_existing].
    assert (Hmono : forall fns : list string,
      Forall (fun fn => fn ∈ map (fun t => sharedir +:+ "/" +:+ t) tries) fns ->
      Forall (fun fn => fn ∈ (sharedir +:+ "/" +:+ t)
                :: map (fun t => sharedir +:+ "/" +:+ t) tries) fns).
    { intros fns Hfns. eapply Forall_impl; [exact Hfns|].
      intros fn Hfn. by right. }
    case_bool_decide as Ht.
    + rewrite (Htried _ Ht).
      rewrite bool_decide_eq_false_2 by (by intros [? ?]).
      destruct (IH tried Htried) as (evs & Heq & Hev). exists evs. auto.
    + unfold bind, logger, emit, exists_.
      destruct (bool_decide (is_Some (fs s !! (sharedir +:+ "/" +:+ t))))
        eqn:Hex.
      * eexists. split; [reflexivity|]. repeat constructor.
      * apply bool_decide_eq_false_1 in Hex.
        destruct (IH (tried ∪ {[t]})) as (evs & Heq & Hev).
        { intros t' [Ht'| ->%elem_of_singleton]%elem_of_union; [auto|].
          by apply eq_None_not_Some. }
        rewrite Heq. eexists. split; [reflexivity|].
        cbn. constructor; [by left|auto].
Qed.

Lemma emits_find_sql_file P name sqlfile :
  (forall fn, P (EvLog Debug (CheckingSqlFile fn))) ->
  emits P (find_sql_file name sqlfile).
Proof.
  intros HP. unfold find_sql_file. apply emits_bind.
  - generalize (∅ : gset string).
    induction [_; _; _] as [|t tries IH]; intros tried; cbn [find_sql_loop].
    + apply emits_ret.
    + destruct (bool_decide (t ∈ tried)); [apply IH|].
      emits_tac; [apply HP|apply IH].
  - intros found. emits_tac.
Qed.

(** What [find_sql_file] returns, where it leaves the state and what it
    probes. *)
Lemma find_sql_file_run name sqlfile s :
  let f := Path.basename sqlfile in
  let sharedir := call_pg_config "sharedir" in
  let x := find_sql_file name sqlfile s in
  candidates name f
  = [ sharedir +:+ "/" +:+ (name +:+ "/" +:+ f);
      sharedir +:+ "/" +:+ (Str.rsplit1_head "." f +:+ "/" +:+ f);
      sharedir +:+ "/" +:+ ("contrib/" +:+ f) ]
  /\ result x
     = match first_existing (fs s) (candidates name f) with
       | Some fn => Ok fn
       | None =>
           Raise (PgxnClientException
                    ("cannot find sql file for extension '" +:+ name
                     +:+ "': '" +:+ f +:+ "'"))
       end
  /\ final x = s
  /\ Forall (fun fn => fn ∈ candidates name f) (probes (events x)).
Proof.
  intros f sharedir x. split; [reflexivity|].
  subst x. unfold find_sql_file. fold f. fold sharedir.
  destruct (find_sql_loop_first sharedir
              [name +:+ "/" +:+ f; Str.rsplit1_head "." f +:+ "/" +:+ f;
               "contrib/" +:+ f] ∅ s) as (evs & Heq & Hev); [set_solver|].
  rewrite (bind_ok _ _ _ _ _ _ Heq).
  change (map _ _) with (candidates name f) in *.
  destruct (first_existing (fs s) (candidates name f)) as [fn|];
    cbn; by rewrite app_nil_r.
Qed.

(** C6.  [find_sql_file] looks for the file name [f], the base name of
    [sqlfile], under the shared directory of the server, at [<name>/f],
    then at [<f without its extension>/f], then at [contrib/f]: it
    returns the first of these three paths that exists, also when a
    later one exists too, and when none exists it raises an error whose
    message names the extension object and the file name.  It probes no
    other path and changes nothing. *)
Theorem find_sql_file_first_candidate name sqlfile s :
  let f := Path.basename sqlfile in
  let sharedir := call_pg_config "sharedir" in
  let x := find_sql_file name sqlfile s in
  candidates name f
  = [ sharedir +:+ "/" +:+ (name +:+ "/" +:+ f);
      sharedir +:+ "/" +:+ (Str.rsplit1_head "." f +:+ "/" +:+ f);
      sharedir +:+ "/" +:+ ("contrib/" +:+ f) ]
  /\ result x
     = match first_existing (fs s) (candidates name f) with
       | Some fn => Ok fn
       | None =>
           Raise (PgxnClientException
                    ("cannot find sql file for extension '" +:+ name
                     +:+ "': '" +:+ f +:+ "'"))
       end
  /\ final x = s
  /\ Forall (fun fn => fn ∈ candidates name f) (probes (events x)).
Proof. apply find_sql_file_run. Qed.

End FindSqlFile.

(** C6 on a server where [bar.sql] is both in [foo/] and in [contrib/]:
    the one in [foo/] is returned; and for a file that is nowhere. *)
Lemma find_sql_file_first_candidate_witness :
  result (LoadUnload.find_sql_file (Wd := Sample.quiet) "foo" "sql/bar.sql"
            Sample.two_places)
  = Ok "/share/foo/bar.sql"
  /\ result (LoadUnload.find_sql_file (Wd := Sample.quiet) "foo" "baz.sql"
               Sample.two_places)
     = Raise (PgxnClientException
                "cannot find sql file for extension 'foo': 'baz.sql'").
Proof.
  split.
  - exact (proj1 (proj2 (find_sql_file_first_candidate (Wd := Sample.quiet)
                           "foo" "sql/bar.sql" Sample.two_places))).
  - exact (proj1 (proj2 (find_sql_file_first_candidate (Wd := Sample.quiet)
                           "foo" "baz.sql" Sample.two_places))).
Defined.

(** ** Install, Uninstall: the order of the steps *)

Section Pipeline.
Context {Wd : World} {Sh : Sha1}.

Lemma run_pipeline _inun opts dir s :
  InstallUninstall._run _inun opts dir s
  = bind (acquire opts dir) (pipeline _inun opts) s.
Proof. reflexivity. Qed.

(** Acquiring the source runs no child process and no build tool. *)
Lemma acquire_no_step opts dir : emits (fun e => step_of e = None) (acquire opts dir).
Proof.
  unfold acquire, Download.run, Download._get_local_file_name,
    Download.verify_checksum.
  emits_tac; reflexivity.
Qed.

Lemma maybe_run_configure_absent pdir s :
  fs s !! Path.join pdir "configure" = None ->
  InstallUninstall.maybe_run_configure pdir s
  = (Ok tt, s, [EvLog Debug (CheckingPath (Path.join pdir "configure"))]).
Proof.
  intros Hfn. unfold InstallUninstall.maybe_run_configure, bind, logger, emit,
    exists_. rewrite Hfn.
  rewrite bool_decide_eq_false_2 by (by intros [? ?]). reflexivity.
Qed.

Lemma maybe_run_configure_present pdir s w f rc out :
  let fn := Path.join pdir "configure" in
  let call := {| argv := [fn]; cwd := Some pdir; penv := None;
                 stdin := StdinInherit |} in
  is_Some (fs s !! fn) ->
  sys_popen call (world s) (fs s) = (w, f, rc, out) ->
  InstallUninstall.maybe_run_configure pdir s
  = (if (rc =? 0)%Z then Ok tt
     else Raise (PgxnClientException
                   ("configure failed with return code " +:+ pretty rc)),
     mkState w f (_loaded s),
     [EvLog Debug (CheckingPath fn); EvLog Info RunningConfigure;
      EvPopen call rc]).
Proof.
  intros fn call Hfn Hp.
  unfold InstallUninstall.maybe_run_configure, bind, logger, emit, exists_,
    popen.
  fold fn. rewrite bool_decide_eq_true_2 by done. cbn. fold call.
  rewrite Hp. by destruct (rc =? 0)%Z.
Qed.

Lemma maybe_run_configure_steps pdir s :
  steps (events (InstallUninstall.maybe_run_configure pdir s))
  = configure_step pdir (fs s).
Proof.
  unfold configure_step. case_bool_decide as Hfn.
  - destruct (sys_popen {| argv := [Path.join pdir "configure"];
                           cwd := Some pdir; penv := None;
                           stdin := StdinInherit |} (world s) (fs s))
      as [[[w f] rc] out] eqn:Hp.
    by rewrite (maybe_run_configure_present _ _ _ _ _ _ Hfn Hp).
  - rewrite maybe_run_configure_absent; [done|].
    by apply eq_None_not_Some.
Qed.

(** What [Install._inun] and [Uninstall._inun] run, by the exit code of
    the build tool for the target [all]. *)
Lemma install_inun_steps opts pdir s :
  let all := {| mk_cmd := ["all"]; mk_dir := pdir; mk_env := None;
                mk_sudo := None |} in
  let x := Install._inun opts pdir s in
  steps (events x)
  = Make ["all"]
    :: (if ((sys_make all (world s) (fs s)).2 =? 0)%Z
        then [Make ["install"]] else [])
  /\ (result x = Ok tt -> steps (events x) = [Make ["all"]; Make ["install"]]).
Proof.
  intros all x. subst x.
  unfold Install._inun, bind, logger, emit, run_make. fold all.
  destruct (sys_make all (world s) (fs s)) as [[w f] rc]. cbn.
  destruct (rc =? 0)%Z; cbn; [|by split].
  destruct (sys_make _ w f) as [[w' f'] rc']. cbn.
  by destruct (rc' =? 0)%Z.
Qed.

Lemma uninstall_inun_steps opts pdir s :
  steps (events (Uninstall._inun opts pdir s)) = [Make ["uninstall"]].
Proof.
  unfold Uninstall._inun, bind, logger, emit, run_make.
  destruct (sys_make _ (world s) (fs s)) as [[w f] rc]. cbn.
  by destruct (rc =? 0)%Z.
Qed.

(** The steps of a run are those of the pipeline that follows the
    acquisition, or none when the acquisition fails. *)
Lemma run_steps _inun opts dir s :
  let a := acquire opts dir s in
  let x := InstallUninstall._run _inun opts dir s in
  match result a with
  | Ok pdir =>
      result x = result (pipeline _inun opts pdir (final a))
      /\ steps (events x) = steps (events (pipeline _inun opts pdir (final a)))
  | Raise e => result x = Raise e /\ steps (events x) = []
  end.
Proof.
  intros a x. subst x. rewrite run_pipeline.
  rewrite result_bind, events_bind. unfold steps. rewrite omap_app.
  rewrite (omap_emits step_of (acquire opts dir) s (acquire_no_step _ _)).
  fold a. destruct (result a) as [pdir|e]; by split.
Qed.

Lemma pipeline_steps _inun opts pdir s :
  let c := InstallUninstall.maybe_run_configure pdir s in
  let x := pipeline _inun opts pdir s in
  match result c with
  | Ok _ =>
      result x = result (_inun opts pdir (final c))
      /\ steps (events x)
         = configure_step pdir (fs s) ++ steps (events (_inun opts pdir (final c)))
  | Raise e => result x = Raise e /\ steps (events x) = configure_step pdir (fs s)
  end.
Proof.
  intros c x. subst x. unfold pipeline.
  rewrite result_bind, events_bind. unfold steps. rewrite omap_app.
  fold (steps (events (InstallUninstall.maybe_run_configure pdir s))).
  rewrite maybe_run_configure_steps. fold c.
  destruct (result c) as [[]|e]; split; try done. by rewrite app_nil_r.
Qed.

(** The outcome of [Install._inun] and of [Uninstall._inun], by the
    outcome of the calls of the build tool. *)
Lemma install_inun_run opts pdir s :
  let all := run_make ["all"] pdir None None s in
  let install := run_make ["install"] pdir None (opt_sudo opts) (final all) in
  let x := Install._inun opts pdir s in
  match result all with
  | Ok _ =>
      result x = result install
      /\ steps (events x) = [Make ["all"]; Make ["install"]]
  | Raise e => result x = Raise e /\ steps (events x) = [Make ["all"]]
  end.
Proof.
  intros all install x. subst all install x.
  unfold Install._inun, bind, logger, emit, run_make.
  destruct (sys_make _ (world s) (fs s)) as [[w f] rc]. cbn.
  destruct (rc =? 0)%Z; cbn; [|done].
  destruct (sys_make _ w f) as [[w' f'] rc']. cbn.
  by destruct (rc' =? 0)%Z.
Qed.

Lemma uninstall_inun_run opts pdir s :
  result (Uninstall._inun opts pdir s)
  = result (run_make ["uninstall"] pdir None (opt_sudo opts) s).
Proof.
  unfold Uninstall._inun, bind, logger, emit, run_make.
  destruct (sys_make _ (world s) (fs s)) as [[w f] rc]. cbn.
  by destruct (rc =? 0)%Z.
Qed.

End Pipeline.

Section PipelineOrder.
Context {Wd : World} {Sh : Sha1}.

(** C5, as the code has it.  Once the source is acquired in [pdir], an
    install runs the configure script if there is one at the root of the
    source, then the target [all] of the build tool, then the target
    [install]; an uninstall runs the configure script if there is one and
    then the target [uninstall] alone: it does not run [all].  A step that
    fails ends the run with its error and no later step is run; a step
    that succeeds is followed by the next one.  So the steps of a run are
    the first ones of the sequence, and all of them when the run returns.
    When the acquisition fails nothing is run. *)
Theorem install_uninstall_steps opts dir s :
  let a := acquire opts dir s in
  let i := Install._run opts dir s in
  let u := Uninstall._run opts dir s in
  (forall e, result a = Raise e ->
     (result i = Raise e /\ steps (events i) = [])
     /\ (result u = Raise e /\ steps (events u) = []))
  /\
  (forall pdir, result a = Ok pdir ->
     let cfg := configure_step pdir (fs (final a)) in
     let c := InstallUninstall.maybe_run_configure pdir (final a) in
     let all := run_make ["all"] pdir None None (final c) in
     let install := run_make ["install"] pdir None (opt_sudo opts) (final all) in
     let uninstall := run_make ["uninstall"] pdir None (opt_sudo opts) (final c) in
     (steps (events i) `prefix_of` cfg ++ [Make ["all"]; Make ["install"]]
      /\ (result i = Ok tt ->
          steps (events i) = cfg ++ [Make ["all"]; Make ["install"]]))
     /\
     (steps (events u) `prefix_of` cfg ++ [Make ["uninstall"]]
      /\ (result u = Ok tt -> steps (events u) = cfg ++ [Make ["uninstall"]]))
     /\
     (forall e, result c = Raise e ->
        (result i = Raise e /\ steps (events i) = cfg)
        /\ (result u = Raise e /\ steps (events u) = cfg))
     /\
     (result c = Ok tt ->
        (forall e, result all = Raise e ->
           result i = Raise e /\ steps (events i) = cfg ++ [Make ["all"]])
        /\ (result all = Ok tt ->
            result i = result install
            /\ steps (events i) = cfg ++ [Make ["all"]; Make ["install"]])
        /\ result u = result uninstall
        /\ steps (events u) = cfg ++ [Make ["uninstall"]])).
Proof.
  intros a i u.
  pose proof (run_steps Install._inun opts dir s) as Hi.
  pose proof (run_steps Uninstall._inun opts dir s) as Hu.
  cbv zeta in Hi, Hu. fold a in Hi, Hu.
  change (InstallUninstall._run Install._inun opts dir s) with i in Hi.
  change (InstallUninstall._run Uninstall._inun opts dir s) with u in Hu.
  split.
  - intros e He. rewrite He in Hi, Hu. by split.
  - intros pdir Ha cfg c all install uninstall. rewrite Ha in Hi, Hu.
    destruct Hi as [Hir His], Hu as [Hur Hus].
    pose proof (pipeline_steps Install._inun opts pdir (final a)) as Hpi.
    pose proof (pipeline_steps Uninstall._inun opts pdir (final a)) as Hpu.
    cbv zeta in Hpi, Hpu. fold cfg c in Hpi, Hpu.
    rewrite Hir, His, Hur, Hus.
    pose proof (install_inun_run opts pdir (final c)) as Hrun.
    cbv zeta in Hrun. fold all install in Hrun.
    pose proof (uninstall_inun_run opts pdir (final c)) as Hunrun.
    fold uninstall in Hunrun.
    destruct (result c) as [[]|e].
    + destruct Hpi as [-> ->], Hpu as [-> ->].
      destruct (install_inun_steps opts pdir (final c)) as [Hsteps Hok].
      rewrite uninstall_inun_steps.
      split; [|split; [|split]].
      * split.
        -- rewrite Hsteps. apply prefix_app.
           destruct (_ =? _)%Z; [done|]. by exists [Make ["install"]].
        -- intros Hr. by rewrite (Hok Hr).
      * by split.
      * discriminate.
      * intros _. split; [|split; [|by split]].
        -- intros e He. rewrite He in Hrun. destruct Hrun as [-> ->]. by split.
        -- intros Hall. rewrite Hall in Hrun. destruct Hrun as [-> ->].
           by split.
    + destruct Hpi as [-> ->], Hpu as [-> ->].
      split; [|split; [|split]].
      * split; [by apply prefix_app_r|discriminate].
      * split; [by apply prefix_app_r|discriminate].
      * by intros e' [= <-].
      * discriminate.
Qed.

(** C7.  With the source acquired in [pdir]: when there is no configure
    script at the root of the source, the configure step is skipped
    without an error and the build goes on in the same state, an install
    with the target [all], followed by [install] when [all] succeeds, an
    uninstall with the target [uninstall]; when there is a configure
    script and it exits with a code [rc] other than zero, the run fails
    with the error "configure failed with return code rc" and the
    configure script is all that was run. *)
Theorem configure_skipped_or_fatal opts dir s pdir :
  let a := acquire opts dir s in
  let fn := Path.join pdir "configure" in
  let call := {| argv := [fn]; cwd := Some pdir; penv := None;
                 stdin := StdinInherit |} in
  let all := {| mk_cmd := ["all"]; mk_dir := pdir; mk_env := None;
                mk_sudo := None |} in
  result a = Ok pdir ->
  (fs (final a) !! fn = None ->
     InstallUninstall.maybe_run_configure pdir (final a)
     = (Ok tt, final a, [EvLog Debug (CheckingPath fn)])
     /\ steps (events (Install._run opts dir s))
        = Make ["all"]
          :: (if ((sys_make all (world (final a)) (fs (final a))).2 =? 0)%Z
              then [Make ["install"]] else [])
     /\ steps (events (Uninstall._run opts dir s)) = [Make ["uninstall"]])
  /\
  (is_Some (fs (final a) !! fn) ->
   forall rc,
     (sys_popen call (world (final a)) (fs (final a))).1.2 = rc ->
     rc <> 0%Z ->
     forall _inun,
       result (InstallUninstall._run _inun opts dir s)
       = Raise (PgxnClientException
                  ("configure failed with return code " +:+ pretty rc))
       /\ steps (events (InstallUninstall._run _inun opts dir s)) = [Run [fn]]).
Proof.
  intros a fn call all Ha. split.
  - intros Hfn.
    pose proof (maybe_run_configure_absent pdir (final a) Hfn) as Hc.
    split; [exact Hc|].
    pose proof (run_steps Install._inun opts dir s) as Hi.
    pose proof (run_steps Uninstall._inun opts dir s) as Hu.
    cbv zeta in Hi, Hu. fold a in Hi, Hu. rewrite Ha in Hi, Hu.
    destruct Hi as [_ His], Hu as [_ Hus].
    pose proof (pipeline_steps Install._inun opts pdir (final a)) as Hpi.
    pose proof (pipeline_steps Uninstall._inun opts pdir (final a)) as Hpu.
    cbv zeta in Hpi, Hpu. rewrite Hc in Hpi, Hpu.
    cbn [result final events fst snd] in Hpi, Hpu.
    destruct Hpi as [_ Hpi], Hpu as [_ Hpu].
    unfold configure_step in Hpi, Hpu. fold fn in Hpi, Hpu.
    rewrite Hfn in Hpi, Hpu.
    rewrite bool_decide_eq_false_2 in Hpi, Hpu by (by intros [? ?]).
    unfold Install._run, Uninstall._run. rewrite His, Hus, Hpi, Hpu.
    cbn [app].
    split; [|apply uninstall_inun_steps].
    by destruct (install_inun_steps opts pdir (final a)) as [-> _].
  - intros Hfn rc Hrc Hnz _inun.
    destruct (sys_popen call (world (final a)) (fs (final a)))
      as [[[w f] rc'] out] eqn:Hp. cbn in Hrc. subst rc'.
    pose proof (maybe_run_configure_present pdir (final a) _ _ _ _ Hfn Hp)
      as Hc.
    apply Z.eqb_neq in Hnz. rewrite Hnz in Hc.
    pose proof (run_steps _inun opts dir s) as Hr.
    cbv zeta in Hr. fold a in Hr. rewrite Ha in Hr. destruct Hr as [-> ->].
    pose proof (pipeline_steps _inun opts pdir (final a)) as Hpl.
    cbv zeta in Hpl. rewrite Hc in Hpl.
    cbn [result final events fst snd] in Hpl. destruct Hpl as [-> ->].
    split; [done|]. unfold configure_step. fold fn.
    by rewrite bool_decide_eq_true_2.
Qed.

End PipelineOrder.

(** C5 on a directory with a configure script, in a world where every
    step succeeds. *)
Lemma install_uninstall_steps_witness :
  (steps (events (Install._run (Wd := Sample.quiet) (Sh := Sample.sha)
                    Sample.local "/tmp/pgxn" Sample.configured_source))
   = [Run ["/src/foo/configure"]; Make ["all"]; Make ["install"]]
   /\ steps (events (Uninstall._run (Wd := Sample.quiet) (Sh := Sample.sha)
                       Sample.local "/tmp/pgxn" Sample.configured_source))
      = [Run ["/src/foo/configure"]; Make ["uninstall"]])
  /\
  (result (Install._run (Wd := Sample.failing_tests) (Sh := Sample.sha)
             Sample.local "/tmp/pgxn" Sample.tested_elsewhere)
   = Raise (PgxnClientException "command returned 1")
   /\ steps (events (Install._run (Wd := Sample.failing_tests)
                       (Sh := Sample.sha) Sample.local "/tmp/pgxn"
                       Sample.tested_elsewhere))
      = [Make ["all"]]).
Proof.
  split.
  - destruct (proj2 (install_uninstall_steps (Wd := Sample.quiet)
                       (Sh := Sample.sha) Sample.local "/tmp/pgxn"
                       Sample.configured_source) "/src/foo" eq_refl)
      as ([_ Hi] & [_ Hu] & _).
    split; [exact (Hi eq_refl)|exact (Hu eq_refl)].
  - destruct (proj2 (install_uninstall_steps (Wd := Sample.failing_tests)
                       (Sh := Sample.sha) Sample.local "/tmp/pgxn"
                       Sample.tested_elsewhere) "/src/foo" eq_refl)
      as (_ & _ & _ & Hc).
    destruct (Hc eq_refl) as (Hall & _).
    exact (Hall (PgxnClientException "command returned 1") eq_refl).
Defined.

(** C5 fails for uninstall: on a directory without a configure script, in a
    world where every step succeeds, the run returns, it has run the target
    [uninstall] and it has not run the target [all]. *)
Lemma uninstall_runs_without_all :
  let x := Uninstall._run (Wd := Sample.quiet) (Sh := Sample.sha)
             Sample.local "/tmp/pgxn" Sample.plain_source in
  result x = Ok tt
  /\ Make ["uninstall"] ∈ steps (events x)
  /\ Make ["all"] ∉ steps (events x).
Proof.
  cbv zeta.
  assert (steps (events (Uninstall._run (Wd := Sample.quiet)
                           (Sh := Sample.sha) Sample.local "/tmp/pgxn"
                           Sample.plain_source))
          = [Make ["uninstall"]]) as -> by reflexivity.
  split; [reflexivity|]. split.
  - by apply list_elem_of_singleton.
  - by intros [=]%list_elem_of_singleton.
Qed.

(** C7 on a directory without a configure script, and on a directory whose
    configure script exits with [2]. *)
Lemma configure_skipped_or_fatal_witness :
  (steps (events (Install._run (Wd := Sample.quiet) (Sh := Sample.sha)
                    Sample.local "/tmp/pgxn" Sample.plain_source))
   = [Make ["all"]; Make ["install"]]
   /\ steps (events (Uninstall._run (Wd := Sample.quiet) (Sh := Sample.sha)
                       Sample.local "/tmp/pgxn" Sample.plain_source))
      = [Make ["uninstall"]])
  /\
  (result (Install._run (Wd := Sample.failing) (Sh := Sample.sha)
             Sample.local "/tmp/pgxn" Sample.failing_configure)
   = Raise (PgxnClientException "configure failed with return code 2")
   /\ steps (events (Install._run (Wd := Sample.failing) (Sh := Sample.sha)
                       Sample.local "/tmp/pgxn" Sample.failing_configure))
      = [Run ["/src/foo/configure"]]).
Proof.
  split.
  - destruct (proj1 (configure_skipped_or_fatal (Wd := Sample.quiet)
                       (Sh := Sample.sha) Sample.local "/tmp/pgxn"
                       Sample.plain_source "/src/foo" eq_refl) eq_refl)
      as (_ & Hi & Hu).
    split; [exact Hi|exact Hu].
  - exact (proj2 (configure_skipped_or_fatal (Wd := Sample.failing)
                    (Sh := Sample.sha) Sample.local "/tmp/pgxn"
                    Sample.failing_configure "/src/foo" eq_refl)
             (ex_intro _ [] eq_refl) 2%Z eq_refl
             (fun H => Z.neq_sym _ _ (Z.lt_neq 0 2 eq_refl) H)
             Install._inun).
Defined.

(** ** Load, Unload: what the parts of an activation can produce *)

Section ActivationEvents.
Context {Wd : World}.
Import LoadUnload.

Lemma emits_parse_pg_version P data : emits P (parse_pg_version data).
Proof. unfold parse_pg_version. emits_tac. Qed.

Lemma emits_get_pg_version P :
  (forall cmdline, P (EvLog Debug (Calling cmdline))) ->
  (forall pgver, P (EvLog Debug (PostgresVersion pgver))) ->
  (forall call rc, stdin call = StdinInherit -> P (EvPopen call rc)) ->
  emits P get_pg_version.
Proof.
  intros H1 H2 H3. unfold get_pg_version, call_psql.
  emits_tac; auto using emits_parse_pg_version.
Qed.

Lemma emits_is_extension P name :
  (forall fn, P (EvLog Debug (CheckingIfExists fn))) ->
  emits P (is_extension name).
Proof. intros H1. unfold is_extension. emits_tac; auto. Qed.

Lemma emits_load_sql_file P fn :
  (forall call rc, stdin call = StdinFile fn -> P (EvPopen call rc)) ->
  emits P (load_sql (Some fn) None).
Proof. intros H1. unfold load_sql. cbn [given negb]. emits_tac; auto. Qed.

Lemma emits_load_sql_data P cmd :
  (forall call rc data, stdin call = StdinPipe data -> P (EvPopen call rc)) ->
  emits P (load_sql None (Some cmd)).
Proof.
  intros H1. unfold load_sql. emits_tac; eauto.
Qed.

Lemma emits_create_extension P name :
  (forall call rc data, stdin call = StdinPipe data -> P (EvPopen call rc)) ->
  emits P (Load.create_extension name).
Proof.
  intros H1. unfold Load.create_extension.
  apply emits_bind; [apply emits_lift_either|].
  intros label. by apply emits_load_sql_data.
Qed.

Lemma emits_drop_extension P name :
  (forall call rc data, stdin call = StdinPipe data -> P (EvPopen call rc)) ->
  emits P (Unload.drop_extension name).
Proof.
  intros H1. unfold Unload.drop_extension.
  apply emits_bind; [apply emits_lift_either|].
  intros label. by apply emits_load_sql_data.
Qed.

End ActivationEvents.

(** Splits [emits P m] for an [m] made of the parts of an activation. *)
Ltac emits_activation :=
  repeat first
    [ apply emits_get_pg_version; [intros ?|intros ?|intros ? ? ?]
    | apply emits_is_extension; intros ?
    | apply emits_find_sql_file; intros ?
    | apply emits_load_sql_file; intros ? ? ?
    | apply emits_create_extension; intros ? ? ? ?
    | apply emits_drop_extension; intros ? ? ? ?
    | emits_step ].

Section Activations.
Context {Wd : World}.
Import LoadUnload.

Lemma emits_load_ext_tail name sqlfile :
  emits activation_event
    (if given sqlfile && negb (Str.endswith (default "" sqlfile) ".sql") then
       logger Info (NotSql (default "" sqlfile) name)
     else
       pgver ← get_pg_version;
       returned ←
         (if Version.ge pgver (9, 1, 0)%N then
            e ← is_extension name;
            if e then Load.create_extension name;; ret true
            else confirm (LooseObjects name);; ret false
          else ret false);
       if (returned : bool) then ret tt
       else
         let confirm_ := false in
         let '(sqlfile, confirm_) :=
           if negb (given sqlfile) then (name +:+ ".sql", true)
           else (default "" sqlfile, confirm_) in
         fn ← find_sql_file name sqlfile;
         (if confirm_ then confirm (GuessedFile name fn) else ret tt);;
         loaded ← _is_loaded fn;
         if loaded then logger Info (AlreadyLoaded fn)
         else
           load_sql (Some fn) None;;
           _register_loaded fn).
Proof. emits_activation; exact I. Qed.

Lemma emits_unload_ext_tail name sqlfile :
  emits activation_event
    (if given sqlfile && negb (Str.endswith (default "" sqlfile) ".sql") then
       logger Info (NotSql (default "" sqlfile) name)
     else
       pgver ← get_pg_version;
       returned ←
         (if Version.ge pgver (9, 1, 0)%N then
            e ← is_extension name;
            if e then Unload.drop_extension name;; ret true
            else confirm (LookForScript name);; ret false
          else ret false);
       if (returned : bool) then ret tt
       else
         let sqlfile :=
           if negb (given sqlfile) then name +:+ ".sql"
           else default "" sqlfile in
         let sqlfile := "uninstall_" +:+ sqlfile in
         fn ← find_sql_file name sqlfile;
         confirm (ExecuteToUnload name fn);;
         load_sql (Some fn) None).
Proof. emits_activation; exact I. Qed.

Lemma activation_event_no_activation e :
  activation_event e -> activation_of e = None.
Proof. by destruct e as [[] []| | | | |]. Qed.

Lemma emits_impl {A} (P Q : Event -> Prop) (m : M A) :
  (forall e, P e -> Q e) -> emits P m -> emits Q m.
Proof. intros HPQ Hm s. eapply Forall_impl; [apply Hm|exact HPQ]. Qed.

(** An activation logs the pair it was called with, once, before
    anything else. *)
Lemma load_ext_activations name sqlfile s :
  activations (events (Load.load_ext name sqlfile s)) = [(name, sqlfile)].
Proof.
  unfold Load.load_ext. rewrite events_bind. unfold activations.
  rewrite omap_app. cbn [logger emit events result final fst snd omap
    list_omap activation_of].
  rewrite omap_emits; [done|].
  eapply emits_impl; [apply activation_event_no_activation|].
  apply emits_load_ext_tail.
Qed.

Lemma unload_ext_activations name sqlfile s :
  activations (events (Unload.load_ext name sqlfile s)) = [(name, sqlfile)].
Proof.
  unfold Unload.load_ext. rewrite events_bind. unfold activations.
  rewrite omap_app. cbn [logger emit events result final fst snd omap
    list_omap activation_of].
  rewrite omap_emits; [done|].
  eapply emits_impl; [apply activation_event_no_activation|].
  apply emits_unload_ext_tail.
Qed.

End Activations.

(** ** Load, Unload: the order of the activations *)

Section Order.
Context {Wd : World}.

Lemma get_meta_events spec s : events (get_meta spec s) = [].
Proof.
  unfold get_meta. by destruct (sys_get_meta spec (world s) (fs s)) as [w [e|a]].
Qed.

(** A loop whose body logs the pair it is called with has logged the
    pairs of the whole list when it returns, and when it raises, the
    pairs up to the one whose activation raised. *)
Lemma for_each_activations (body : string * Provided -> M unit) l s :
  (forall name data s,
     activations (events (body (name, data) s)) = [(name, file data)]) ->
  let x := for_each l body s in
  match result x with
  | Ok _ => activations (events x) = pairs l
  | Raise e =>
      exists done item todo,
        l = done ++ item :: todo
        /\ activations (events x) = pairs (done ++ [item])
  end.
Proof.
  intros Hbody. revert s. induction l as [|[name data] l IH]; intros s.
  - reflexivity.
  - cbn [for_each]. cbv zeta. rewrite result_bind, events_bind.
    unfold activations. rewrite omap_app.
    fold (activations (events (body (name, data) s))). rewrite Hbody.
    destruct (result (body (name, data) s)) as [[]|e].
    + specialize (IH (final (body (name, data) s))). cbv zeta in IH.
      destruct (result (for_each l body _)) as [[]|e].
      * unfold activations in IH. by rewrite IH.
      * destruct IH as (done & item & todo & -> & IH).
        exists ((name, data) :: done), item, todo.
        unfold activations in IH. by rewrite IH.
    + by exists [], (name, data), l.
Qed.

Lemma for_each_activations_prefix (body : string * Provided -> M unit) l s :
  (forall name data s,
     activations (events (body (name, data) s)) = [(name, file data)]) ->
  let x := for_each l body s in
  activations (events x) `prefix_of` pairs l
  /\ (result x = Ok tt -> activations (events x) = pairs l).
Proof.
  intros Hbody x. pose proof (for_each_activations body l s Hbody) as Hx.
  cbv zeta in Hx. fold x in Hx. destruct (result x) as [[]|e].
  - by rewrite Hx.
  - destruct Hx as (done & item & todo & -> & ->). split; [|done].
    unfold pairs. rewrite !fmap_app. apply prefix_app. cbn.
    by eexists.
Qed.

Lemma load_run_loop opts s dist :
  result (get_meta (opt_spec opts) s) = Ok dist ->
  Load.run opts s
  = for_each (provides dist)
      (fun '(name, data) => Load.load_ext name (file data))
      (final (get_meta (opt_spec opts) s)).
Proof.
  intros Hmeta. unfold Load.run.
  rewrite (bind_ok _ _ s dist (final (get_meta (opt_spec opts) s)) []).
  - symmetry. apply run_eta.
  - rewrite (run_eta (get_meta _ _)). by rewrite Hmeta, get_meta_events.
Qed.

Lemma unload_run_loop opts s dist :
  result (get_meta (opt_spec opts) s) = Ok dist ->
  Unload.run opts s
  = for_each (reverse (provides dist))
      (fun '(name, data) => Unload.load_ext name (file data))
      (final (get_meta (opt_spec opts) s)).
Proof.
  intros Hmeta. unfold Unload.run.
  rewrite (bind_ok _ _ s dist (final (get_meta (opt_spec opts) s)) []).
  - symmetry. apply run_eta.
  - rewrite (run_eta (get_meta _ _)). by rewrite Hmeta, get_meta_events.
Qed.

(** The loop of a run over the items of [provides] is the batch of the
    spec over the pairs of these items. *)
Lemma for_each_process (activate : string -> option string -> M unit)
    (l : list (string * Provided)) s :
  for_each l (fun '(name, data) => activate name (file data)) s
  = process activate (pairs l) s.
Proof.
  revert s. induction l as [|[name data] l IH]; intros s; [done|].
  cbn [for_each pairs fmap list_fmap process]. apply bind_ext.
  intros [] s1. apply IH.
Qed.

(** A batch that fails has processed the pairs before one of its pairs,
    each with success, and has failed on that one; nothing follows. *)
Lemma process_stops (activate : string -> option string -> M unit) Q s e :
  result (process activate Q s) = Raise e ->
  exists done name sqlfile todo,
    Q = done ++ (name, sqlfile) :: todo
    /\ result (process activate done s) = Ok tt
    /\ let s1 := final (process activate done s) in
       result (activate name sqlfile s1) = Raise e
       /\ final (process activate Q s) = final (activate name sqlfile s1)
       /\ events (process activate Q s)
          = events (process activate done s) ++ events (activate name sqlfile s1).
Proof.
  revert s. induction Q as [|[name sqlfile] Q IH]; intros s; [discriminate|].
  cbn [process]. rewrite result_bind, final_bind, events_bind.
  destruct (result (activate name sqlfile s)) as [[]|e'] eqn:Hact.
  - intros Hrest.
    destruct (IH _ Hrest) as (done & n & f & todo & -> & Hdone & Hn & Hf & Hev).
    exists ((name, sqlfile) :: done), n, f, todo. split; [done|].
    cbn [process]. rewrite result_bind, final_bind, events_bind, Hact.
    split; [exact Hdone|]. cbv zeta. split; [exact Hn|]. split; [exact Hf|].
    by rewrite Hev, app_assoc.
  - intros [= ->]. exists [], name, sqlfile, Q. split; [done|].
    split; [done|]. cbn [process ret result final events fst snd app].
    by rewrite app_nil_r.
Qed.

(** What a batch has activated, when each activation logs its pair
    first. *)
Lemma process_activations (activate : string -> option string -> M unit) :
  (forall name sqlfile s,
     activations (events (activate name sqlfile s)) = [(name, sqlfile)]) ->
  forall Q s,
    activations (events (process activate Q s)) `prefix_of` Q
    /\ (result (process activate Q s) = Ok tt ->
        activations (events (process activate Q s)) = Q)
    /\ (forall e, result (process activate Q s) = Raise e ->
        exists done name sqlfile todo,
          Q = done ++ (name, sqlfile) :: todo
          /\ result (process activate done s) = Ok tt
          /\ result (activate name sqlfile
                       (final (process activate done s))) = Raise e
          /\ activations (events (process activate Q s))
             = done ++ [(name, sqlfile)]).
Proof.
  intros Hfirst.
  assert (Hok : forall Q s, result (process activate Q s) = Ok tt ->
                  activations (events (process activate Q s)) = Q).
  { induction Q as [|[name sqlfile] Q IH]; intros s1; [done|].
    cbn [process]. rewrite result_bind, events_bind.
    unfold activations. rewrite omap_app.
    fold (activations (events (activate name sqlfile s1))). rewrite Hfirst.
    destruct (result (activate name sqlfile s1)) as [[]|e]; [|discriminate].
    intros Hrest. cbn [app]. f_equal. by apply IH. }
  assert (Hraise : forall Q s e, result (process activate Q s) = Raise e ->
            exists done name sqlfile todo,
              Q = done ++ (name, sqlfile) :: todo
              /\ result (process activate done s) = Ok tt
              /\ result (activate name sqlfile
                           (final (process activate done s))) = Raise e
              /\ activations (events (process activate Q s))
                 = done ++ [(name, sqlfile)]).
  { intros Q s1 e He.
    destruct (process_stops activate Q s1 e He)
      as (done & name & sqlfile & todo & HQ & Hdone & Hn & _ & Hev).
    exists done, name, sqlfile, todo. split; [exact HQ|].
    split; [exact Hdone|]. split; [exact Hn|].
    rewrite Hev. unfold activations. rewrite omap_app.
    fold (activations (events (process activate done s1))).
    fold (activations (events (activate name sqlfile
                                 (final (process activate done s1))))).
    by rewrite (Hok _ _ Hdone), Hfirst. }
  intros Q s1. split; [|split; [apply Hok|apply Hraise]].
  destruct (result (process activate Q s1)) as [[]|e] eqn:Hr.
  - by rewrite (Hok _ _ Hr).
  - destruct (Hraise _ _ _ Hr) as (done & name & sqlfile & todo & -> & _ & _ & ->).
    exists todo. by rewrite <- app_assoc.
Qed.

(** C2, as the code has it.  With [O] the pairs of an object name and its
    file in the order of [provides]: [Load.run] is the batch that
    processes [O] with [Load.load_ext], in this order, and [Unload.run]
    is the batch that processes [reverse O] with [Unload.load_ext].  A run
    that returns has processed every pair.  An activation that raises ends
    the run: the pairs before it have been processed with success, and the
    pairs after it are not processed, so that what a run has activated is
    an initial segment of the sequence. *)
Theorem load_unload_order opts s dist :
  result (get_meta (opt_spec opts) s) = Ok dist ->
  let O := pairs (provides dist) in
  let s0 := final (get_meta (opt_spec opts) s) in
  let l := Load.run opts s in
  let u := Unload.run opts s in
  (l = process Load.load_ext O s0
   /\ activations (events l) `prefix_of` O
   /\ (result l = Ok tt -> activations (events l) = O)
   /\ (forall e, result l = Raise e ->
       exists done name sqlfile todo,
         O = done ++ (name, sqlfile) :: todo
         /\ result (process Load.load_ext done s0) = Ok tt
         /\ result (Load.load_ext name sqlfile
                      (final (process Load.load_ext done s0))) = Raise e
         /\ activations (events l) = done ++ [(name, sqlfile)]))
  /\
  (u = process Unload.load_ext (reverse O) s0
   /\ activations (events u) `prefix_of` reverse O
   /\ (result u = Ok tt -> activations (events u) = reverse O)
   /\ (forall e, result u = Raise e ->
       exists done name sqlfile todo,
         reverse O = done ++ (name, sqlfile) :: todo
         /\ result (process Unload.load_ext done s0) = Ok tt
         /\ result (Unload.load_ext name sqlfile
                      (final (process Unload.load_ext done s0))) = Raise e
         /\ activations (events u) = done ++ [(name, sqlfile)])).
Proof.
  intros Hmeta O s0 l u.
  assert (Hl : l = process Load.load_ext O s0).
  { subst l. rewrite (load_run_loop _ _ _ Hmeta). apply for_each_process. }
  assert (Hu : u = process Unload.load_ext (reverse O) s0).
  { subst u. rewrite (unload_run_loop _ _ _ Hmeta).
    subst O. unfold pairs. rewrite <- fmap_reverse. apply for_each_process. }
  split.
  - split; [exact Hl|]. rewrite Hl.
    apply process_activations. intros name sqlfile s1.
    apply load_ext_activations.
  - split; [exact Hu|]. rewrite Hu.
    apply process_activations. intros name sqlfile s1.
    apply unload_ext_activations.
Qed.

End Order.

(** C2 on the two objects of [foobar], on a server where their scripts are
    installed. *)
Lemma load_unload_order_witness :
  activations (events (Load.run (Wd := Sample.quiet) Sample.remote
                         Sample.installed))
  = [("foo", None); ("bar", Some "bar.sql")]
  /\ activations (events (Unload.run (Wd := Sample.quiet) Sample.remote
                            Sample.installed))
     = [("bar", Some "bar.sql"); ("foo", None)].
Proof.
  destruct (load_unload_order (Wd := Sample.quiet) Sample.remote
              Sample.installed Sample.foobar eq_refl)
    as [(_ & _ & Hl & _) (_ & _ & Hu & _)].
  split; [exact (Hl eq_refl)|exact (Hu eq_refl)].
Defined.

(** C2 fails for a run that is cut short: [foobar] provides [foo], then
    [bar]; in the world where the user answers no, the load of [foo] ends
    the run, and the pair of [bar] is not processed. *)
Lemma load_stops_at_a_failure :
  let x := Load.run (Wd := Sample.refusing) Sample.remote
             Sample.installed_refusing in
  result (get_meta (Wd := Sample.refusing) (opt_spec Sample.remote)
            Sample.installed_refusing) = Ok Sample.foobar
  /\ pairs (provides Sample.foobar) = [("foo", None); ("bar", Some "bar.sql")]
  /\ activations (events x) = [("foo", None)]
  /\ piped (events x) = [] /\ executed (events x) = [].
Proof. cbv zeta. repeat split; reflexivity. Qed.

(** ** Load, Unload: when the user declines *)

Section Decline.
Context {Wd : World}.
Import LoadUnload.

Lemma decline_aborts_emits {A} (m : M A) :
  emits not_declined m -> decline_aborts m.
Proof.
  intros Hm s [prompt Hp]. specialize (Hm s).
  rewrite Forall_forall in Hm. by destruct (Hm _ Hp prompt).
Qed.

Lemma decline_aborts_confirm prompt : decline_aborts (confirm prompt).
Proof.
  intros s [p Hp]. revert Hp. unfold confirm.
  destruct (sys_answer prompt (world s)) as [w []]; cbn;
    [|done]. by intros [=]%list_elem_of_singleton.
Qed.

Lemma decline_aborts_bind {A B} (m : M A) (k : A -> M B) :
  decline_aborts m -> (forall a, decline_aborts (k a)) ->
  decline_aborts (bind m k).
Proof.
  intros Hm Hk s [p Hp]. rewrite events_bind in Hp. rewrite result_bind.
  apply elem_of_app in Hp as [Hp|Hp].
  - by rewrite Hm by (by exists p).
  - destruct (result (m s)) as [a|e]; [|by apply elem_of_nil in Hp].
    apply Hk. by exists p.
Qed.

Lemma decline_aborts_for_each {A} (l : list A) (body : A -> M unit) :
  (forall a, decline_aborts (body a)) -> decline_aborts (for_each l body).
Proof.
  intros Hb. induction l as [|a l IH]; cbn [for_each].
  - apply decline_aborts_emits, emits_ret.
  - apply decline_aborts_bind; [apply Hb|intros _; apply IH].
Qed.

End Decline.

(** Splits [decline_aborts m] along the structure of [m]: the parts that
    ask nothing cannot be declined. *)
Ltac decline_tac :=
  repeat first
    [ apply decline_aborts_confirm
    | apply decline_aborts_emits;
      first [ apply emits_get_pg_version; [intros ?|intros ?|intros ? ? ?]
            | apply emits_is_extension; intros ?
            | apply emits_find_sql_file; intros ?
            | apply emits_load_sql_file; intros ? ? ?
            | apply emits_create_extension; intros ? ? ? ?
            | apply emits_drop_extension; intros ? ? ? ?
            | apply emits_ret
            | apply emits_logger
            | apply emits_is_loaded
            | apply emits_register_loaded ];
      intros ?; discriminate
    | apply decline_aborts_bind; [|intros ?]
    | match goal with
      | |- decline_aborts (if ?b then _ else _) => destruct b
      | |- decline_aborts (let '(_, _) := ?x in _) => destruct x
      | |- decline_aborts (let _ := _ in _) => cbv zeta
      end ].

Section DeclineBatch.
Context {Wd : World}.

Lemma load_ext_decline name sqlfile : decline_aborts (Load.load_ext name sqlfile).
Proof. unfold Load.load_ext. decline_tac. Qed.

Lemma unload_ext_decline name sqlfile :
  decline_aborts (Unload.load_ext name sqlfile).
Proof. unfold Unload.load_ext. decline_tac. Qed.

Lemma decline_aborts_process (activate : string -> option string -> M unit) Q :
  (forall name sqlfile, decline_aborts (activate name sqlfile)) ->
  decline_aborts (process activate Q).
Proof.
  intros Hb. induction Q as [|[name sqlfile] Q IH]; cbn [process].
  - apply decline_aborts_emits, emits_ret.
  - apply decline_aborts_bind; [apply Hb|intros _; apply IH].
Qed.

(** A batch in which the user has declined: the pairs before one pair
    have been processed with success and without a refusal, the
    activation of that pair has been declined and has raised the
    cancellation, and nothing follows. *)
Lemma process_declined (activate : string -> option string -> M unit) Q s :
  (forall name sqlfile, decline_aborts (activate name sqlfile)) ->
  (forall name sqlfile s,
     activations (events (activate name sqlfile s)) = [(name, sqlfile)]) ->
  let x := process activate Q s in
  declined (events x) ->
  result x = Raise UserAbort
  /\ exists done name sqlfile todo,
       Q = done ++ (name, sqlfile) :: todo
       /\ result (process activate done s) = Ok tt
       /\ let s1 := final (process activate done s) in
          result (activate name sqlfile s1) = Raise UserAbort
          /\ declined (events (activate name sqlfile s1))
          /\ events x
             = events (process activate done s)
               ++ events (activate name sqlfile s1)
          /\ activations (events x) = done ++ [(name, sqlfile)].
Proof.
  intros Hb Hfirst x Hd.
  assert (Hr : result x = Raise UserAbort).
  { by apply (decline_aborts_process activate Q Hb). }
  split; [exact Hr|].
  destruct (process_stops activate Q s UserAbort Hr)
    as (done & name & sqlfile & todo & HQ & Hdone & Hn & _ & Hev).
  exists done, name, sqlfile, todo. split; [exact HQ|].
  split; [exact Hdone|]. cbv zeta. split; [exact Hn|].
  split; [|split; [exact Hev|]].
  - destruct Hd as [prompt Hp]. fold x in Hev. rewrite Hev in Hp.
    apply elem_of_app in Hp as [Hp|Hp]; [|by exists prompt].
    pose proof (decline_aborts_process activate done Hb s
                  (ex_intro _ prompt Hp)) as Habs.
    rewrite Hdone in Habs. discriminate.
  - destruct (process_activations activate Hfirst Q s) as (_ & _ & Hraise).
    destruct (Hraise _ Hr) as (done' & n' & f' & todo' & HQ' & _ & _ & Hact).
    fold x in Hev. rewrite Hev.
    unfold activations. rewrite omap_app.
    fold (activations (events (process activate done s))).
    fold (activations (events (activate name sqlfile
                                 (final (process activate done s))))).
    destruct (process_activations activate Hfirst done s) as (_ & Hok & _).
    by rewrite (Hok Hdone), Hfirst.
Qed.

(** C8, as the code has it.  [Load.run] and [Unload.run], the callers of
    [load_ext], have no handler for the cancellation: when the user
    declines a question during a load or an unload, the activation of the
    object is left with the user-cancellation outcome and so is the whole
    run.  With the objects taken in the order of the run, which is the
    order of [provides] for a load and the reverse of it for an unload:
    the objects before the one that was declined have been processed with
    success, the events of the run are theirs followed by those of the
    declined activation, and the objects after it are not processed. *)
Theorem decline_ends_the_run opts s dist :
  result (get_meta (opt_spec opts) s) = Ok dist ->
  let O := pairs (provides dist) in
  let s0 := final (get_meta (opt_spec opts) s) in
  let l := Load.run opts s in
  let u := Unload.run opts s in
  (declined (events l) ->
     result l = Raise UserAbort
     /\ exists done name sqlfile todo,
          O = done ++ (name, sqlfile) :: todo
          /\ result (process Load.load_ext done s0) = Ok tt
          /\ let s1 := final (process Load.load_ext done s0) in
             result (Load.load_ext name sqlfile s1) = Raise UserAbort
             /\ declined (events (Load.load_ext name sqlfile s1))
             /\ events l
                = events (process Load.load_ext done s0)
                  ++ events (Load.load_ext name sqlfile s1)
             /\ activations (events l) = done ++ [(name, sqlfile)])
  /\
  (declined (events u) ->
     result u = Raise UserAbort
     /\ exists done name sqlfile todo,
          reverse O = done ++ (name, sqlfile) :: todo
          /\ result (process Unload.load_ext done s0) = Ok tt
          /\ let s1 := final (process Unload.load_ext done s0) in
             result (Unload.load_ext name sqlfile s1) = Raise UserAbort
             /\ declined (events (Unload.load_ext name sqlfile s1))
             /\ events u
                = events (process Unload.load_ext done s0)
                  ++ events (Unload.load_ext name sqlfile s1)
             /\ activations (events u) = done ++ [(name, sqlfile)]).
Proof.
  intros Hmeta O s0 l u.
  assert (Hl : l = process Load.load_ext O s0).
  { subst l. rewrite (load_run_loop _ _ _ Hmeta). apply for_each_process. }
  assert (Hu : u = process Unload.load_ext (reverse O) s0).
  { subst u. rewrite (unload_run_loop _ _ _ Hmeta).
    subst O. unfold pairs. rewrite <- fmap_reverse. apply for_each_process. }
  rewrite Hl, Hu. split.
  - apply process_declined.
    + apply load_ext_decline.
    + intros name sqlfile s1. apply load_ext_activations.
  - apply process_declined.
    + apply unload_ext_decline.
    + intros name sqlfile s1. apply unload_ext_activations.
Qed.

End DeclineBatch.

(** C8 fails: [foobar] provides [foo], then [bar]; the user declines the
    question asked for [foo]; the run ends with the user-cancellation
    outcome and [bar] is not activated. *)
Lemma decline_skips_the_rest :
  let x := Load.run (Wd := Sample.refusing) Sample.remote
             Sample.installed_refusing in
  pairs (provides Sample.foobar) = [("foo", None); ("bar", Some "bar.sql")]
  /\ EvConfirm (LooseObjects "foo") false ∈ events x
  /\ result x = Raise UserAbort
  /\ ("bar", Some "bar.sql") ∉ activations (events x).
Proof.
  cbv zeta. split; [reflexivity|].
  assert (events (Load.run (Wd := Sample.refusing) Sample.remote
                    Sample.installed_refusing)
          = [EvLog Debug (LoadingExtension "foo" None);
             EvLog Debug (Calling ["/bin/psql"; "-tA"; "-c"; "SELECT version();"]);
             EvPopen {| argv := ["/bin/psql"; "-tA"; "-c"; "SELECT version();"];
                        cwd := None; penv := None; stdin := StdinInherit |} 0;
             EvLog Debug (PostgresVersion (9, 2, 0)%N);
             EvLog Debug (CheckingIfExists "/share/extension/foo.control");
             EvConfirm (LooseObjects "foo") false]) as -> by reflexivity.
  split; [|split].
  - set_solver.
  - reflexivity.
  - cbn. by intros [=]%list_elem_of_singleton.
Qed.

(** C8 in the world where the user declines: the run ends with the
    user-cancellation outcome after the activation of [foo]. *)
Lemma decline_ends_the_run_witness :
  (result (Load.run (Wd := Sample.refusing) Sample.remote
             Sample.installed_refusing) = Raise UserAbort
   /\ exists done name sqlfile todo,
        pairs (provides Sample.foobar) = done ++ (name, sqlfile) :: todo
        /\ activations (events (Load.run (Wd := Sample.refusing) Sample.remote
                                   Sample.installed_refusing))
           = done ++ [(name, sqlfile)])
  /\
  (result (Unload.run (Wd := Sample.refusing) Sample.remote
             Sample.installed_refusing) = Raise UserAbort
   /\ exists done name sqlfile todo,
        reverse (pairs (provides Sample.foobar))
        = done ++ (name, sqlfile) :: todo
        /\ activations (events (Unload.run (Wd := Sample.refusing)
                                   Sample.remote Sample.installed_refusing))
           = done ++ [(name, sqlfile)]).
Proof.
  destruct (decline_ends_the_run (Wd := Sample.refusing) Sample.remote
              Sample.installed_refusing Sample.foobar eq_refl) as [Hl Hu].
  cbv zeta in Hl, Hu. split.
  - destruct Hl as (Hr & done & name & sqlfile & todo & HO & _ & _ & _ & _ & Ha).
    { exists (LooseObjects "foo"). apply list_elem_of_In. vm_compute.
      do 5 right. left. reflexivity. }
    split; [exact Hr|]. by exists done, name, sqlfile, todo.
  - destruct Hu as (Hr & done & name & sqlfile & todo & HO & _ & _ & _ & _ & Ha).
    { exists (LookForScript "bar"). apply list_elem_of_In. vm_compute.
      do 5 right. left. reflexivity. }
    split; [exact Hr|]. by exists done, name, sqlfile, todo.
Defined.

(** ** Load, Unload: the version of the server *)

Section Gating.
Context {Wd : World}.
Import LoadUnload.

Lemma bind_logger {A} lvl msg (k : unit -> M A) s :
  bind (logger lvl msg) k s
  = (result (k tt s), final (k tt s), EvLog lvl msg :: events (k tt s)).
Proof. unfold bind, logger, emit. by destruct (k tt s) as [[r s2] ev2]. Qed.

Lemma is_extension_run name s :
  is_extension name s
  = (Ok (bool_decide (is_Some (fs s !! Path.join3 (call_pg_config "sharedir")
                                        "extension" (name +:+ ".control")))),
     s,
     [EvLog Debug (CheckingIfExists
                     (Path.join3 (call_pg_config "sharedir") "extension"
                                 (name +:+ ".control")))]).
Proof. reflexivity. Qed.

(** Below 9.1.0 no command is piped to a child process. *)
Lemma load_ext_below name sqlfile s v :
  result (get_pg_version s) = Ok v ->
  Version.ge v (9, 1, 0)%N = false ->
  piped (events (Load.load_ext name sqlfile s)) = [].
Proof.
  intros Hv Hge. unfold Load.load_ext. rewrite bind_logger. cbn [events snd].
  unfold piped. cbn [omap list_omap piped_of].
  destruct (given sqlfile && negb (Str.endswith (default "" sqlfile) ".sql")).
  { reflexivity. }
  rewrite events_bind, omap_app, Hv, Hge.
  rewrite (omap_emits piped_of get_pg_version)
    by (apply emits_get_pg_version; [done|done|];
        intros call rc Hin; cbn; by rewrite Hin).
  apply omap_emits.
  emits_activation; try done.
  match goal with Hin : stdin _ = _ |- _ => cbn; by rewrite Hin end.
Qed.

Lemma unload_ext_below name sqlfile s v :
  result (get_pg_version s) = Ok v ->
  Version.ge v (9, 1, 0)%N = false ->
  piped (events (Unload.load_ext name sqlfile s)) = [].
Proof.
  intros Hv Hge. unfold Unload.load_ext. rewrite bind_logger. cbn [events snd].
  unfold piped. cbn [omap list_omap piped_of].
  destruct (given sqlfile && negb (Str.endswith (default "" sqlfile) ".sql")).
  { reflexivity. }
  rewrite events_bind, omap_app, Hv, Hge.
  rewrite (omap_emits piped_of get_pg_version)
    by (apply emits_get_pg_version; [done|done|];
        intros call rc Hin; cbn; by rewrite Hin).
  apply omap_emits.
  emits_activation; try done.
  match goal with Hin : stdin _ = _ |- _ => cbn; by rewrite Hin end.
Qed.

(** From 9.1.0 on, for an object with a control file, past the test of
    the file name: the activation is the native one. *)
Lemma load_ext_native name sqlfile s v :
  let control := Path.join3 (call_pg_config "sharedir") "extension"
                            (name +:+ ".control") in
  let sv := final (get_pg_version s) in
  let c := Load.create_extension name sv in
  result (get_pg_version s) = Ok v ->
  Version.ge v (9, 1, 0)%N = true ->
  is_Some (fs sv !! control) ->
  given sqlfile && negb (Str.endswith (default "" sqlfile) ".sql") = false ->
  Load.load_ext name sqlfile s
  = (result c, final c,
     EvLog Debug (LoadingExtension name sqlfile)
     :: events (get_pg_version s)
     ++ EvLog Debug (CheckingIfExists control) :: events c).
Proof.
  intros control sv c Hv Hge Hctl Hguard. subst c sv.
  unfold Load.load_ext. rewrite bind_logger, Hguard.
  destruct (get_pg_version s) as [[r sv] evv] eqn:Hg.
  cbn [result final events fst snd] in *. subst r.
  unfold bind. rewrite Hg, Hge, is_extension_run.
  fold control. rewrite bool_decide_eq_true_2 by done.
  destruct (Load.create_extension name sv) as [[[[]|e] s2] ev2];
    cbn; by rewrite ?app_nil_r.
Qed.

Lemma unload_ext_native name sqlfile s v :
  let control := Path.join3 (call_pg_config "sharedir") "extension"
                            (name +:+ ".control") in
  let sv := final (get_pg_version s) in
  let c := Unload.drop_extension name sv in
  result (get_pg_version s) = Ok v ->
  Version.ge v (9, 1, 0)%N = true ->
  is_Some (fs sv !! control) ->
  given sqlfile && negb (Str.endswith (default "" sqlfile) ".sql") = false ->
  Unload.load_ext name sqlfile s
  = (result c, final c,
     EvLog Debug (UnloadingExtension name sqlfile)
     :: events (get_pg_version s)
     ++ EvLog Debug (CheckingIfExists control) :: events c).
Proof.
  intros control sv c Hv Hge Hctl Hguard. subst c sv.
  unfold Unload.load_ext. rewrite bind_logger, Hguard.
  destruct (get_pg_version s) as [[r sv] evv] eqn:Hg.
  cbn [result final events fst snd] in *. subst r.
  unfold bind. rewrite Hg, Hge, is_extension_run.
  fold control. rewrite bool_decide_eq_true_2 by done.
  destruct (Unload.drop_extension name sv) as [[[[]|e] s2] ev2];
    cbn; by rewrite ?app_nil_r.
Qed.

(** The native commands: the command piped to [psql] when [Label] accepts
    the name, and nothing else that belongs to the loading of a file. *)
Lemma create_extension_piped name label s :
  Label name = inr label ->
  piped (events (Load.create_extension name s))
  = ["CREATE EXTENSION " +:+ label +:+ ";"].
Proof.
  intros Hl. unfold Load.create_extension. rewrite Hl. cbn [lift_either].
  rewrite bind_ret_l. unfold load_sql.
  change (given (Some ("CREATE EXTENSION " +:+ label +:+ ";"))) with true.
  cbn [negb]. unfold bind, popen.
  destruct (sys_popen _ (world s) (fs s)) as [[[w f] rc] out].
  by destruct (negb (rc =? 0)%Z).
Qed.

Lemma drop_extension_piped name label s :
  Label name = inr label ->
  piped (events (Unload.drop_extension name s))
  = ["DROP EXTENSION " +:+ label +:+ ";"].
Proof.
  intros Hl. unfold Unload.drop_extension. rewrite Hl. cbn [lift_either].
  rewrite bind_ret_l. unfold load_sql.
  change (given (Some ("DROP EXTENSION " +:+ label +:+ ";"))) with true.
  cbn [negb]. unfold bind, popen.
  destruct (sys_popen _ (world s) (fs s)) as [[[w f] rc] out].
  by destruct (negb (rc =? 0)%Z).
Qed.

Lemma file_path_emits {A} (m : M A) s :
  emits (fun e => file_path_event e = false) m ->
  file_path (events (m s)) = [].
Proof.
  intros Hm. specialize (Hm s). unfold file_path.
  induction Hm as [|e l He _ IH]; [done|].
  rewrite filter_cons_False; [done|]. by rewrite He.
Qed.

Lemma get_pg_version_file_path s : file_path (events (get_pg_version s)) = [].
Proof.
  apply file_path_emits. apply emits_get_pg_version; [done|done|].
  intros call rc Hin. unfold file_path_event. cbn. by rewrite Hin.
Qed.

Lemma create_extension_file_path name s :
  file_path (events (Load.create_extension name s)) = [].
Proof.
  apply file_path_emits. apply emits_create_extension.
  intros call rc data Hin. unfold file_path_event. cbn. by rewrite Hin.
Qed.

Lemma drop_extension_file_path name s :
  file_path (events (Unload.drop_extension name s)) = [].
Proof.
  apply file_path_emits. apply emits_drop_extension.
  intros call rc data Hin. unfold file_path_event. cbn. by rewrite Hin.
Qed.

Lemma get_pg_version_piped s : piped (events (get_pg_version s)) = [].
Proof.
  apply omap_emits. apply emits_get_pg_version; [done|done|].
  intros call rc Hin. cbn. by rewrite Hin.
Qed.

(** C3, as the code has it.  For an activation on a server whose version
    is [v]: when [v] is below 9.1.0, no command is piped to [psql], so
    neither [CREATE EXTENSION] nor [DROP EXTENSION] is executed, whether
    the object has a control file or not; when [v] is 9.1.0 or above, the
    object has a control file and the file name given for it is absent,
    empty or ends in [.sql], the activation is the native one:
    [create_extension] for a load, [drop_extension] for an unload, which
    pipe [CREATE EXTENSION <name>;] or [DROP EXTENSION <name>;] to [psql]
    for a name that [Label] accepts, and no script is looked for, no
    question is asked and no file is executed.  Whatever the server: an
    activation with a file name that is not empty and does not end in
    [.sql] logs that the object is skipped and returns, in the state it
    started in; the version is not asked for and nothing is run. *)
Theorem version_gating name sqlfile s v :
  let control := Path.join3 (call_pg_config "sharedir") "extension"
                            (name +:+ ".control") in
  let sv := final (get_pg_version s) in
  let l := Load.load_ext name sqlfile s in
  let u := Unload.load_ext name sqlfile s in
  let skip := given sqlfile
              && negb (Str.endswith (default "" sqlfile) ".sql") in
  (result (get_pg_version s) = Ok v ->
   (Version.ge v (9, 1, 0)%N = false ->
      piped (events l) = [] /\ piped (events u) = [])
   /\
   (Version.ge v (9, 1, 0)%N = true ->
    is_Some (fs sv !! control) ->
    skip = false ->
      (result l = result (Load.create_extension name sv)
       /\ file_path (events l) = []
       /\ forall label, Label name = inr label ->
            piped (events l) = ["CREATE EXTENSION " +:+ label +:+ ";"])
      /\
      (result u = result (Unload.drop_extension name sv)
       /\ file_path (events u) = []
       /\ forall label, Label name = inr label ->
            piped (events u) = ["DROP EXTENSION " +:+ label +:+ ";"])))
  /\
  (skip = true ->
     l = (Ok tt, s, [EvLog Debug (LoadingExtension name sqlfile);
                     EvLog Info (NotSql (default "" sqlfile) name)])
     /\ u = (Ok tt, s, [EvLog Debug (UnloadingExtension name sqlfile);
                        EvLog Info (NotSql (default "" sqlfile) name)]))
  /\
  (skip = true <->
   exists hint, sqlfile = Some hint /\ hint <> ""
                /\ Str.endswith hint ".sql" = false).
Proof.
  intros control sv l u skip. split; [|split].
  2:{ intros Hskip. subst l u skip.
      unfold Load.load_ext, Unload.load_ext. by rewrite Hskip. }
  2:{ subst skip. destruct sqlfile as [hint|]; cbn [given];
        [change (default "" (Some hint)) with hint|]; split.
      - intros [Hhint Hsql]%andb_prop. exists hint. split; [done|].
        split; [|by apply negb_true_iff].
        intros ->. discriminate.
      - intros (hint' & [= <-] & Hne & Hsql). rewrite Hsql.
        rewrite andb_true_r. unfold Str.truthy.
        by apply negb_true_iff, String.eqb_neq.
      - discriminate.
      - by intros (hint & [=] & _). }
  intros Hv. split.
  - intros Hge. split;
      [by apply (load_ext_below _ _ _ v)|by apply (unload_ext_below _ _ _ v)].
  - intros Hge Hctl Hguard. subst l u skip. split.
    + rewrite (load_ext_native _ _ _ _ Hv Hge Hctl Hguard).
      cbn [result final events fst snd]. fold sv. split; [done|]. split.
      * unfold file_path. rewrite filter_cons_False by (cbn; congruence).
        rewrite filter_app, filter_cons_False by (cbn; congruence).
        fold (file_path (events (get_pg_version s))).
        fold (file_path (events (Load.create_extension name sv))).
        by rewrite get_pg_version_file_path, create_extension_file_path.
      * intros label Hl. unfold piped. cbn [omap list_omap piped_of].
        rewrite omap_app. cbn [omap list_omap piped_of].
        fold (piped (events (get_pg_version s))).
        fold (piped (events (Load.create_extension name sv))).
        by rewrite get_pg_version_piped, (create_extension_piped _ _ _ Hl).
    + rewrite (unload_ext_native _ _ _ _ Hv Hge Hctl Hguard).
      cbn [result final events fst snd]. fold sv. split; [done|]. split.
      * unfold file_path. rewrite filter_cons_False by (cbn; congruence).
        rewrite filter_app, filter_cons_False by (cbn; congruence).
        fold (file_path (events (get_pg_version s))).
        fold (file_path (events (Unload.drop_extension name sv))).
        by rewrite get_pg_version_file_path, drop_extension_file_path.
      * intros label Hl. unfold piped. cbn [omap list_omap piped_of].
        rewrite omap_app. cbn [omap list_omap piped_of].
        fold (piped (events (get_pg_version s))).
        fold (piped (events (Unload.drop_extension name sv))).
        by rewrite get_pg_version_piped, (drop_extension_piped _ _ _ Hl).
Qed.

End Gating.

(** C3 fails for an object whose file name does not end in [.sql]: on a
    server of version 9.2.0 where [foo] has a control file, the activation
    of [foo] with the file [foo.so] pipes nothing to [psql]. *)
Lemma non_sql_file_skips_native :
  let s := Sample.with_control in
  let x := Load.load_ext (Wd := Sample.quiet) "foo" (Some "foo.so") s in
  result (LoadUnload.get_pg_version (Wd := Sample.quiet) s) = Ok (9, 2, 0)%N
  /\ Version.ge (9, 2, 0)%N (9, 1, 0)%N = true
  /\ is_Some (fs s !! "/share/extension/foo.control")
  /\ result x = Ok tt
  /\ "CREATE EXTENSION foo;" ∉ piped (events x).
Proof.
  cbv zeta. split; [reflexivity|]. split; [reflexivity|].
  split; [by exists []|]. split; [reflexivity|].
  assert (piped (events (Load.load_ext (Wd := Sample.quiet) "foo"
                           (Some "foo.so") Sample.with_control)) = [])
    as -> by reflexivity.
  apply not_elem_of_nil.
Qed.

(** C3 on a server of version 8.4.22 and on a server of version 9.2.0,
    for the object [foo], which has a control file on both. *)
Lemma version_gating_witness :
  (piped (events (Load.load_ext (Wd := Sample.old) "foo" None
                    Sample.with_control_old)) = []
   /\ piped (events (Unload.load_ext (Wd := Sample.old) "foo" None
                       Sample.with_control_old)) = [])
  /\
  (piped (events (Load.load_ext (Wd := Sample.quiet) "foo" (Some "foo.sql")
                    Sample.with_control)) = ["CREATE EXTENSION foo;"]
   /\ file_path (events (Load.load_ext (Wd := Sample.quiet) "foo"
                           (Some "foo.sql") Sample.with_control)) = []
   /\ piped (events (Unload.load_ext (Wd := Sample.quiet) "foo"
                       (Some "foo.sql") Sample.with_control))
      = ["DROP EXTENSION foo;"])
  /\
  (Unload.load_ext (Wd := Sample.quiet) "foo" (Some "foo.so")
     Sample.with_control
   = (Ok tt, Sample.with_control,
      [EvLog Debug (UnloadingExtension "foo" (Some "foo.so"));
       EvLog Info (NotSql "foo.so" "foo")])).
Proof.
  split; [|split].
  - exact (proj1 (proj1 (version_gating (Wd := Sample.old) "foo" None
                           Sample.with_control_old (8, 4, 22)%N) eq_refl)
             eq_refl).
  - destruct (proj2 (proj1 (version_gating (Wd := Sample.quiet) "foo"
                              (Some "foo.sql") Sample.with_control
                              (9, 2, 0)%N) eq_refl)
                eq_refl (ex_intro _ [] eq_refl) eq_refl)
      as [(_ & Hlf & Hlp) (_ & _ & Hup)].
    split; [exact (Hlp "foo" eq_refl)|].
    split; [exact Hlf|exact (Hup "foo" eq_refl)].
  - exact (proj2 (proj1 (proj2 (version_gating (Wd := Sample.quiet) "foo"
                                  (Some "foo.so") Sample.with_control
                                  (9, 2, 0)%N)) eq_refl)).
Defined.

(** ** Load, Unload: the files already loaded *)

Section Loaded.
Context {Wd : World}.
Import LoadUnload.

Lemma keeps_loaded_ret {A} (a : A) : keeps_loaded (ret a).
Proof. done. Qed.

Lemma keeps_loaded_raise {A} e : keeps_loaded (raise e : M A).
Proof. done. Qed.

Lemma keeps_loaded_bind {A B} (m : M A) (k : A -> M B) :
  keeps_loaded m -> (forall a, keeps_loaded (k a)) -> keeps_loaded (bind m k).
Proof.
  intros Hm Hk s. rewrite final_bind.
  destruct (result (m s)); [by rewrite Hk, Hm|apply Hm].
Qed.

Lemma keeps_loaded_lift_either {A} (r : Exn + A) : keeps_loaded (lift_either r).
Proof. by destruct r. Qed.

Lemma keeps_loaded_logger lvl msg : keeps_loaded (logger lvl msg).
Proof. done. Qed.

Lemma keeps_loaded_exists fn : keeps_loaded (exists_ fn).
Proof. done. Qed.

Lemma keeps_loaded_open fn : keeps_loaded (open fn).
Proof. intros s. unfold open. by destruct (fs s !! fn). Qed.

Lemma keeps_loaded_is_loaded fn : keeps_loaded (_is_loaded fn).
Proof. done. Qed.

Lemma keeps_loaded_popen call : keeps_loaded (popen call).
Proof.
  intros s. unfold popen.
  by destruct (sys_popen call (world s) (fs s)) as [[[w f] rc] out].
Qed.

Lemma keeps_loaded_confirm prompt : keeps_loaded (confirm prompt).
Proof.
  intros s. unfold confirm. by destruct (sys_answer prompt (world s)) as [w yes].
Qed.

Lemma keeps_loaded_get_meta spec : keeps_loaded (get_meta spec).
Proof.
  intros s. unfold get_meta.
  by destruct (sys_get_meta spec (world s) (fs s)) as [w [e|a]].
Qed.

End Loaded.

Ltac keeps_loaded_step :=
  first
    [ apply keeps_loaded_ret
    | apply keeps_loaded_raise
    | apply keeps_loaded_lift_either
    | apply keeps_loaded_logger
    | apply keeps_loaded_exists
    | apply keeps_loaded_open
    | apply keeps_loaded_is_loaded
    | apply keeps_loaded_popen
    | apply keeps_loaded_confirm
    | apply keeps_loaded_bind; [|intros ?]
    | match goal with
      | |- keeps_loaded (if ?b then _ else _) => destruct b
      | |- keeps_loaded (match ?x with _ => _ end) => destruct x
      | |- keeps_loaded (let '(_, _) := ?x in _) => destruct x
      | |- keeps_loaded (let _ := _ in _) => cbv zeta
      end ].

Section Locate.
Context {Wd : World}.
Import LoadUnload.

Lemma keeps_loaded_find_sql_file name sqlfile :
  keeps_loaded (find_sql_file name sqlfile).
Proof.
  intros s.
  by destruct (find_sql_file_run name sqlfile s) as (_ & _ & -> & _).
Qed.

Lemma keeps_loaded_get_pg_version : keeps_loaded get_pg_version.
Proof.
  unfold get_pg_version, call_psql, parse_pg_version.
  repeat keeps_loaded_step.
Qed.

Lemma keeps_loaded_load_sql filename data : keeps_loaded (load_sql filename data).
Proof. unfold load_sql. repeat keeps_loaded_step. Qed.

Lemma keeps_loaded_load_locate name sqlfile :
  keeps_loaded (Load_locate name sqlfile).
Proof.
  unfold Load_locate, is_extension, Load.create_extension.
  repeat first [ apply keeps_loaded_get_pg_version
               | apply keeps_loaded_find_sql_file
               | apply keeps_loaded_load_sql
               | keeps_loaded_step ].
Qed.

Lemma keeps_loaded_unload_ext name sqlfile :
  keeps_loaded (Unload.load_ext name sqlfile).
Proof.
  unfold Unload.load_ext, is_extension, Unload.drop_extension.
  repeat first [ apply keeps_loaded_get_pg_version
               | apply keeps_loaded_find_sql_file
               | apply keeps_loaded_load_sql
               | keeps_loaded_step ].
Qed.

(** [load_ext] is [Load_locate] followed by [Load_finish] on the file
    found. *)
Lemma bind_ret_tt (m : M unit) s : bind m (fun _ => ret tt) s = m s.
Proof.
  unfold bind, ret. destruct (m s) as [[[[]|e] s1] ev1]; [|reflexivity].
  by rewrite app_nil_r.
Qed.

Lemma load_ext_locate name sqlfile s :
  Load.load_ext name sqlfile s
  = bind (Load_locate name sqlfile)
      (fun found => match found with
                    | Some fn => Load_finish fn
                    | None => ret tt
                    end) s.
Proof.
  unfold Load.load_ext, Load_locate. rewrite bind_assoc.
  apply bind_ext. intros [] s1.
  destruct (given sqlfile && negb (Str.endswith (default "" sqlfile) ".sql")).
  { rewrite bind_assoc. symmetry.
    etransitivity;
      [apply (bind_ext _ _ (fun _ => ret tt)); intros a s0;
       exact (bind_ret_l None _ s0)|].
    apply bind_ret_tt. }
  rewrite bind_assoc. apply bind_ext. intros pgver s2.
  rewrite bind_assoc. apply bind_ext. intros [] s3.
  { by rewrite bind_ret_l. }
  cbv zeta. destruct (negb (given sqlfile)).
  all: rewrite bind_assoc; apply bind_ext; intros fn s4.
  all: rewrite bind_assoc; apply bind_ext; intros [] s5.
  all: by rewrite bind_ret_l.
Qed.

Lemma unload_ext_locate name sqlfile s :
  Unload.load_ext name sqlfile s
  = bind (Unload_locate name sqlfile)
      (fun found => match found with
                    | Some fn => Unload_finish name fn
                    | None => ret tt
                    end) s.
Proof.
  unfold Unload.load_ext, Unload_locate. rewrite bind_assoc.
  apply bind_ext. intros [] s1.
  destruct (given sqlfile && negb (Str.endswith (default "" sqlfile) ".sql")).
  { rewrite bind_assoc. symmetry.
    etransitivity;
      [apply (bind_ext _ _ (fun _ => ret tt)); intros a s0;
       exact (bind_ret_l None _ s0)|].
    apply bind_ret_tt. }
  rewrite bind_assoc. apply bind_ext. intros pgver s2.
  rewrite bind_assoc. apply bind_ext. intros [] s3.
  { by rewrite bind_ret_l. }
  cbv zeta. rewrite bind_assoc. apply bind_ext. intros fn s4.
  by rewrite bind_ret_l.
Qed.

End Locate.

Section Found.
Context {Wd : World}.
Import LoadUnload.

Lemma ensures_bind {A B} (Q : B -> State -> Prop) (m : M A) (k : A -> M B) :
  (forall a, ensures Q (k a)) -> ensures Q (bind m k).
Proof.
  intros Hk s b. rewrite result_bind, final_bind.
  destruct (result (m s)) as [a|e]; [apply Hk|discriminate].
Qed.

Lemma ensures_ret {A} (Q : A -> State -> Prop) (a : A) :
  (forall s, Q a s) -> ensures Q (ret a).
Proof. intros HQ s a' [= <-]. apply HQ. Qed.

Lemma find_sql_file_exists name sqlfile s fn :
  result (find_sql_file name sqlfile s) = Ok fn -> is_Some (fs s !! fn).
Proof.
  destruct (find_sql_file_run name sqlfile s) as (_ & -> & _ & _).
  destruct (first_existing _ _) as [fn'|] eqn:Hfe; [|discriminate].
  intros [= <-]. by apply first_existing_Some in Hfe as (? & ? & _ & ? & _).
Qed.

Lemma find_sql_file_final name sqlfile s :
  final (find_sql_file name sqlfile s) = s.
Proof.
  by destruct (find_sql_file_run name sqlfile s) as (_ & _ & -> & _).
Qed.

Lemma load_locate_tail_exists name sqlfile (confirm_ : bool) :
  ensures found_exists
    (fn ← find_sql_file name sqlfile;
     (if confirm_ then confirm (GuessedFile name fn) else ret tt);;
     ret (Some fn)).
Proof.
  intros s found. rewrite result_bind, final_bind.
  destruct (result (find_sql_file name sqlfile s)) as [fn|e] eqn:Hfn;
    [|discriminate].
  apply find_sql_file_exists in Hfn. rewrite find_sql_file_final.
  destruct confirm_.
  - unfold bind, confirm, ret.
    destruct (sys_answer _ (world s)) as [w []]; [|discriminate].
    by intros [= <-] fn' [= <-].
  - by intros [= <-] fn' [= <-].
Qed.

Lemma load_locate_exists name sqlfile :
  ensures found_exists (Load_locate name sqlfile).
Proof.
  unfold Load_locate. apply ensures_bind. intros _.
  destruct (given sqlfile && negb (Str.endswith (default "" sqlfile) ".sql")).
  { apply ensures_bind. intros _. by apply ensures_ret. }
  apply ensures_bind. intros pgver. apply ensures_bind. intros [].
  { by apply ensures_ret. }
  destruct (negb (given sqlfile));
    [apply (load_locate_tail_exists name _ true)
    |apply (load_locate_tail_exists name _ false)].
Qed.

Lemma unload_locate_exists name sqlfile :
  ensures found_exists (Unload_locate name sqlfile).
Proof.
  unfold Unload_locate. apply ensures_bind. intros _.
  destruct (given sqlfile && negb (Str.endswith (default "" sqlfile) ".sql")).
  { apply ensures_bind. intros _. by apply ensures_ret. }
  apply ensures_bind. intros pgver. apply ensures_bind. intros [].
  { by apply ensures_ret. }
  cbv zeta. intros s found. rewrite result_bind, final_bind.
  destruct (result (find_sql_file name _ s)) as [fn|e] eqn:Hfn; [|discriminate].
  apply find_sql_file_exists in Hfn. rewrite find_sql_file_final.
  by intros [= <-] fn' [= <-].
Qed.

Lemma emits_load_locate name sqlfile :
  emits not_finish (Load_locate name sqlfile).
Proof.
  unfold Load_locate. emits_activation; try done.
  split; [|done]. cbn. match goal with Hin : stdin _ = _ |- _ => by rewrite Hin end.
  split; [|done]. cbn. match goal with Hin : stdin _ = _ |- _ => by rewrite Hin end.
Qed.

Lemma emits_unload_locate name sqlfile :
  emits not_finish (Unload_locate name sqlfile).
Proof.
  unfold Unload_locate. emits_activation; try done.
  split; [|done]. cbn. match goal with Hin : stdin _ = _ |- _ => by rewrite Hin end.
  split; [|done]. cbn. match goal with Hin : stdin _ = _ |- _ => by rewrite Hin end.
Qed.

Lemma locate_executed {A} (m : M A) s :
  emits not_finish m -> executed (events (m s)) = [] /\ skipped (events (m s)) = [].
Proof.
  intros Hm. split; apply omap_emits; eapply emits_impl; try exact Hm;
    by intros e [? ?].
Qed.

(** The end of a load.  A file already loaded is reported and not
    executed; a file not yet loaded, which exists, is given to [psql], and
    registered when [psql] exits with [0]. *)
Lemma load_finish_loaded fn s :
  fn ∈ loaded_files s ->
  Load_finish fn s = (Ok tt, s, [EvLog Info (AlreadyLoaded fn)]).
Proof.
  intros Hin. unfold Load_finish, bind, _is_loaded, loaded_files in *.
  destruct (_loaded s) as [l|]; [|by apply elem_of_nil in Hin].
  cbn in Hin. by rewrite bool_decide_eq_true_2.
Qed.

Lemma load_finish_fresh fn s :
  fn ∉ loaded_files s ->
  is_Some (fs s !! fn) ->
  let call := {| argv := [find_psql] ++ get_psql_options; cwd := None;
                 penv := None; stdin := StdinFile fn |} in
  exists w f rc,
    Load_finish fn s
    = (if (rc =? 0)%Z then Ok tt
       else Raise (PgxnClientException
                     ("psql returned " +:+ pretty rc +:+ " loading extension")),
       mkState w f (if (rc =? 0)%Z then Some (loaded_files s ++ [fn])
                    else _loaded s),
       [EvPopen call rc]).
Proof.
  intros Hin [content Hfn] call.
  unfold Load_finish, _is_loaded.
  assert (match _loaded s with
          | Some l => bool_decide (fn ∈ l)
          | None => false
          end = false) as Hl.
  { unfold loaded_files in Hin. destruct (_loaded s); [|done].
    by apply bool_decide_eq_false_2. }
  unfold bind at 1. rewrite Hl. unfold load_sql. cbn [given negb].
  unfold bind, open, popen. rewrite Hfn. fold call.
  destruct (sys_popen call (world s) (fs s)) as [[[w f] rc] out].
  exists w, f, rc. by destruct (rc =? 0)%Z.
Qed.

(** The end of an unload: the user is asked, and on a yes the script is
    given to [psql], whatever has been loaded before. *)
Lemma unload_finish_run name fn s :
  is_Some (fs s !! fn) ->
  let call := {| argv := [find_psql] ++ get_psql_options; cwd := None;
                 penv := None; stdin := StdinFile fn |} in
  exists yes rc,
    events (Unload_finish name fn s)
    = EvConfirm (ExecuteToUnload name fn) yes
      :: (if yes then [EvPopen call rc] else []).
Proof.
  intros [content Hfn] call. unfold Unload_finish, bind, confirm.
  destruct (sys_answer _ (world s)) as [w yes]. exists yes.
  destruct yes; [|by exists 0%Z].
  unfold load_sql. cbn [given negb]. unfold bind, open, popen.
  cbn [world fs _loaded]. rewrite Hfn. cbn [world fs _loaded]. fold call.
  destruct (sys_popen call w (fs s)) as [[[w' f] rc] out]. exists rc.
  by destruct (negb (rc =? 0)%Z).
Qed.

End Found.

Section LoadOnce.
Context {Wd : World}.
Import LoadUnload.

Lemma load_ext_found name sqlfile s fn :
  result (Load_locate name sqlfile s) = Ok (Some fn) ->
  let s1 := final (Load_locate name sqlfile s) in
  Load.load_ext name sqlfile s
  = (result (Load_finish fn s1), final (Load_finish fn s1),
     events (Load_locate name sqlfile s) ++ events (Load_finish fn s1)).
Proof.
  intros Hl s1. by rewrite load_ext_locate, (bind_result_ok _ _ _ _ Hl).
Qed.

Lemma unload_ext_found name sqlfile s fn :
  result (Unload_locate name sqlfile s) = Ok (Some fn) ->
  let s1 := final (Unload_locate name sqlfile s) in
  Unload.load_ext name sqlfile s
  = (result (Unload_finish name fn s1), final (Unload_finish name fn s1),
     events (Unload_locate name sqlfile s) ++ events (Unload_finish name fn s1)).
Proof.
  intros Hl s1. by rewrite unload_ext_locate, (bind_result_ok _ _ _ _ Hl).
Qed.

Lemma load_locate_loaded name sqlfile s :
  loaded_files (final (Load_locate name sqlfile s)) = loaded_files s.
Proof. unfold loaded_files. by rewrite keeps_loaded_load_locate. Qed.

(** What an activation executes is not yet loaded, and is loaded when the
    activation returns. *)
Lemma load_ext_executes name sqlfile s :
  let x := Load.load_ext name sqlfile s in
  (executed (events x) = []
   \/ exists fn, executed (events x) = [fn] /\ fn ∉ loaded_files s)
  /\ (result x = Ok tt ->
      loaded_files (final x) = loaded_files s ++ executed (events x)).
Proof.
  intros x. subst x.
  destruct (locate_executed (Load_locate name sqlfile) s
              (emits_load_locate _ _)) as [Hex _].
  destruct (result (Load_locate name sqlfile s)) as [[fn|]|e] eqn:Hl.
  - rewrite (load_ext_found _ _ _ _ Hl). cbn [result final events fst snd].
    unfold executed in *. rewrite omap_app, Hex. cbn [app].
    pose proof (load_locate_exists name sqlfile s _ Hl fn eq_refl) as Hfn.
    pose proof (load_locate_loaded name sqlfile s) as Hsame.
    destruct (decide (fn ∈ loaded_files s)) as [Hin|Hin].
    + rewrite load_finish_loaded by (by rewrite Hsame).
      cbn [result final events fst snd omap list_omap executed_of].
      split; [by left|]. intros _. by rewrite Hsame, app_nil_r.
    + destruct (load_finish_fresh fn _ (eq_ind_r (fun l => fn ∉ l) Hin Hsame) Hfn)
        as (w & f & rc & ->).
      cbn [result final events fst snd omap list_omap executed_of stdin].
      split; [right; by exists fn|].
      destruct (rc =? 0)%Z; [|discriminate]. intros _.
      unfold loaded_files at 1. cbn [_loaded default]. by rewrite Hsame.
  - rewrite load_ext_locate, (bind_result_ok _ _ _ _ Hl).
    cbn [result final events fst snd ret]. unfold executed in *.
    rewrite app_nil_r, Hex.
    split; [by left|]. intros _. by rewrite load_locate_loaded, app_nil_r.
  - rewrite load_ext_locate, (bind_result_raise _ _ _ _ Hl).
    cbn [result final events fst snd]. unfold executed in *. rewrite Hex. split; [by left|discriminate].
Qed.

(** The files loaded stay loaded. *)
Lemma load_finish_grows fn s f :
  f ∈ loaded_files s -> f ∈ loaded_files (final (Load_finish fn s)).
Proof.
  intros Hf. unfold Load_finish. rewrite final_bind.
  cbn [_is_loaded result final fst snd].
  destruct (match _loaded s with
            | Some l => bool_decide (fn ∈ l)
            | None => false
            end); [done|].
  rewrite final_bind.
  pose proof (keeps_loaded_load_sql (Some fn) None s) as Hk.
  destruct (result (load_sql (Some fn) None s)).
  - unfold loaded_files in *. cbn [_register_loaded final fst snd _loaded default].
    rewrite Hk. apply elem_of_app. by left.
  - unfold loaded_files in *. by rewrite Hk.
Qed.

Lemma load_ext_grows name sqlfile s f :
  f ∈ loaded_files s ->
  f ∈ loaded_files (final (Load.load_ext name sqlfile s)).
Proof.
  intros Hf. rewrite load_ext_locate, final_bind.
  rewrite <- load_locate_loaded with (name := name) (sqlfile := sqlfile) in Hf.
  destruct (result (Load_locate name sqlfile s)) as [[fn|]|e]; [|done|done].
  by apply load_finish_grows.
Qed.

(** In a run of [load_ext] over a list, no file is executed twice, and no
    file that was loaded before the run is executed. *)
Lemma for_each_executes_once (l : list (string * Provided)) s :
  NoDup (loaded_files s) ->
  NoDup (loaded_files s
         ++ executed (events (for_each l
              (fun '(name, data) => Load.load_ext name (file data)) s))).
Proof.
  revert s. induction l as [|[name data] l IH]; intros s Hs.
  - cbn. by rewrite app_nil_r.
  - cbn [for_each]. rewrite events_bind. unfold executed. rewrite omap_app.
    fold (executed (events (Load.load_ext name (file data) s))).
    destruct (load_ext_executes name (file data) s) as [Hex Hok].
    cbv zeta in Hex, Hok.
    assert (Hone : NoDup (loaded_files s
                     ++ executed (events (Load.load_ext name (file data) s)))).
    { destruct Hex as [->|(fn & -> & Hfn)]; [by rewrite app_nil_r|].
      apply NoDup_app. split; [done|]. split; [|apply NoDup_singleton].
      intros f Hf ->%list_elem_of_singleton. contradiction. }
    destruct (result (Load.load_ext name (file data) s)) as [[]|e].
    + rewrite app_assoc, <- Hok by done. apply IH. by rewrite Hok.
    + by rewrite app_nil_r.
Qed.

End LoadOnce.

Section LoadOnceUnloadAlways.
Context {Wd : World}.
Import LoadUnload.

Lemma load_run_executes_once opts s :
  _loaded s = None -> NoDup (executed (events (Load.run opts s))).
Proof.
  intros Hs. unfold Load.run. rewrite events_bind, get_meta_events.
  cbn [app]. destruct (result (get_meta (opt_spec opts) s)) as [dist|e];
    [|constructor].
  pose proof (for_each_executes_once (provides dist)
                (final (get_meta (opt_spec opts) s))) as Hrun.
  unfold loaded_files in Hrun. rewrite keeps_loaded_get_meta, Hs in Hrun.
  apply Hrun. constructor.
Qed.

(** C4.  For a load that gets as far as the file [fn]: when [fn] is among
    the files loaded by this command object, the file is not executed,
    the logger reports it as already loaded and the activation returns;
    when it is not, which is the case of every file for a new command
    object, the file is executed, once, and it is among the files loaded
    when the activation returns.  The files loaded stay loaded after any
    activation, and a whole run that starts with a new command object
    executes no file twice.  For an unload that gets as far as the script
    [fn]: whatever has been loaded or unloaded before, the user is asked
    whether to execute [fn], and on a yes [fn] is executed. *)
Theorem load_once_unload_always name sqlfile s fn :
  let ll := Load_locate name sqlfile s in
  let l := Load.load_ext name sqlfile s in
  let ul := Unload_locate name sqlfile s in
  let u := Unload.load_ext name sqlfile s in
  let call := {| argv := [find_psql] ++ get_psql_options; cwd := None;
                 penv := None; stdin := StdinFile fn |} in
  (result ll = Ok (Some fn) ->
     (fn ∈ loaded_files s ->
        result l = Ok tt
        /\ executed (events l) = [] /\ skipped (events l) = [fn])
     /\ (fn ∉ loaded_files s ->
           executed (events l) = [fn] /\ skipped (events l) = []
           /\ (result l = Ok tt -> fn ∈ loaded_files (final l)))
     /\ (_loaded s = None -> executed (events l) = [fn]))
  /\ (forall f, f ∈ loaded_files s -> f ∈ loaded_files (final l))
  /\ (forall opts,
        _loaded s = None -> NoDup (executed (events (Load.run opts s))))
  /\ (result ul = Ok (Some fn) ->
        exists yes rc,
          events u
          = events ul
            ++ EvConfirm (ExecuteToUnload name fn) yes
               :: (if yes then [EvPopen call rc] else [])).
Proof.
  intros ll l ul u call.
  assert (Hfresh : result ll = Ok (Some fn) -> fn ∉ loaded_files s ->
            executed (events l) = [fn] /\ skipped (events l) = []
            /\ (result l = Ok tt -> fn ∈ loaded_files (final l))).
  { intros Hl Hin. subst l.
    destruct (locate_executed (Load_locate name sqlfile) s
                (emits_load_locate _ _)) as [Hex Hsk].
    rewrite (load_ext_found _ _ _ _ Hl).
    cbn [result final events fst snd]. unfold executed, skipped in *.
    rewrite !omap_app, Hex, Hsk. cbn [app].
    pose proof (load_locate_exists name sqlfile s _ Hl fn eq_refl) as Hfn.
    pose proof (load_locate_loaded name sqlfile s) as Hsame.
    destruct (load_finish_fresh fn _ (eq_ind_r (fun l => fn ∉ l) Hin Hsame) Hfn)
      as (w & f & rc & ->).
    cbn [result final events fst snd omap list_omap executed_of skipped_of
           stdin].
    repeat split. destruct (rc =? 0)%Z; [|discriminate]. intros _.
    unfold loaded_files at 1. cbn [_loaded default]. apply elem_of_app.
    right. apply list_elem_of_here. }
  split; [|split; [|split]].
  - intros Hl. split; [|split].
    + intros Hin. subst l.
      destruct (locate_executed (Load_locate name sqlfile) s
                  (emits_load_locate _ _)) as [Hex Hsk].
      rewrite (load_ext_found _ _ _ _ Hl).
      rewrite load_finish_loaded by (by rewrite load_locate_loaded).
      cbn [result final events fst snd]. unfold executed, skipped in *.
      by rewrite !omap_app, Hex, Hsk.
    + by apply Hfresh.
    + intros Hnone. apply Hfresh; [done|].
      unfold loaded_files. rewrite Hnone. apply not_elem_of_nil.
  - intros f. apply load_ext_grows.
  - intros opts. apply load_run_executes_once.
  - intros Hul. subst u ul. rewrite (unload_ext_found _ _ _ _ Hul).
    cbn [events snd].
    destruct (unload_finish_run name fn
                (final (Unload_locate name sqlfile s))
                (unload_locate_exists name sqlfile s _ Hul fn eq_refl))
      as (yes & rc & ->).
    by exists yes, rc.
Qed.

End LoadOnceUnloadAlways.

(** C4 on the object [foo] of [foobar]: a first load executes its script,
    a second load with the same command object does not and reports it as
    already loaded, a load with a new command object executes it; an
    unload asks and executes the uninstall script. *)
Lemma load_once_unload_always_witness :
  let first := Load.load_ext (Wd := Sample.quiet) "foo" None Sample.installed in
  let second := Load.load_ext (Wd := Sample.quiet) "foo" None (final first) in
  (executed (events first) = ["/share/foo/foo.sql"]
   /\ skipped (events first) = []
   /\ "/share/foo/foo.sql" ∈ loaded_files (final first))
  /\ (result second = Ok tt
      /\ executed (events second) = []
      /\ skipped (events second) = ["/share/foo/foo.sql"])
  /\ exists yes rc,
       events (Unload.load_ext (Wd := Sample.quiet) "foo" None Sample.installed)
       = events (Unload_locate (Wd := Sample.quiet) "foo" None Sample.installed)
         ++ EvConfirm (ExecuteToUnload "foo" "/share/foo/uninstall_foo.sql") yes
            :: (if yes
                then [EvPopen {| argv := ["/bin/psql"]; cwd := None;
                                 penv := None;
                                 stdin := StdinFile "/share/foo/uninstall_foo.sql" |}
                              rc]
                else []).
Proof.
  cbv zeta. split; [|split].
  - destruct (proj1 (proj2 (proj1 (load_once_unload_always (Wd := Sample.quiet)
                       "foo" None Sample.installed "/share/foo/foo.sql")
                     eq_refl)) (not_elem_of_nil _)) as (He & Hs & Hin).
    split; [exact He|]. split; [exact Hs|exact (Hin eq_refl)].
  - exact (proj1 (proj1 (load_once_unload_always (Wd := Sample.quiet)
                           "foo" None
                           (final (Load.load_ext (Wd := Sample.quiet) "foo"
                                     None Sample.installed))
                           "/share/foo/foo.sql") eq_refl)
             (list_elem_of_here _ _)).
  - exact (proj2 (proj2 (proj2 (load_once_unload_always (Wd := Sample.quiet)
                           "foo" None Sample.installed
                           "/share/foo/uninstall_foo.sql"))) eq_refl).
Defined.

(** ** Unload: the name of the uninstall script *)

Section Basename.

Lemma rfind_from_app c a b i last :
  Str.rfind_from c (a +:+ b) i last
  = Str.rfind_from c b (i + Z.of_nat (String.length a)) (Str.rfind_from c a i last).
Proof.
  revert i last. induction a as [|x a IH]; intros i last.
  - cbn. by rewrite Z.add_0_r.
  - change (String x a +:+ b) with (String x (a +:+ b)).
    cbn [Str.rfind_from String.length]. rewrite IH. f_equal. lia.
Qed.

Lemma rfind_from_absent c s i last :
  Str.contains c s = false -> Str.rfind_from c s i last = last.
Proof.
  revert i last. induction s as [|x s IH]; intros i last; cbn; [done|].
  intros [-> Hs]%orb_false_elim. by apply IH.
Qed.

Lemma rfind_from_shift c s i last d :
  Str.rfind_from c s (i + d) (last + d) = (Str.rfind_from c s i last + d)%Z.
Proof.
  revert i last. induction s as [|x s IH]; intros i last; cbn; [done|].
  replace (i + d + 1)%Z with (i + 1 + d)%Z by lia.
  destruct (Ascii.eqb x c); apply IH.
Qed.

Lemma rfind_from_present c s i last last' :
  Str.contains c s = true ->
  Str.rfind_from c s i last = Str.rfind_from c s i last'.
Proof.
  revert i last last'. induction s as [|x s IH]; intros i last last'; cbn;
    [discriminate|].
  destruct (Ascii.eqb x c); cbn; [done|]. apply IH.
Qed.

Lemma rfind_from_bounds c s i last :
  (last < i)%Z -> (last <= Str.rfind_from c s i last < i + Z.of_nat (String.length s))%Z.
Proof.
  revert i last. induction s as [|x s IH]; intros i last Hlt; cbn [Str.rfind_from
    String.length]; [lia|].
  destruct (Ascii.eqb x c).
  - specialize (IH (i + 1)%Z i). lia.
  - specialize (IH (i + 1)%Z last). lia.
Qed.

Lemma str_drop_app a b n :
  Str.drop (String.length a + n) (a +:+ b) = Str.drop n b.
Proof.
  induction a as [|x a IH]; [done|].
  change (String x a +:+ b) with (String x (a +:+ b)). apply IH.
Qed.

(** The base name of [a + b] is the base name of [b] when [b] has a
    directory part, and [a + b] when neither has a slash. *)
Lemma basename_app_dir a b :
  Str.contains "/" b = true ->
  Path.basename (a +:+ b) = Path.basename b.
Proof.
  intros Hb. unfold Path.basename, Str.rfind.
  rewrite rfind_from_app, Z.add_0_l.
  rewrite (rfind_from_present _ _ _ _ (-1 + Z.of_nat (String.length a))%Z Hb).
  rewrite <- (Z.add_0_l (Z.of_nat (String.length a))) at 1.
  rewrite rfind_from_shift.
  pose proof (rfind_from_bounds "/" b 0 (-1)) as Hbound.
  replace (Z.to_nat (Str.rfind_from "/" b 0 (-1) + Z.of_nat (String.length a) + 1))
    with (String.length a + Z.to_nat (Str.rfind_from "/" b 0 (-1) + 1)) by lia.
  apply str_drop_app.
Qed.

Lemma basename_app_flat a b :
  Str.contains "/" a = false ->
  Str.contains "/" b = false ->
  Path.basename (a +:+ b) = a +:+ b.
Proof.
  intros Ha Hb. unfold Path.basename, Str.rfind.
  rewrite rfind_from_app, (rfind_from_absent _ a _ _ Ha),
    (rfind_from_absent _ b _ _ Hb).
  reflexivity.
Qed.

Lemma endswith_sql_given hint :
  Str.endswith hint ".sql" = true -> LoadUnload.given (Some hint) = true.
Proof. by destruct hint. Qed.

End Basename.

Section UninstallScript.
Context {Wd : World}.
Import LoadUnload.

Lemma emits_bind_result {A B} P (m : M A) (k : A -> M B) :
  emits P m ->
  (forall s a, result (m s) = Ok a -> Forall P (events (k a (final (m s))))) ->
  emits P (bind m k).
Proof.
  intros Hm Hk s. rewrite events_bind. apply Forall_app. split; [apply Hm|].
  destruct (result (m s)) as [a|e] eqn:Hr; [by apply Hk|constructor].
Qed.

Lemma within_other paths e :
  probe_of e = None -> executed_of e = None -> within paths e.
Proof. intros Hp He. split; intros fn; by rewrite ?Hp, ?He. Qed.

Lemma within_Forall paths evs :
  Forall (within paths) evs ->
  Forall (fun fn => fn ∈ paths) (probes evs)
  /\ Forall (fun fn => fn ∈ paths) (executed evs).
Proof.
  induction 1 as [|e evs [Hp He] _ [IHp IHe]]; [by split|].
  unfold probes, executed. cbn [omap list_omap]. split.
  - destruct (probe_of e) as [fn|]; [|done]. constructor; [by apply Hp|done].
  - destruct (executed_of e) as [fn|]; [|done]. constructor; [by apply He|done].
Qed.

Lemma find_sql_file_within name sqlfile :
  emits (within (candidates name (Path.basename sqlfile)))
        (find_sql_file name sqlfile).
Proof.
  intros s.
  destruct (find_sql_file_run name sqlfile s) as (_ & _ & _ & Hp).
  cbv zeta in Hp. revert Hp. unfold probes.
  assert (Hex : executed (events (find_sql_file name sqlfile s)) = []).
  { apply omap_emits. by apply emits_find_sql_file. }
  revert Hex. unfold executed.
  induction (events (find_sql_file name sqlfile s)) as [|e evs IH];
    [constructor|].
  cbn [omap list_omap]. intros Hex Hp.
  destruct (executed_of e) eqn:He; [discriminate|].
  destruct (probe_of e) as [fn|] eqn:Hpe.
  - apply Forall_cons_1 in Hp as [Hfn Hp]. constructor; [|by apply IH].
    split; intros fn'; rewrite ?Hpe, ?He; [by intros [= <-]|done].
  - constructor; [by apply within_other|by apply IH].
Qed.

Lemma find_sql_file_candidate name sqlfile s fn :
  result (find_sql_file name sqlfile s) = Ok fn ->
  fn ∈ candidates name (Path.basename sqlfile).
Proof.
  destruct (find_sql_file_run name sqlfile s) as (_ & -> & _ & _).
  destruct (first_existing _ _) as [fn'|] eqn:Hfe; [|discriminate].
  intros [= <-]. apply first_existing_Some in Hfe as (l1 & l2 & -> & _).
  apply elem_of_app. right. apply list_elem_of_here.
Qed.

(** The first path [find_sql_file] probes. *)
Lemma find_sql_file_first_probe name sqlfile s :
  exists rest,
    probes (events (find_sql_file name sqlfile s))
    = (call_pg_config "sharedir" +:+ "/"
       +:+ (name +:+ "/" +:+ Path.basename sqlfile)) :: rest.
Proof.
  unfold find_sql_file. rewrite events_bind. unfold probes. rewrite omap_app.
  cbn [find_sql_loop].
  rewrite bool_decide_eq_false_2 by apply not_elem_of_empty.
  rewrite bind_logger. cbn [events snd omap list_omap probe_of app].
  by eexists.
Qed.

(** What an unload with the file name [hint] does after the test of the
    file name. *)
Lemma unload_ext_within name hint :
  Str.endswith hint ".sql" = true ->
  emits (within (candidates name (Path.basename ("uninstall_" +:+ hint))))
        (Unload.load_ext name (Some hint)).
Proof.
  intros Hsql. pose proof (endswith_sql_given _ Hsql) as Hgiven.
  assert (Hother : forall call rc data,
            stdin call = StdinPipe data ->
            within (candidates name (Path.basename ("uninstall_" +:+ hint)))
                   (EvPopen call rc)).
  { intros call rc data Hin. apply within_other; cbn; by rewrite ?Hin. }
  unfold Unload.load_ext. change (default "" (Some hint)) with hint.
  rewrite Hgiven, Hsql. cbn [negb andb].
  apply emits_bind; [by apply emits_logger, within_other|intros _].
  apply emits_bind.
  { apply emits_get_pg_version; intros; apply within_other; try done;
      cbn; match goal with Hin : stdin _ = _ |- _ => by rewrite Hin end. }
  intros pgver. apply emits_bind.
  { destruct (Version.ge pgver (9, 1, 0)%N); [|apply emits_ret].
    apply emits_bind; [by apply emits_is_extension; intros; apply within_other|].
    intros [].
    - apply emits_bind; [|intros; apply emits_ret].
      apply emits_drop_extension. intros; by eapply Hother.
    - apply emits_bind; [|intros; apply emits_ret].
      by apply emits_confirm; intros; apply within_other. }
  intros []; [apply emits_ret|]. cbv zeta.
  apply emits_bind_result; [apply find_sql_file_within|].
  intros s fn Hfn%find_sql_file_candidate.
  assert (Hemits : emits (within (candidates name
                            (Path.basename ("uninstall_" +:+ hint))))
                     (confirm (ExecuteToUnload name fn);;
                      load_sql (Some fn) None)); [|apply Hemits].
  apply emits_bind; [by apply emits_confirm; intros; apply within_other|].
  intros _. apply emits_load_sql_file. intros call rc Hin.
  split; intros fn'; cbn; rewrite ?Hin; [done|by intros [= <-]].
Qed.

(** C10.  For an unload with a file name [hint] that ends in [.sql]: the
    file name looked for is [f], the base name of ['uninstall_' + hint];
    every path probed and every file executed is one of the three
    candidates for [f], below 9.1.0 the first candidate is probed and, when
    no candidate exists, the error names [f].  As the base name is taken
    after the prefix is put in front, [f] is the base name of [hint],
    without the prefix, when [hint] has a directory part, and
    ['uninstall_' + hint] when it has none. *)
Theorem unload_script_name name hint s :
  Str.endswith hint ".sql" = true ->
  let f := Path.basename ("uninstall_" +:+ hint) in
  let u := Unload.load_ext name (Some hint) s in
  Forall (fun fn => fn ∈ candidates name f) (probes (events u))
  /\ Forall (fun fn => fn ∈ candidates name f) (executed (events u))
  /\ (forall v,
        result (get_pg_version s) = Ok v ->
        Version.ge v (9, 1, 0)%N = false ->
        (exists rest,
           probes (events u)
           = (call_pg_config "sharedir" +:+ "/" +:+ (name +:+ "/" +:+ f))
             :: rest)
        /\ (first_existing (fs (final (get_pg_version s))) (candidates name f)
            = None ->
            result u
            = Raise (PgxnClientException
                       ("cannot find sql file for extension '" +:+ name
                        +:+ "': '" +:+ f +:+ "'"))))
  /\ (Str.contains "/" hint = true -> f = Path.basename hint)
  /\ (Str.contains "/" hint = false -> f = "uninstall_" +:+ hint).
Proof.
  intros Hsql f u.
  destruct (within_Forall _ _ (unload_ext_within name hint Hsql s)) as [Hp He].
  split; [exact Hp|]. split; [exact He|]. split; [|split].
  - intros v Hv Hge. subst u. unfold Unload.load_ext.
    change (default "" (Some hint)) with hint.
    rewrite (endswith_sql_given _ Hsql), Hsql. cbn [negb andb].
    rewrite bind_logger. cbn [result events fst snd].
    rewrite (bind_result_ok _ _ _ _ Hv), Hge.
    cbn [result events fst snd]. rewrite bind_ret_l. cbv zeta.
    fold (Str.truthy hint).
    set (sv := final (get_pg_version s)).
    set (x := "uninstall_" +:+ hint). fold x in f.
    split.
    + destruct (find_sql_file_first_probe name x sv) as [rest Hrest].
      unfold probes in *. cbn [omap list_omap probe_of].
      rewrite omap_app, events_bind, omap_app, Hrest.
      rewrite (omap_emits probe_of get_pg_version)
        by (apply emits_get_pg_version; done).
      by eexists.
    + intros Hnone.
      destruct (find_sql_file_run name x sv) as (_ & Hr & _ & _).
      cbv zeta in Hr. fold f in Hr. rewrite Hnone in Hr.
      by rewrite (bind_result_raise _ _ _ _ Hr).
  - intros Hdir. by apply basename_app_dir.
  - intros Hflat. by apply basename_app_flat.
Qed.

End UninstallScript.

(** C10 on a file name with a directory part, on a server of version
    8.4.22: the script looked for is [foo.sql], the prefix is lost; and on
    a file name without a directory part. *)
Lemma unload_script_name_witness :
  (Path.basename ("uninstall_" +:+ "sql/foo.sql") = "foo.sql"
   /\ exists rest,
        probes (events (Unload.load_ext (Wd := Sample.old) "foo"
                          (Some "sql/foo.sql") Sample.with_control_old))
        = "/share/foo/foo.sql" :: rest)
  /\ Path.basename ("uninstall_" +:+ "foo.sql") = "uninstall_foo.sql".
Proof.
  split.
  - destruct (unload_script_name (Wd := Sample.old) "foo" "sql/foo.sql"
                Sample.with_control_old eq_refl) as (_ & _ & Hreach & Hdir & _).
    split; [exact (Hdir eq_refl)|].
    exact (proj1 (Hreach (8, 4, 22)%N eq_refl eq_refl)).
  - destruct (unload_script_name (Wd := Sample.old) "foo" "foo.sql"
                Sample.with_control_old eq_refl) as (_ & _ & _ & _ & Hflat).
    exact (Hflat eq_refl).
Defined.

(** ** Check: the results of the regression tests *)

(** C9 fails when the source directory is the current directory: the
    tests of the distribution in [./] fail, [./regression.out] exists, and
    [shutil.copy] refuses to copy it onto itself.  The failure of the
    build tool is lost: the command ends with the error of [shutil.copy],
    and [regression.diffs] is not looked at. *)
Lemma check_in_current_directory :
  let x := Check._run (Wd := Sample.failing_tests) (Sh := Sample.sha)
             Sample.here "/tmp/pgxn" Sample.tested_here in
  result (run_make (Wd := Sample.failing_tests) ["installcheck"] "./"
            (Some (@get_psql_env Sample.failing_tests
                   ∪ @os_environ Sample.failing_tests))
            None Sample.tested_here)
  = Raise (PgxnClientException "command returned 1")
  /\ steps (events x) = [Make ["installcheck"]]
  /\ result x = Raise (ShutilError "./regression.out" "./regression.out")
  /\ EvLog Info (CopyingRegression "diffs") ∉ events x.
Proof.
  cbv zeta. split; [reflexivity|]. split; [reflexivity|].
  split; [reflexivity|].
  assert (events (Check._run (Wd := Sample.failing_tests) (Sh := Sample.sha)
                    Sample.here "/tmp/pgxn" Sample.tested_here)
          = [EvLog Debug (CheckingPath "./configure");
             EvLog Info CheckingExtension;
             EvLog Debug (AdditionalEnv ∅);
             EvMake {| mk_cmd := ["installcheck"]; mk_dir := "./";
                       mk_env := Some (∅ ∪ ∅); mk_sudo := None |} 1;
             EvLog Info (CopyingRegression "out")]) as -> by reflexivity.
  intros Hin%list_elem_of_In. cbn in Hin. intuition discriminate.
Qed.

Section CheckResults.
Context {Wd : World} {Sh : Sha1}.

Lemma string_length_append a b :
  String.length (a +:+ b) = String.length a + String.length b.
Proof.
  induction a as [|x a IH]; [done|].
  change (String x a +:+ b) with (String x (a +:+ b)). cbn. by rewrite IH.
Qed.

(** The result [diffs] in [pdir] is not the file [./regression.out]. *)
Lemma diffs_is_not_out pdir :
  Path.join pdir "regression.diffs" <> "./regression.out".
Proof.
  unfold Path.join. change (Str.startswith "regression.diffs" "/") with false.
  cbv iota. intros Heq. pose proof (f_equal String.length Heq) as Hlen.
  destruct ((pdir =? "")%string || Str.endswith pdir "/");
    rewrite !string_length_append in Hlen; cbn [String.length] in Hlen; [|lia].
  destruct pdir; [discriminate|cbn [String.length] in Hlen; lia].
Qed.

Lemma save_result_run pdir ext s :
  samefile (Path.join pdir ("regression." +:+ ext)) ("./regression." +:+ ext)
  = false ->
  result (save_result pdir ext s) = Ok tt
  /\ final (save_result pdir ext s)
     = mkState (world s) (saved pdir ext (fs s)) (_loaded s).
Proof.
  intros Hne. unfold save_result, saved, bind, exists_, logger, emit,
    shutil_copy.
  destruct (fs s !! Path.join pdir ("regression." +:+ ext)) as [content|] eqn:Hfn.
  - rewrite bool_decide_eq_true_2 by done. rewrite Hfn. by rewrite Hne.
  - rewrite bool_decide_eq_false_2 by (by intros [? ?]). by destruct s.
Qed.

Lemma run_make_raises cmd dir env sudo s e :
  result (run_make cmd dir env sudo s) = Raise e ->
  Check.is_PgxnClientException e = true.
Proof.
  unfold run_make. destruct (sys_make _ (world s) (fs s)) as [[w f] rc].
  cbn. destruct (rc =? 0)%Z; [discriminate|]. by intros [= <-].
Qed.

(** When the results in the source directory are not the files of these
    names in the current directory, C9 holds: a failure of [installcheck]
    is raised again as it is, after each of [regression.out] and
    [regression.diffs] that exists in the source directory has been copied
    to the current directory. *)
Lemma check_saves_results opts pdir s :
  let m := run_make installcheck pdir (Some (get_psql_env ∪ os_environ)) None s in
  let x := Check._inun opts pdir s in
  samefile (Path.join pdir "regression.out") "./regression.out" = false ->
  samefile (Path.join pdir "regression.diffs") "./regression.diffs" = false ->
  (result m = Ok tt -> result x = Ok tt /\ final x = final m)
  /\
  (forall e, result m = Raise e ->
     result x = Raise e
     /\ fs (final x) = saved pdir "diffs" (saved pdir "out" (fs (final m)))
     /\ forall ext content,
          ext ∈ ["out"; "diffs"] ->
          fs (final m) !! Path.join pdir ("regression." +:+ ext) = Some content ->
          fs (final x) !! ("./regression." +:+ ext) = Some content).
Proof.
  intros m x Hout Hdiffs.
  assert (Hx : x = (let '(r, s2, ev2) :=
                      try_except (fun s => m)
                        Check.is_PgxnClientException
                        (fun e => for_each ["out"; "diffs"] (save_result pdir);;
                                  raise e) s in
                    (r, s2, EvLog Info CheckingExtension
                            :: EvLog Debug (AdditionalEnv get_psql_env) :: ev2))).
  { subst x m. unfold Check._inun. rewrite !bind_logger.
    unfold installcheck.
    by destruct (try_except _ _ _ s) as [[r s2] ev2]. }
  rewrite Hx. clear Hx. unfold try_except.
  destruct m as [[[[]|e] sm] evm] eqn:Hm; cbn [result final fst snd].
  - split; [done|]. by intros e [=].
  - split; [discriminate|]. intros e' [= <-].
    rewrite (run_make_raises installcheck pdir
               (Some (get_psql_env ∪ os_environ)) None s e)
      by (fold m; by rewrite Hm).
    cbn [for_each].
    destruct (save_result_run pdir "out" sm Hout) as [Hr1 Hf1].
    set (s1 := final (save_result pdir "out" sm)) in *.
    destruct (save_result_run pdir "diffs" s1 Hdiffs) as [Hr2 Hf2].
    set (s2 := final (save_result pdir "diffs" s1)) in *.
    assert (Hh : bind (bind (save_result pdir "out")
                         (fun _ => bind (save_result pdir "diffs")
                                     (fun _ => ret tt)))
                   (fun _ => raise e : M unit) sm
                 = (Raise e, s2,
                    events (save_result pdir "out" sm)
                    ++ events (save_result pdir "diffs" s1))).
    { rewrite bind_assoc, (bind_result_ok _ _ _ _ Hr1). fold s1.
      rewrite bind_assoc, (bind_result_ok _ _ _ _ Hr2). fold s2.
      rewrite bind_ret_l. cbn. by rewrite app_nil_r. }
    rewrite Hh. cbn [result final fst snd].
    assert (Hfs : fs s2 = saved pdir "diffs" (saved pdir "out" (fs sm))).
    { rewrite Hf2. cbn [fs]. by rewrite Hf1. }
    split; [done|]. split; [exact Hfs|].
    intros ext content Hext Hsrc. rewrite Hfs.
    apply elem_of_cons in Hext as [->|Hext].
    + assert (saved pdir "out" (fs sm) !! "./regression.out" = Some content)
        as Hsaved.
      { unfold saved. rewrite Hsrc. apply lookup_insert_eq. }
      unfold saved at 1.
      destruct (saved pdir "out" (fs sm) !! Path.join pdir ("regression." +:+ "diffs"));
        [|done].
      by rewrite lookup_insert_ne.
    + apply list_elem_of_singleton in Hext as ->.
      assert (saved pdir "out" (fs sm) !! Path.join pdir "regression.diffs"
              = Some content) as Hkept.
      { unfold saved.
        destruct (fs sm !! Path.join pdir ("regression." +:+ "out")); [|done].
        rewrite lookup_insert_ne; [done|].
        intros Heq. by apply (diffs_is_not_out pdir). }
      unfold saved at 1.
      change ("regression." +:+ "diffs") with "regression.diffs".
      rewrite Hkept. apply lookup_insert_eq.
Qed.

End CheckResults.

(** * Further properties of the commands *)

(** ** LoadUnload: the version string *)

Section ParseVersion.
Context {Wd : World}.
Import LoadUnload.

Lemma span_all p u v :
  all_chars p u = true -> starts p v = false ->
  Version.span p (u +:+ v) = (u, v).
Proof.
  intros Hu Hv. induction u as [|a u IH].
  - change ("" +:+ v) with v. destruct v as [|b v]; [done|].
    cbn in *. by rewrite Hv.
  - change (String a u +:+ v) with (String a (u +:+ v)).
    cbn in *. apply andb_prop in Hu as [-> Hu]. by rewrite IH.
Qed.

Lemma digit_not_space c : Version.is_digit c = true -> Version.is_space c = false.
Proof.
  unfold Version.is_digit, Version.is_space. intros H.
  apply andb_prop in H as [H1 H2].
  apply Nat.leb_le in H1. apply Nat.leb_le in H2.
  apply orb_false_intro.
  - apply andb_false_intro2. apply Nat.leb_gt. lia.
  - apply Nat.eqb_neq. lia.
Qed.

Lemma starts_app p u v : Str.truthy u = true -> starts p (u +:+ v) = starts p u.
Proof. by destruct u. Qed.

Lemma starts_all p u : Str.truthy u = true -> all_chars p u = true -> starts p u = true.
Proof. destruct u as [|a u]; [done|]. cbn. by intros _ [-> _]%andb_prop. Qed.

Lemma starts_all_not p q u :
  (forall c, p c = true -> q c = false) ->
  Str.truthy u = true -> all_chars p u = true -> starts q u = false.
Proof.
  intros Hpq. destruct u as [|a u]; [done|]. cbn.
  intros _ [Ha _]%andb_prop. by apply Hpq.
Qed.

(** The start of a version string: a word, a blank and the major and
    minor numbers, followed by [r]. *)
Lemma parse_major_minor word blank g1 g2 r s :
  is_word word = true -> is_blank blank = true ->
  is_number g1 = true -> is_number g2 = true ->
  starts Version.is_digit r = false ->
  parse_pg_version (word +:+ blank +:+ g1 +:+ "." +:+ g2 +:+ r) s
  = (Ok (Version.int g1, Version.int g2,
         let g3 := match r with
                   | String "." r' => fst (Version.span Version.is_digit r')
                   | _ => ""
                   end in
         if Str.truthy g3 then Version.int g3 else 0%N), s, []).
Proof.
  intros [Hw1 Hw2]%andb_prop [Hb1 Hb2]%andb_prop [H11 H12]%andb_prop
    [H21 H22]%andb_prop Hr.
  unfold parse_pg_version.
  rewrite (span_all _ word) by
    (try done; rewrite starts_app by done;
     apply (starts_all_not Version.is_space); try done;
     by intros c ->).
  rewrite (span_all _ blank) by
    (try done; rewrite starts_app by done;
     apply (starts_all_not Version.is_digit); auto using digit_not_space).
  change ("." +:+ g2 +:+ r) with (String "." (g2 +:+ r)).
  rewrite (span_all _ g1) by done.
  rewrite Hw1, Hb1, H11. cbn [andb negb].
  rewrite (span_all _ g2) by done.
  rewrite H21. reflexivity.
Qed.

(** X1.  A version string made of a word, a blank and three numbers
    separated by dots, followed by anything that does not start with a
    digit, is parsed as these three numbers. *)
Theorem parse_pg_version_three word blank g1 g2 g3 rest s :
  is_word word = true -> is_blank blank = true ->
  is_number g1 = true -> is_number g2 = true -> is_number g3 = true ->
  starts Version.is_digit rest = false ->
  parse_pg_version
    (word +:+ blank +:+ g1 +:+ "." +:+ g2 +:+ "." +:+ g3 +:+ rest) s
  = (Ok (Version.int g1, Version.int g2, Version.int g3), s, []).
Proof.
  intros Hw Hb H1 H2 H3 Hrest.
  rewrite (parse_major_minor word blank g1 g2) by done.
  change ("." +:+ g3 +:+ rest) with (String "." (g3 +:+ rest)). cbv zeta iota.
  apply andb_prop in H3 as [H31 H32].
  rewrite (span_all _ g3) by done. cbn [fst]. by rewrite H31.
Qed.

(** X2.  With the third number missing, the patch level is 0: after the
    minor number comes the end of the string, or a character that is
    neither a digit nor a dot, or a dot that no digit follows. *)
Theorem parse_pg_version_two word blank g1 g2 rest s :
  is_word word = true -> is_blank blank = true ->
  is_number g1 = true -> is_number g2 = true ->
  starts Version.is_digit rest = false ->
  match rest with
  | String "." r => starts Version.is_digit r = false
  | _ => True
  end ->
  parse_pg_version (word +:+ blank +:+ g1 +:+ "." +:+ g2 +:+ rest) s
  = (Ok (Version.int g1, Version.int g2, 0%N), s, []).
Proof.
  intros Hw Hb H1 H2 Hrest Hdot.
  rewrite (parse_major_minor word blank g1 g2) by done.
  assert (match rest with
          | String "." r' => fst (Version.span Version.is_digit r')
          | _ => ""
          end = "") as ->; [|done].
  destruct rest as [|a rest]; [done|].
  destruct a as [[] [] [] [] [] [] [] []]; try done.
  destruct rest as [|b rest]; [done|]. cbn in Hdot |- *. by rewrite Hdot.
Qed.

(** X3.  A string without white space, the empty string among them, is
    not a version string: the error quotes it. *)
Theorem parse_pg_version_no_blank data s :
  all_chars (fun c => negb (Version.is_space c)) data = true ->
  parse_pg_version data s
  = (Raise (PgxnClientException
              ("cannot parse version number from '" +:+ data +:+ "'")), s, []).
Proof.
  intros Hdata. unfold parse_pg_version.
  pose proof (span_all (fun c => negb (Version.is_space c)) data "" Hdata eq_refl)
    as Hspan.
  assert (data +:+ "" = data) as Hnil.
  { clear. induction data as [|a d IH]; [done|].
    change (String a d +:+ "") with (String a (d +:+ "")). by rewrite IH. }
  rewrite Hnil in Hspan. rewrite Hspan. cbn [Version.span].
  by rewrite andb_false_r.
Qed.

End ParseVersion.

(** The three theorems on version strings, on the output of three
    servers. *)
Lemma parse_pg_version_three_witness :
  LoadUnload.parse_pg_version (Wd := Sample.quiet)
    "PostgreSQL 9.2.0 on x86_64-pc-linux-gnu" Sample.empty_quiet
  = (Ok (9, 2, 0)%N, Sample.empty_quiet, []).
Proof.
  exact (parse_pg_version_three (Wd := Sample.quiet) "PostgreSQL" " " "9" "2"
           "0" " on x86_64-pc-linux-gnu" Sample.empty_quiet
           eq_refl eq_refl eq_refl eq_refl eq_refl eq_refl).
Defined.

Lemma parse_pg_version_two_witness :
  LoadUnload.parse_pg_version (Wd := Sample.quiet)
    "PostgreSQL 10.4devel" Sample.empty_quiet
  = (Ok (10, 4, 0)%N, Sample.empty_quiet, []).
Proof.
  exact (parse_pg_version_two (Wd := Sample.quiet) "PostgreSQL" " " "10" "4"
           "devel" Sample.empty_quiet eq_refl eq_refl eq_refl eq_refl eq_refl I).
Defined.

Lemma parse_pg_version_no_blank_witness :
  LoadUnload.parse_pg_version (Wd := Sample.quiet) "9.2.0" Sample.empty_quiet
  = (Raise (PgxnClientException "cannot parse version number from '9.2.0'"),
     Sample.empty_quiet, []).
Proof.
  exact (parse_pg_version_no_blank (Wd := Sample.quiet) "9.2.0"
           Sample.empty_quiet eq_refl).
Defined.

(** ** Load, Unload: the threshold *)

(** X4.  The test [pgver >= (9, 1, 0)] of [load_ext] looks at the major and
    the minor number only: it holds from 9.1 on, whatever the patch
    level. *)
Theorem version_threshold (major minor patch : N) :
  Version.ge (major, minor, patch) (9, 1, 0)%N = true
  <-> (9 < major \/ (major = 9 /\ 1 <= minor))%N.
Proof.
  unfold Version.ge.
  destruct (N.compare_spec major 9) as [->|Hlt|Hgt].
  - destruct (N.compare_spec minor 1) as [->|Hlt|Hgt].
    + rewrite N.leb_le. split; [right; split; [done|lia]|lia].
    + split; [discriminate|]. lia.
    + split; [right; split; [done|lia]|done].
  - split; [discriminate|]. lia.
  - split; [by left|done].
Qed.

(** ** Download: what is returned has been verified *)

Section DownloadRun.
Context {Wd : World} {Sh : Sha1}.

Lemma bind_raise_l {A B} e (k : A -> M B) s :
  bind (raise e) k s = (Raise e, s, []).
Proof. reflexivity. Qed.

Lemma download_run_fetch opts s :
  Download.run opts s
  = bind (Download_fetch opts)
      (fun '(fn, chk) => Download.verify_checksum fn chk;; ret fn) s.
Proof.
  unfold Download.run, Download_fetch.
  rewrite bind_assoc. apply bind_ext. intros data s1.
  rewrite bind_assoc. apply bind_ext. intros chk s2.
  rewrite bind_assoc. apply bind_ext. intros url s3.
  rewrite bind_assoc. apply bind_ext. intros fn s4.
  rewrite bind_assoc. apply bind_ext. intros fn' s5.
  by rewrite bind_ret_l.
Qed.

(** [verify_checksum] returns only for a file that is there and has the
    expected digest. *)
Lemma verify_checksum_ok fn chk s :
  result (Download.verify_checksum fn chk s) = Ok tt ->
  exists content, fs s !! fn = Some content /\ digest content = chk
                  /\ final (Download.verify_checksum fn chk s) = s.
Proof.
  destruct (fs s !! fn) as [content|] eqn:Hfn.
  - destruct (decide (digest content = chk)) as [Hchk|Hchk].
    + rewrite (verify_checksum_match _ _ _ _ Hfn Hchk). by exists content.
    + by rewrite (verify_checksum_mismatch _ _ _ _ Hfn Hchk).
  - unfold Download.verify_checksum, bind, logger, emit, open. by rewrite Hfn.
Qed.

(** X5.  [Download.run] returns a file name only for a file that is on
    disk when it returns and whose digest is the [sha1] of the metadata of
    the distribution: no file that was not verified is handed on. *)
Theorem download_run_verified opts s fn :
  result (Download.run opts s) = Ok fn ->
  exists dist content,
    result (get_meta (opt_spec opts) s) = Ok dist
    /\ fs (final (Download.run opts s)) !! fn = Some content
    /\ meta_sha1 dist = Some (digest content).
Proof.
  unfold Download.run. rewrite result_bind, final_bind.
  destruct (result (get_meta (opt_spec opts) s)) as [dist|e]; [|discriminate].
  set (s1 := final (get_meta (opt_spec opts) s)).
  destruct (meta_sha1 dist) as [chk|] eqn:Hsha.
  2:{ rewrite result_bind. discriminate. }
  rewrite bind_ret_l. rewrite result_bind, final_bind.
  destruct (result (api_download _ _ s1)) as [url|e]; [|discriminate].
  set (s2 := final (api_download _ _ s1)).
  rewrite result_bind, final_bind.
  destruct (result (Download._get_local_file_name opts url s2)) as [fn0|e];
    [|discriminate].
  set (s3 := final (Download._get_local_file_name opts url s2)).
  rewrite result_bind, final_bind.
  destruct (result (download url fn0 s3)) as [fn1|e]; [|discriminate].
  set (s4 := final (download url fn0 s3)).
  rewrite result_bind, final_bind.
  destruct (result (Download.verify_checksum fn1 chk s4)) as [[]|e] eqn:Hv;
    [|discriminate].
  intros [= ->]. apply verify_checksum_ok in Hv as (content & Hfn & Hchk & ->).
  exists dist, content. split; [done|]. split; [exact Hfn|].
  by rewrite Hsha, Hchk.
Qed.

(** X6.  Without a [sha1] in the metadata [Download.run] raises before it
    asks the network for anything: the file system is the one it started
    with. *)
Theorem download_run_no_sha1 opts s dist :
  result (get_meta (opt_spec opts) s) = Ok dist ->
  meta_sha1 dist = None ->
  Download.run opts s
  = (Raise (PgxnClientException "sha1 missing from the distribution meta"),
     final (get_meta (opt_spec opts) s), [])
  /\ fs (final (Download.run opts s)) = fs s.
Proof.
  intros Hmeta Hsha.
  assert (Hrun : Download.run opts s
                 = (Raise (PgxnClientException
                             "sha1 missing from the distribution meta"),
                    final (get_meta (opt_spec opts) s), [])).
  { unfold Download.run. rewrite (bind_result_ok _ _ _ _ Hmeta), Hsha.
    rewrite bind_raise_l. cbn [result final events fst snd].
    by rewrite get_meta_events. }
  split; [exact Hrun|]. rewrite Hrun. cbn [final fst snd].
  unfold get_meta. by destruct (sys_get_meta _ (world s) (fs s)) as [w [e|a]].
Qed.

(** X7.  When the file that was downloaded does not have the digest of the
    metadata, [Download.run] raises [BadChecksum] and the file is gone. *)
Theorem download_run_bad_checksum opts s fn chk content :
  result (Download_fetch opts s) = Ok (fn, chk) ->
  fs (final (Download_fetch opts s)) !! fn = Some content ->
  digest content <> chk ->
  result (Download.run opts s) = Raise (BadChecksum "bad sha1 in downloaded file")
  /\ fs (final (Download.run opts s)) !! fn = None.
Proof.
  intros Hf Hfn Hchk. rewrite download_run_fetch.
  rewrite (bind_result_ok _ _ _ _ Hf). cbn [result final events fst snd].
  rewrite (bind_result_raise _ _ _ _
             (f_equal result (verify_checksum_mismatch _ _ _ _ Hfn Hchk))).
  rewrite (verify_checksum_mismatch _ _ _ _ Hfn Hchk).
  cbn [result final events fst snd fs]. split; [done|].
  apply lookup_delete_eq.
Qed.

End DownloadRun.

(** The theorems on [Download.run] with a network that delivers the
    content announced, with metadata without a digest, and with a network
    that delivers something else. *)
Lemma download_run_verified_witness :
  exists dist content,
    result (get_meta (Wd := Sample.honest) (opt_spec Sample.to_tmp)
              Sample.empty_honest) = Ok dist
    /\ fs (final (Download.run (Wd := Sample.honest) (Sh := Sample.sha)
                    Sample.to_tmp Sample.empty_honest))
       !! "/tmp/pgxn/foo.zip" = Some content
    /\ meta_sha1 dist = Some (digest (Sh := Sample.sha) content).
Proof.
  exact (download_run_verified (Wd := Sample.honest) (Sh := Sample.sha)
           Sample.to_tmp Sample.empty_honest "/tmp/pgxn/foo.zip" eq_refl).
Defined.

Lemma download_run_no_sha1_witness :
  result (Download.run (Wd := Sample.quiet) (Sh := Sample.sha)
            Sample.to_tmp Sample.empty_quiet)
  = Raise (PgxnClientException "sha1 missing from the distribution meta")
  /\ fs (final (Download.run (Wd := Sample.quiet) (Sh := Sample.sha)
                  Sample.to_tmp Sample.empty_quiet))
     = fs Sample.empty_quiet.
Proof.
  destruct (download_run_no_sha1 (Wd := Sample.quiet) (Sh := Sample.sha)
              Sample.to_tmp Sample.empty_quiet Sample.foobar eq_refl eq_refl)
    as [Hrun Hfs].
  split; [exact (f_equal result Hrun)|exact Hfs].
Defined.

Lemma download_run_bad_checksum_witness :
  result (Download.run (Wd := Sample.tampered) (Sh := Sample.sha)
            Sample.to_tmp Sample.empty_tampered)
  = Raise (BadChecksum "bad sha1 in downloaded file")
  /\ fs (final (Download.run (Wd := Sample.tampered) (Sh := Sample.sha)
                  Sample.to_tmp Sample.empty_tampered))
     !! "/tmp/pgxn/foo.zip" = None.
Proof.
  apply (download_run_bad_checksum (Wd := Sample.tampered) (Sh := Sample.sha)
           Sample.to_tmp Sample.empty_tampered "/tmp/pgxn/foo.zip" "PK"
           [Byte.x50] eq_refl eq_refl).
  discriminate.
Defined.

(** ** Install, Uninstall, Check: how the build tool is called *)

Section MakeCalls.
Context {Wd : World} {Sh : Sha1}.

Lemma emits_run_make_call P cmd dir env sudo :
  (forall rc, P (EvMake {| mk_cmd := cmd; mk_dir := dir; mk_env := env;
                           mk_sudo := sudo |} rc)) ->
  emits P (run_make cmd dir env sudo).
Proof.
  intros HP s. unfold run_make.
  destruct (sys_make _ (world s) (fs s)) as [[w f] rc].
  repeat constructor. apply HP.
Qed.

Lemma emits_try_except {A} P (m : M A) caught (h : Exn -> M A) :
  emits P m -> (forall e, emits P (h e)) -> emits P (try_except m caught h).
Proof.
  intros Hm Hh s. unfold try_except. specialize (Hm s).
  destruct (m s) as [[[a|e] s1] ev1]; [done|].
  destruct (caught e); [|done]. specialize (Hh e s1).
  destruct (h e s1) as [[r s2] ev2]. apply Forall_app. by split.
Qed.

Lemma emits_shutil_copy P src dst : P (EvCopy src dst) -> emits P (shutil_copy src dst).
Proof.
  intros HP s. unfold shutil_copy. destruct (fs s !! src); [|constructor].
  destruct (samefile src dst); by repeat constructor.
Qed.

Lemma emits_maybe_run_configure P dir :
  (forall fn, P (EvLog Debug (CheckingPath fn))) ->
  P (EvLog Info RunningConfigure) ->
  (forall call rc, P (EvPopen call rc)) ->
  emits P (InstallUninstall.maybe_run_configure dir).
Proof.
  intros H1 H2 H3. unfold InstallUninstall.maybe_run_configure.
  emits_tac; auto.
Qed.

Lemma emits_acquire P opts dir :
  (forall lvl msg, P (EvLog lvl msg)) -> (forall fn, P (EvUnlink fn)) ->
  emits P (acquire opts dir).
Proof.
  intros H1 H2. unfold acquire, Download.run, Download._get_local_file_name,
    Download.verify_checksum.
  emits_tac; auto.
Qed.

(** The calls of the build tool in a run are those of [_inun]. *)
Lemma emits_run (P : Event -> Prop) _inun opts dir :
  (forall e, step_of e = None -> P e) ->
  (forall call rc, P (EvPopen call rc)) ->
  (forall pdir, emits P (_inun opts pdir)) ->
  emits P (InstallUninstall._run _inun opts dir).
Proof.
  intros H1 H2 H3 s. rewrite run_pipeline. revert s.
  apply emits_bind.
  - apply emits_acquire; intros; by apply H1.
  - intros pdir. unfold pipeline. apply emits_bind; [|intros _; apply H3].
    apply emits_maybe_run_configure; intros; auto.
Qed.

(** X8.  The command given with [--sudo] is used for the last step alone:
    an install builds the target [all] without it and installs with it, an
    uninstall uses it for the target [uninstall], and the tests are run
    without it. *)
Theorem sudo_for_the_last_step opts dir s call rc :
  (EvMake call rc ∈ events (Install._run opts dir s) ->
     (mk_cmd call = ["all"] /\ mk_sudo call = None)
     \/ (mk_cmd call = ["install"] /\ mk_sudo call = opt_sudo opts))
  /\ (EvMake call rc ∈ events (Uninstall._run opts dir s) ->
        mk_cmd call = ["uninstall"] /\ mk_sudo call = opt_sudo opts)
  /\ (EvMake call rc ∈ events (Check._run opts dir s) ->
        mk_sudo call = None).
Proof.
  split; [|split]; intros Hin.
  - assert (Hemits : emits (fun e => forall call rc, e = EvMake call rc ->
                (mk_cmd call = ["all"] /\ mk_sudo call = None)
                \/ (mk_cmd call = ["install"] /\ mk_sudo call = opt_sudo opts))
              (Install._run opts dir)).
    { apply emits_run.
      - intros e He call' rc' ->. discriminate.
      - intros call' rc' call'' rc''. discriminate.
      - intros pdir. unfold Install._inun.
        apply emits_bind; [by apply emits_logger|intros _].
        apply emits_bind.
        { apply emits_run_make_call. intros rc' call' rc'' [= <- _]. by left. }
        intros _. apply emits_bind; [by apply emits_logger|intros _].
        apply emits_run_make_call. intros rc' call' rc'' [= <- _]. by right. }
    specialize (Hemits s). rewrite Forall_forall in Hemits.
    exact (Hemits _ Hin _ _ eq_refl).
  - assert (Hemits : emits (fun e => forall call rc, e = EvMake call rc ->
                mk_cmd call = ["uninstall"] /\ mk_sudo call = opt_sudo opts)
              (Uninstall._run opts dir)).
    { apply emits_run.
      - intros e He call' rc' ->. discriminate.
      - intros call' rc' call'' rc''. discriminate.
      - intros pdir. unfold Uninstall._inun.
        apply emits_bind; [by apply emits_logger|intros _].
        apply emits_run_make_call. by intros rc' call' rc'' [= <- _]. }
    specialize (Hemits s). rewrite Forall_forall in Hemits.
    exact (Hemits _ Hin _ _ eq_refl).
  - assert (Hemits : emits (fun e => forall call rc, e = EvMake call rc ->
                mk_sudo call = None)
              (Check._run opts dir)).
    { apply emits_run.
      - intros e He call' rc' ->. discriminate.
      - intros call' rc' call'' rc''. discriminate.
      - intros pdir. unfold Check._inun.
        apply emits_bind; [by apply emits_logger|intros _].
        apply emits_bind; [by apply emits_logger|intros _].
        apply emits_try_except.
        + apply emits_run_make_call. by intros rc' call' rc'' [= <- _].
        + intros e. apply emits_bind; [|intros; apply emits_raise].
          apply emits_for_each. intros ext.
          apply emits_bind; [apply emits_exists|intros []; [|apply emits_ret]].
          apply emits_bind; [by apply emits_logger|intros _].
          by apply emits_shutil_copy. }
    specialize (Hemits s). rewrite Forall_forall in Hemits.
    exact (Hemits _ Hin _ _ eq_refl).
Qed.

(** X9.  When the build of the target [all] fails with the exit code
    [rc], an install ends with the error "command returned rc": the target
    [install] is not run. *)
Theorem install_build_failure opts pdir s rc :
  (sys_make {| mk_cmd := ["all"]; mk_dir := pdir; mk_env := None;
               mk_sudo := None |} (world s) (fs s)).2 = rc ->
  rc <> 0%Z ->
  result (Install._inun opts pdir s)
  = Raise (PgxnClientException ("command returned " +:+ pretty rc))
  /\ steps (events (Install._inun opts pdir s)) = [Make ["all"]].
Proof.
  intros Hrc Hnz. unfold Install._inun. rewrite bind_logger.
  cbn [result events fst snd]. unfold bind at 1 3, run_make at 1 3.
  destruct (sys_make _ (world s) (fs s)) as [[w f] rc']. cbn in Hrc. subst rc'.
  apply Z.eqb_neq in Hnz. by rewrite Hnz.
Qed.

(** X10.  The tests are run by one call of the build tool, with the target
    [installcheck], followed by [CONTRIB_TESTDB=<database>] exactly when
    the connection options name a database; in its environment the
    connection variables come before those of the process. *)
Theorem check_command opts pdir s :
  let cmd := match get_psql_env !! "PGDATABASE" with
             | Some database => ["installcheck"; "CONTRIB_TESTDB=" +:+ database]
             | None => ["installcheck"]
             end in
  let env := get_psql_env ∪ os_environ in
  (exists rc tail,
     events (Check._inun opts pdir s)
     = EvLog Info CheckingExtension
       :: EvLog Debug (AdditionalEnv get_psql_env)
       :: EvMake {| mk_cmd := cmd; mk_dir := pdir; mk_env := Some env;
                    mk_sudo := None |} rc
       :: tail
     /\ Forall (fun e => step_of e = None) tail)
  /\ forall k, env !! k = match get_psql_env !! k with
                          | Some v => Some v
                          | None => os_environ !! k
                          end.
Proof.
  intros cmd env. split.
  - assert (Hcmd : installcheck = cmd).
    { unfold installcheck, cmd. unfold env.
      destruct (get_psql_env !! "PGDATABASE") as [d|] eqn:Hd.
      - rewrite bool_decide_eq_true_2 by done.
        by rewrite (lookup_union_Some_l _ _ _ _ Hd).
      - by rewrite bool_decide_eq_false_2 by (by intros [? ?]). }
    unfold Check._inun. rewrite !bind_logger. cbn [events snd].
    fold installcheck. rewrite Hcmd. fold env.
    unfold try_except.
    pose proof (emits_run_make_call (fun e => exists rc, e = EvMake
                  {| mk_cmd := cmd; mk_dir := pdir; mk_env := Some env;
                     mk_sudo := None |} rc) cmd pdir (Some env) None
                  (fun rc => ex_intro _ rc eq_refl) s) as Hmake.
    unfold run_make in *.
    destruct (sys_make _ (world s) (fs s)) as [[w f] rc].
    exists rc. destruct (rc =? 0)%Z; [by exists []|].
    cbn [Check.is_PgxnClientException].
    match goal with
    | |- context [bind ?m ?k ?s1] =>
        assert (Hh : Forall (fun e => step_of e = None) (events (bind m k s1)));
        [|destruct (bind m k s1) as [[r s2] ev2]; by exists ev2]
    end.
    apply emits_bind; [|intros; apply emits_raise].
    apply emits_for_each. intros ext.
    apply emits_bind; [apply emits_exists|intros []; [|apply emits_ret]].
    apply emits_bind; [by apply emits_logger|intros _].
    by apply emits_shutil_copy.
  - intros k. unfold env. rewrite lookup_union.
    destruct (get_psql_env !! k), (os_environ !! k); done.
Qed.

End MakeCalls.

Lemma install_build_failure_witness :
  result (Install._inun (Wd := Sample.failing_tests) Sample.with_sudo "/src/foo"
            Sample.tested_elsewhere)
  = Raise (PgxnClientException "command returned 1")
  /\ steps (events (Install._inun (Wd := Sample.failing_tests) Sample.with_sudo
                      "/src/foo" Sample.tested_elsewhere))
     = [Make ["all"]].
Proof.
  refine (install_build_failure (Wd := Sample.failing_tests) Sample.with_sudo
            "/src/foo" Sample.tested_elsewhere 1%Z _ _).
  - reflexivity.
  - discriminate.
Defined.

(** ** Check: the results of failed tests *)

Section CheckFailure.
Context {Wd : World} {Sh : Sha1}.

(** X11.  When the tests fail with the exit code [rc], and the two
    results in the source directory and the two files of these names in
    the current directory are four different files, [Check._inun] ends
    with the error "command returned rc" of the build tool, and each of
    [regression.out] and [regression.diffs] that the tests left in the
    source directory is then in the current directory, with the same
    content. *)
Theorem check_failure_saves_results opts pdir s w f rc :
  sys_make {| mk_cmd := installcheck; mk_dir := pdir;
              mk_env := Some (get_psql_env ∪ os_environ); mk_sudo := None |}
    (world s) (fs s) = (w, f, rc) ->
  rc <> 0%Z ->
  NoDup (realpath <$> [Path.join pdir "regression.out"; "./regression.out";
                       Path.join pdir "regression.diffs"; "./regression.diffs"]) ->
  result (Check._inun opts pdir s)
  = Raise (PgxnClientException ("command returned " +:+ pretty rc))
  /\ forall ext content,
       ext ∈ ["out"; "diffs"] ->
       f !! Path.join pdir ("regression." +:+ ext) = Some content ->
       fs (final (Check._inun opts pdir s)) !! ("./regression." +:+ ext)
       = Some content.
Proof.
  intros Hmake Hrc Hfiles.
  assert (Hout : samefile (Path.join pdir "regression.out") "./regression.out"
                 = false).
  { apply String.eqb_neq. intros Heq.
    apply NoDup_cons in Hfiles as [Hnotin _]. apply Hnotin.
    cbn [fmap list_fmap]. rewrite Heq. apply list_elem_of_here. }
  assert (Hdiffs : samefile (Path.join pdir "regression.diffs")
                     "./regression.diffs" = false).
  { apply String.eqb_neq. intros Heq.
    apply NoDup_cons in Hfiles as [_ Hfiles].
    apply NoDup_cons in Hfiles as [_ Hfiles].
    apply NoDup_cons in Hfiles as [Hnotin _]. apply Hnotin.
    cbn [fmap list_fmap]. rewrite Heq. apply list_elem_of_here. }
  pose proof (check_saves_results opts pdir s) as H. cbv zeta in H.
  destruct (H Hout Hdiffs) as [_ Hfail]. clear H.
  assert (Hm : run_make installcheck pdir (Some (get_psql_env ∪ os_environ))
                 None s
               = (Raise (PgxnClientException ("command returned " +:+ pretty rc)),
                  mkState w f (_loaded s),
                  [EvMake {| mk_cmd := installcheck; mk_dir := pdir;
                             mk_env := Some (get_psql_env ∪ os_environ);
                             mk_sudo := None |} rc])).
  { unfold run_make. rewrite Hmake. apply Z.eqb_neq in Hrc. by rewrite Hrc. }
  destruct (Hfail _ (f_equal result Hm)) as (Hres & _ & Hcopy).
  split; [exact Hres|]. intros ext content Hext Hin.
  apply Hcopy; [exact Hext|]. by rewrite Hm.
Qed.

End CheckFailure.

Lemma check_failure_saves_results_witness :
  result (Check._inun (Wd := Sample.failing_tests) Sample.local "/src/foo"
            Sample.tested_elsewhere)
  = Raise (PgxnClientException "command returned 1")
  /\ fs (final (Check._inun (Wd := Sample.failing_tests) Sample.local "/src/foo"
                  Sample.tested_elsewhere)) !! "./regression.out"
     = Some [Byte.x6f].
Proof.
  destruct (check_failure_saves_results (Wd := Sample.failing_tests)
              Sample.local "/src/foo" Sample.tested_elsewhere tt
              (fs Sample.tested_elsewhere) 1%Z) as [Hres Hcopy].
  - reflexivity.
  - discriminate.
  - apply (bool_decide_unpack _). vm_compute. exact I.
  - split; [exact Hres|].
    apply (Hcopy "out" [Byte.x6f]); [apply list_elem_of_here|reflexivity].
Defined.

(** ** Install, Uninstall, Check: a download that fails *)

Section FailedDownload.
Context {Wd : World} {Sh : Sha1}.

(** X12.  When the distribution is given by name and its download fails,
    for one a wrong checksum, [_run] ends with the error of the download:
    nothing is unpacked, and neither [configure] nor the build tool is
    run. *)
Theorem failed_download_builds_nothing _inun opts dir s name ver e :
  opt_spec opts = SpecName name ver ->
  let download := Download.run {| opt_spec := opt_spec opts; opt_target := dir;
                                 opt_sudo := opt_sudo opts |} s in
  result download = Raise e ->
  result (InstallUninstall._run _inun opts dir s) = Raise e
  /\ final (InstallUninstall._run _inun opts dir s) = final download
  /\ steps (events (InstallUninstall._run _inun opts dir s)) = [].
Proof.
  intros Hspec download Hfail.
  assert (Hacq : acquire opts dir s = (Raise e, final download, events download)).
  { unfold acquire. rewrite Hspec.
    rewrite <- Hspec. by apply bind_result_raise. }
  rewrite run_pipeline, (bind_raise _ _ _ _ _ _ Hacq).
  split; [done|]. split; [done|]. cbn [events snd].
  pose proof (omap_emits step_of (acquire opts dir) s (acquire_no_step opts dir))
    as Hno.
  by rewrite Hacq in Hno.
Qed.

End FailedDownload.

Lemma failed_download_builds_nothing_witness :
  result (Install._run (Wd := Sample.tampered) (Sh := Sample.sha)
            Sample.remote "/tmp/pgxn" Sample.empty_tampered)
  = Raise (BadChecksum "bad sha1 in downloaded file")
  /\ steps (events (Install._run (Wd := Sample.tampered) (Sh := Sample.sha)
                      Sample.remote "/tmp/pgxn" Sample.empty_tampered))
     = [].
Proof.
  destruct (failed_download_builds_nothing (Wd := Sample.tampered)
              (Sh := Sample.sha) Install._inun Sample.remote "/tmp/pgxn"
              Sample.empty_tampered "foobar" "1.0.0"
              (BadChecksum "bad sha1 in downloaded file") eq_refl)
    as (Hres & _ & Hsteps).
  - vm_compute. reflexivity.
  - split; [exact Hres|exact Hsteps].
Defined.

(** ** find_sql_file: the set of paths tried, and the directory of the file *)

Section FindSqlFile.
Context {Wd : World}.
Import LoadUnload.

Lemma append_inj_l (a b c : string) : a +:+ b = a +:+ c -> b = c.
Proof.
  induction a as [|x a IH]; [done|].
  change (String x a +:+ b) with (String x (a +:+ b)).
  change (String x a +:+ c) with (String x (a +:+ c)).
  intros [= H]. by apply IH.
Qed.

(** The loop probes no path twice, and no path it has tried before. *)
Lemma find_sql_loop_probes_once sharedir tries tried s :
  let evs := events (find_sql_loop sharedir tries tried s) in
  NoDup (probes evs)
  /\ forall t, t ∈ tried -> sharedir +:+ "/" +:+ t ∉ probes evs.
Proof.
  revert tried. induction tries as [|t tries IH]; intros tried; cbv zeta.
  - split; [constructor|]. intros t _. apply not_elem_of_nil.
  - cbn [find_sql_loop]. case_bool_decide as Ht; [apply IH|].
    rewrite bind_logger. cbn [events snd].
    destruct (IH (tried ∪ {[t]})) as [Hnodup Hfresh].
    assert (Hprobes : exists rest,
              probes (events (bind (exists_ (sharedir +:+ "/" +:+ t))
                (fun e => if e : bool then ret (Some (sharedir +:+ "/" +:+ t))
                          else find_sql_loop sharedir tries (tried ∪ {[t]})) s))
              = rest
              /\ NoDup rest
              /\ forall t', t' ∈ tried ∪ {[t]} ->
                   sharedir +:+ "/" +:+ t' ∉ rest).
    { eexists. split; [reflexivity|]. unfold bind, exists_.
      destruct (bool_decide (is_Some (fs s !! (sharedir +:+ "/" +:+ t)))).
      - split; [constructor|]. intros t' _. apply not_elem_of_nil.
      - destruct (find_sql_loop sharedir tries (tried ∪ {[t]}) s)
          as [[r s2] ev2]. by split. }
    destruct Hprobes as (rest & Heq & Hrest & Hnot).
    unfold probes in *. cbn [omap list_omap probe_of]. rewrite Heq.
    split.
    + constructor; [|exact Hrest]. apply Hnot, elem_of_union. right.
      by apply elem_of_singleton.
    + intros t' Ht'. apply not_elem_of_cons. split.
      * intros Heq'. apply append_inj_l, append_inj_l in Heq'. by subst t'.
      * apply Hnot, elem_of_union. by left.
Qed.

(** X13.  [find_sql_file] probes no path twice.  In particular, when the
    file name without its extension is the name of the extension, as for
    [foo] and [foo.sql], at most two paths are probed. *)
Theorem find_sql_file_probes_once name sqlfile s :
  NoDup (probes (events (find_sql_file name sqlfile s)))
  /\ (Str.rsplit1_head "." (Path.basename sqlfile) = name ->
      length (probes (events (find_sql_file name sqlfile s))) <= 2).
Proof.
  assert (Hnodup : NoDup (probes (events (find_sql_file name sqlfile s)))).
  { unfold find_sql_file. rewrite events_bind. unfold probes. rewrite omap_app.
    match goal with
    | |- NoDup (_ ++ omap _ ?tail) => assert (Htail : omap probe_of tail = [])
    end.
    { destruct (result _) as [[fn|]|e]; reflexivity. }
    rewrite Htail, app_nil_r.
    apply (find_sql_loop_probes_once (call_pg_config "sharedir") _ ∅ s). }
  split; [exact Hnodup|]. intros Hstem.
  destruct (find_sql_file_run name sqlfile s) as (_ & _ & _ & Hin).
  cbv zeta in Hin. unfold candidates in Hin. rewrite Hstem in Hin.
  set (l := probes _) in *.
  set (c1 := call_pg_config "sharedir" +:+ "/"
             +:+ (name +:+ "/" +:+ Path.basename sqlfile)) in *.
  set (c3 := call_pg_config "sharedir" +:+ "/"
             +:+ ("contrib/" +:+ Path.basename sqlfile)) in *.
  assert (Hsub : l ⊆ [c1; c3]).
  { intros fn Hfn. rewrite Forall_forall in Hin.
    specialize (Hin fn Hfn).
    apply elem_of_cons in Hin as [->|Hin]; [apply list_elem_of_here|exact Hin]. }
  apply (submseteq_length l [c1; c3]). by apply NoDup_submseteq.
Qed.

Lemma basename_flat f : Str.contains "/" f = false -> Path.basename f = f.
Proof. intros Hf. by apply (basename_app_flat "" f). Qed.

Lemma basename_slash f :
  Str.contains "/" f = false -> Path.basename ("/" +:+ f) = f.
Proof.
  intros Hf. unfold Path.basename, Str.rfind.
  change ("/" +:+ f) with (String "/" f). cbn [Str.rfind_from].
  change (Ascii.eqb "/" "/") with true. cbn match.
  rewrite (rfind_from_absent _ f _ _ Hf). reflexivity.
Qed.

(** X14.  [find_sql_file] takes no account of the directory of the file
    name it is given: with [dir/f] it does what it does with [f]. *)
Theorem find_sql_file_flattens name dir f s :
  Str.contains "/" f = false ->
  find_sql_file name (dir +:+ "/" +:+ f) s = find_sql_file name f s.
Proof.
  intros Hf. unfold find_sql_file.
  rewrite (basename_app_dir dir ("/" +:+ f)) by reflexivity.
  by rewrite (basename_slash f Hf), (basename_flat f Hf).
Qed.

End FindSqlFile.

Lemma find_sql_file_probes_once_witness :
  length (probes (events (LoadUnload.find_sql_file (Wd := Sample.quiet)
                            "foo" "foo.sql" Sample.two_places))) <= 2.
Proof.
  apply (proj2 (find_sql_file_probes_once (Wd := Sample.quiet) "foo" "foo.sql"
                  Sample.two_places)).
  vm_compute. reflexivity.
Defined.

Lemma find_sql_file_flattens_witness :
  LoadUnload.find_sql_file (Wd := Sample.quiet) "foo" ("sql" +:+ "/" +:+ "bar.sql")
    Sample.two_places
  = LoadUnload.find_sql_file (Wd := Sample.quiet) "foo" "bar.sql"
      Sample.two_places.
Proof.
  apply (find_sql_file_flattens (Wd := Sample.quiet)). reflexivity.
Defined.

(** ** Load and Unload: the files registered as loaded *)

Section Registered.
Context {Wd : World}.
Import LoadUnload.

Lemma keeps_loaded_for_each {A} (l : list A) (body : A -> M unit) :
  (forall a, keeps_loaded (body a)) -> keeps_loaded (for_each l body).
Proof.
  intros Hb. induction l as [|a l IH]; cbn [for_each].
  - apply keeps_loaded_ret.
  - apply keeps_loaded_bind; [apply Hb|intros _; apply IH].
Qed.

(** X15.  A load of an object that fails registers no file: the files
    [_is_loaded] answers yes for are those of before.  So a script on
    which [psql] has failed is executed again by a later activation. *)
Theorem load_ext_failure_registers_nothing name sqlfile s e :
  result (Load.load_ext name sqlfile s) = Raise e ->
  _loaded (final (Load.load_ext name sqlfile s)) = _loaded s.
Proof.
  rewrite load_ext_locate, result_bind, final_bind.
  pose proof (keeps_loaded_load_locate name sqlfile s) as Hsame.
  destruct (result (Load_locate name sqlfile s)) as [[fn|]|e']; [|done|done].
  rewrite <- Hsame. generalize (final (Load_locate name sqlfile s)). clear.
  intros s. unfold Load_finish. rewrite result_bind, final_bind.
  change (result (_is_loaded fn s))
    with (Ok (A := bool) match _loaded s with
              | Some l => bool_decide (fn ∈ l)
              | None => false
              end).
  change (final (_is_loaded fn s)) with s. cbv beta iota.
  destruct (match _loaded s with Some l => bool_decide (fn ∈ l) | None => false end);
    [discriminate|].
  rewrite result_bind, final_bind.
  pose proof (keeps_loaded_load_sql (Some fn) None s) as Hsql.
  destruct (result (load_sql (Some fn) None s)); [discriminate|done].
Qed.

(** X16.  An unload never changes the files registered as loaded, and
    never reports a file as already loaded: the whole run leaves [_loaded]
    as it found it. *)
Theorem unload_run_keeps_loaded opts s :
  _loaded (final (Unload.run opts s)) = _loaded s
  /\ skipped (events (Unload.run opts s)) = [].
Proof.
  split.
  - apply (keeps_loaded_bind (get_meta (opt_spec opts))).
    + apply keeps_loaded_get_meta.
    + intros dist. apply keeps_loaded_for_each. intros [name data].
      apply keeps_loaded_unload_ext.
  - apply (omap_emits skipped_of (Unload.run opts) s).
    unfold Unload.run. apply emits_bind; [apply emits_get_meta|].
    intros dist. apply emits_for_each. intros [name data].
    unfold Unload.load_ext. emits_activation; reflexivity.
Qed.

(** X20.  After [_register_loaded fn], [_is_loaded] answers yes for [fn]
    and, for any other file, what it answered before; on a new command
    object it answers no for every file. *)
Theorem register_then_is_loaded fn g s :
  exists before,
    result (_is_loaded g s) = Ok before
    /\ result (_is_loaded g (final (_register_loaded fn s)))
       = Ok (before || bool_decide (g = fn))
    /\ (_loaded s = None -> before = false).
Proof.
  unfold _is_loaded, _register_loaded. cbn [result final fst snd _loaded].
  eexists. split; [reflexivity|]. split; [|by intros ->].
  f_equal. destruct (_loaded s) as [l|].
  - rewrite <- bool_decide_or. apply bool_decide_ext.
    by rewrite elem_of_app, list_elem_of_singleton.
  - cbn [app orb]. apply bool_decide_ext. by rewrite list_elem_of_singleton.
Qed.

End Registered.

Lemma load_ext_failure_registers_nothing_witness :
  _loaded (final (Load.load_ext (Wd := Sample.failing) "foo" None
                    Sample.failing_configure))
  = _loaded Sample.failing_configure.
Proof.
  apply (load_ext_failure_registers_nothing (Wd := Sample.failing) "foo" None
           Sample.failing_configure
           (PgxnClientException "psql returned 2 running command")).
  vm_compute. reflexivity.
Defined.

(** ** Load and Unload: what is run, and what is not *)

Section PsqlOnly.
Context {Wd : World}.
Import LoadUnload.

(** What holds of every log line, of every question and of every call of
    [psql] with the connection options holds of every event of an
    activation. *)
Lemma emits_psql_only_load_ext (P : Event -> Prop) name sqlfile :
  (forall lvl msg, P (EvLog lvl msg)) ->
  (forall prompt yes, P (EvConfirm prompt yes)) ->
  (forall call rc rest,
     argv call = [find_psql] ++ get_psql_options ++ rest ->
     P (EvPopen call rc)) ->
  emits P (Load.load_ext name sqlfile) /\ emits P (Unload.load_ext name sqlfile).
Proof.
  intros Hlog Hask Hrun.
  assert (Hver : emits P get_pg_version).
  { unfold get_pg_version, call_psql.
    emits_tac; auto using emits_parse_pg_version.
    eapply Hrun. cbn [argv]. by rewrite <- !app_assoc. }
  assert (Hsql : forall filename data, emits P (load_sql filename data)).
  { intros filename data. unfold load_sql. emits_tac; auto.
    all: eapply Hrun; cbn [argv]; by rewrite app_nil_r. }
  split.
  - unfold Load.load_ext, Load.create_extension.
    repeat first [ apply Hver | apply Hsql
                 | apply emits_is_extension; intros ?
                 | apply emits_find_sql_file; intros ?
                 | emits_step ]; auto.
  - unfold Unload.load_ext, Unload.drop_extension.
    repeat first [ apply Hver | apply Hsql
                 | apply emits_is_extension; intros ?
                 | apply emits_find_sql_file; intros ?
                 | emits_step ]; auto.
Qed.

(** X17.  A load or an unload runs no program other than [psql], always
    with the connection options as its first arguments; it never calls the
    build tool, and it removes and copies no file. *)
Theorem load_unload_run_psql_only opts s e :
  e ∈ events (Load.run opts s) \/ e ∈ events (Unload.run opts s) ->
  match e with
  | EvPopen call _ =>
      exists rest, argv call = [find_psql] ++ get_psql_options ++ rest
  | EvMake _ _ | EvUnlink _ | EvCopy _ _ => False
  | EvLog _ _ | EvConfirm _ _ => True
  end.
Proof.
  set (P := fun e : Event =>
         match e with
         | EvPopen call _ =>
             exists rest, argv call = [find_psql] ++ get_psql_options ++ rest
         | EvMake _ _ | EvUnlink _ | EvCopy _ _ => False
         | EvLog _ _ | EvConfirm _ _ => True
         end).
  assert (Hext : forall name sqlfile,
            emits P (Load.load_ext name sqlfile)
            /\ emits P (Unload.load_ext name sqlfile)).
  { intros name sqlfile. apply emits_psql_only_load_ext; [done|done|].
    intros call rc rest Hargv. by exists rest. }
  assert (Hload : emits P (Load.run opts)).
  { unfold Load.run. apply emits_bind; [apply emits_get_meta|].
    intros dist. apply emits_for_each. intros [name data]. apply Hext. }
  assert (Hunload : emits P (Unload.run opts)).
  { unfold Unload.run. apply emits_bind; [apply emits_get_meta|].
    intros dist. apply emits_for_each. intros [name data]. apply Hext. }
  specialize (Hload s). specialize (Hunload s).
  rewrite Forall_forall in Hload, Hunload.
  intros [Hin|Hin]; [by apply Hload|by apply Hunload].
Qed.

(** X18.  When the query for the version of the server fails with the exit
    code [rc], a load and an unload of an object whose file name is absent
    or ends in [.sql] end with the error "psql returned rc running
    command": no question is asked, no command is piped and no file is
    executed. *)
Theorem version_query_failure name sqlfile s w f rc out :
  let query := {| argv := ([find_psql] ++ get_psql_options ++ ["-tA"])
                          ++ ["-c"; "SELECT version();"];
                  cwd := None; penv := None; stdin := StdinInherit |} in
  let error := PgxnClientException
                 ("psql returned " +:+ pretty rc +:+ " running command") in
  given sqlfile && negb (Str.endswith (default "" sqlfile) ".sql") = false ->
  sys_popen query (world s) (fs s) = (w, f, rc, out) ->
  rc <> 0%Z ->
  (Load.load_ext name sqlfile s
   = (Raise error, mkState w f (_loaded s),
      [EvLog Debug (LoadingExtension name sqlfile);
       EvLog Debug (Calling (argv query)); EvPopen query rc]))
  /\ (Unload.load_ext name sqlfile s
      = (Raise error, mkState w f (_loaded s),
         [EvLog Debug (UnloadingExtension name sqlfile);
          EvLog Debug (Calling (argv query)); EvPopen query rc])).
Proof.
  intros query error Hsql Hpopen Hrc.
  assert (Hver : get_pg_version s
                 = (Raise error, mkState w f (_loaded s),
                    [EvLog Debug (Calling (argv query)); EvPopen query rc])).
  { unfold get_pg_version, call_psql. cbv zeta.
    rewrite <- !app_assoc. fold query in Hpopen |- *.
    unfold query in Hpopen. rewrite <- !app_assoc in Hpopen.
    unfold bind, logger, emit, popen. cbn [world fs _loaded].
    rewrite Hpopen. apply Z.eqb_neq in Hrc. rewrite Hrc. cbn [negb].
    unfold query. by rewrite <- !app_assoc. }
  split.
  - unfold Load.load_ext. rewrite Hsql, bind_logger.
    by rewrite (bind_raise _ _ _ _ _ _ Hver).
  - unfold Unload.load_ext. rewrite Hsql, bind_logger.
    by rewrite (bind_raise _ _ _ _ _ _ Hver).
Qed.

End PsqlOnly.

Lemma load_unload_run_psql_only_witness :
  exists rest,
    [@LoadUnload.find_psql Sample.quiet; "-tA"; "-c"; "SELECT version();"]
    = [@LoadUnload.find_psql Sample.quiet] ++ @get_psql_options Sample.quiet ++ rest.
Proof.
  apply (load_unload_run_psql_only (Wd := Sample.quiet) Sample.remote
           Sample.installed
           (EvPopen {| argv := [@LoadUnload.find_psql Sample.quiet; "-tA"; "-c";
                                "SELECT version();"];
                       cwd := None; penv := None; stdin := StdinInherit |} 0)).
  left. apply list_elem_of_In. vm_compute. right. right. left. reflexivity.
Defined.

Lemma version_query_failure_witness :
  result (Load.load_ext (Wd := Sample.failing) "foo" None
            Sample.failing_configure)
  = Raise (PgxnClientException "psql returned 2 running command").
Proof.
  refine (f_equal result
            (proj1 (version_query_failure (Wd := Sample.failing) "foo" None
                      Sample.failing_configure tt
                      (fs Sample.failing_configure) 2%Z Sample.pg92 _ _ _))).
  - reflexivity.
  - reflexivity.
  - discriminate.
Defined.

(** ** Install, Uninstall, Check: no question, and the files copied *)

Section NoQuestion.
Context {Wd : World} {Sh : Sha1}.

Lemma emits_run_events (P : Event -> Prop) _inun opts dir :
  (forall lvl msg, P (EvLog lvl msg)) ->
  (forall fn, P (EvUnlink fn)) ->
  (forall call rc, P (EvPopen call rc)) ->
  (forall pdir, emits P (_inun opts pdir)) ->
  emits P (InstallUninstall._run _inun opts dir).
Proof.
  intros H1 H2 H3 H4 s. rewrite run_pipeline. revert s.
  apply emits_bind.
  - by apply emits_acquire.
  - intros pdir. unfold pipeline. apply emits_bind; [|intros _; apply H4].
    apply emits_maybe_run_configure; intros; auto.
Qed.

(** X19.  An install, an uninstall and a check ask the user nothing.  An
    install and an uninstall copy no file; a check copies a file to
    nowhere but [./regression.out] and [./regression.diffs]. *)
Theorem build_commands_ask_nothing opts dir s e :
  (e ∈ events (Install._run opts dir s)
   \/ e ∈ events (Uninstall._run opts dir s) ->
   match e with
   | EvConfirm _ _ | EvCopy _ _ => False
   | _ => True
   end)
  /\ (e ∈ events (Check._run opts dir s) ->
      match e with
      | EvConfirm _ _ => False
      | EvCopy src dst =>
          exists ext, ext ∈ ["out"; "diffs"] /\ dst = "./regression." +:+ ext
      | _ => True
      end).
Proof.
  split.
  - set (P := fun e : Event =>
           match e with
           | EvConfirm _ _ | EvCopy _ _ => False
           | _ => True
           end).
    assert (Hinstall : emits P (Install._run opts dir)).
    { apply emits_run_events; try done. intros pdir. unfold Install._inun.
      repeat first [ apply emits_run_make_call; intros ? | emits_step ]; done. }
    assert (Huninstall : emits P (Uninstall._run opts dir)).
    { apply emits_run_events; try done. intros pdir. unfold Uninstall._inun.
      repeat first [ apply emits_run_make_call; intros ? | emits_step ]; done. }
    specialize (Hinstall s). specialize (Huninstall s).
    rewrite Forall_forall in Hinstall, Huninstall.
    intros [Hin|Hin]; [by apply Hinstall|by apply Huninstall].
  - set (P := fun e : Event =>
           match e with
           | EvConfirm _ _ => False
           | EvCopy src dst =>
               exists ext, ext ∈ ["out"; "diffs"] /\ dst = "./regression." +:+ ext
           | _ => True
           end).
    assert (Hcheck : emits P (Check._run opts dir)).
    { apply emits_run_events; try done. intros pdir. unfold Check._inun.
      apply emits_bind; [by apply emits_logger|intros _].
      apply emits_bind; [by apply emits_logger|intros _].
      apply emits_try_except; [by apply emits_run_make_call|].
      intros e'. apply emits_bind; [|intros; apply emits_raise].
      assert (Hloop : forall l : list string,
                (forall ext, ext ∈ l -> ext ∈ ["out"; "diffs"]) ->
                emits P (for_each l (fun ext =>
                  let fn := Path.join pdir ("regression." +:+ ext) in
                  e ← exists_ fn;
                  if e then
                    logger Info (CopyingRegression ext);;
                    shutil_copy fn ("./regression." +:+ ext)
                  else ret tt))).
      { induction l as [|ext l IH]; intros Hl; cbn [for_each];
          [apply emits_ret|].
        apply emits_bind;
          [|intros _; apply IH; intros x Hx; apply Hl; by right].
        cbv zeta. apply emits_bind; [apply emits_exists|].
        intros []; [|apply emits_ret].
        apply emits_bind; [by apply emits_logger|intros _].
        apply emits_shutil_copy. exists ext. split; [|done].
        apply Hl. by left. }
      by apply Hloop. }
    specialize (Hcheck s). rewrite Forall_forall in Hcheck.
    intros Hin. by apply Hcheck.
Qed.

End NoQuestion.

Lemma build_commands_ask_nothing_witness :
  exists ext, ext ∈ ["out"; "diffs"]
              /\ "./regression.out" = "./regression." +:+ ext.
Proof.
  apply (proj2 (build_commands_ask_nothing (Wd := Sample.failing_tests)
                  (Sh := Sample.sha) Sample.local "/tmp/pgxn"
                  Sample.tested_elsewhere
                  (EvCopy "/src/foo/regression.out" "./regression.out"))).
  apply list_elem_of_In. vm_compute. do 5 right. left. reflexivity.
Defined.

(** ** Download: the name of the local file *)

Section LocalFileName.
Context {Wd : World} {Sh : Sha1}.

(** A string with a [c] in it is cut at its last [c]. *)
Lemma last_split c s :
  Str.contains c s = true ->
  exists a b, s = a +:+ String c b /\ Str.contains c b = false.
Proof.
  induction s as [|x r IH]; [discriminate|]. cbn [Str.contains].
  destruct (Str.contains c r) eqn:Hr.
  - intros _. destruct (IH eq_refl) as (a & b & -> & Hb).
    by exists (String x a), b.
  - rewrite orb_false_r. intros ->%Ascii.eqb_eq. by exists "", r.
Qed.

Lemma rsplit1_last_app c a b :
  Str.contains c b = false -> Str.rsplit1_last c (a +:+ String c b) = b.
Proof.
  intros Hb. unfold Str.rsplit1_last, Str.rfind.
  rewrite rfind_from_app. cbn [Str.rfind_from]. rewrite Ascii.eqb_refl.
  rewrite (rfind_from_absent _ b _ _ Hb).
  replace (Z.to_nat (0 + Z.of_nat (String.length a) + 1))
    with (String.length a + 1) by lia.
  by rewrite str_drop_app.
Qed.

Lemma rsplit1_last_flat c s :
  Str.contains c s = false -> Str.rsplit1_last c s = s.
Proof.
  intros Hs. unfold Str.rsplit1_last, Str.rfind.
  by rewrite (rfind_from_absent _ s _ _ Hs).
Qed.

(** What is after the last [c] of [s] is the end of [s], without any
    [c]; what is before it is empty or ends with [c]. *)
Lemma rsplit1_last_suffix c s :
  Str.contains c (Str.rsplit1_last c s) = false
  /\ exists d, s = d +:+ Str.rsplit1_last c s
               /\ (d = "" \/ exists d', d = d' +:+ String c "").
Proof.
  destruct (Str.contains c s) eqn:Hs.
  - destruct (last_split c s Hs) as (a & b & -> & Hb).
    rewrite (rsplit1_last_app c a b Hb). split; [exact Hb|].
    exists (a +:+ String c ""). split; [|right; by exists a].
    clear. induction a as [|x a IH]; [done|].
    change (String x a +:+ String c b) with (String x (a +:+ String c b)).
    rewrite IH. reflexivity.
  - rewrite (rsplit1_last_flat c s Hs). split; [exact Hs|].
    exists "". split; [done|by left].
Qed.

(** X21.  When the target is a directory, the local file of a download is
    the target, a slash unless the target is empty or ends with one, and
    the name [b] that follows the last slash of the path of the URL: the
    path is [d] followed by [b], where [b] has no slash and [d] is empty
    or ends with a slash, so that the URL chooses the name of the file and
    no directory.  When the target is no directory, the local file is the
    target itself.  Nothing is logged or changed. *)
Theorem local_file_name_in_target opts url s :
  exists fn,
    Download._get_local_file_name opts url s = (Ok (abspath fn), s, [])
    /\ if sys_isdir (opt_target opts) (world s) then
         exists d b,
           urlsplit_path url = d +:+ b
           /\ Str.contains "/" b = false
           /\ (d = "" \/ exists d', d = d' +:+ "/")
           /\ fn = opt_target opts
                   +:+ (if String.eqb (opt_target opts) ""
                           || Str.endswith (opt_target opts) "/"
                        then "" else "/")
                   +:+ b
       else fn = opt_target opts.
Proof.
  unfold Download._get_local_file_name, bind, isdir. cbn [result final events].
  destruct (sys_isdir (opt_target opts) (world s)).
  - eexists. split; [reflexivity|].
    destruct (rsplit1_last_suffix "/" (urlsplit_path url))
      as [Hb (d & Hd & Hslash)].
    set (b := Str.rsplit1_last "/" (urlsplit_path url)) in *.
    exists d, b. split; [exact Hd|]. split; [exact Hb|].
    split; [exact Hslash|].
    unfold Path.join.
    assert (Hstart : Str.startswith b "/" = false).
    { destruct b as [|x b']; [done|]. cbn [Str.contains] in Hb.
      apply orb_false_elim in Hb as [Hx _]. unfold Str.startswith.
      change (String.prefix "/" (String x b'))
        with (if ascii_dec "/" x then String.prefix "" b' else false).
      destruct (ascii_dec "/" x) as [<-|Hne]; [|reflexivity].
      by rewrite Ascii.eqb_refl in Hx. }
    rewrite Hstart.
    by destruct (String.eqb (opt_target opts) ""
                 || Str.endswith (opt_target opts) "/").
  - by eexists.
Qed.

End LocalFileName.

(** ** Load and Unload: objects that are no SQL scripts *)

Section NotSql.
Context {Wd : World}.
Import LoadUnload.

Lemma for_each_not_sql (load_ext : string -> option string -> M unit)
    (started : string -> option string -> LogMsg)
    (provs : list (string * Provided)) s :
  (forall name sqlfile s,
     given sqlfile && negb (Str.endswith (default "" sqlfile) ".sql") = true ->
     load_ext name sqlfile s
     = (Ok tt, s, [EvLog Debug (started name sqlfile);
                   EvLog Info (NotSql (default "" sqlfile) name)])) ->
  Forall (fun p => given (file p.2)
                   && negb (Str.endswith (default "" (file p.2)) ".sql") = true)
         provs ->
  exists evs,
    for_each provs (fun '(name, data) => load_ext name (file data)) s
    = (Ok tt, s, evs)
    /\ Forall (fun e => exists lvl msg, e = EvLog lvl msg) evs.
Proof.
  intros Hext Hall. induction Hall as [|[name data] provs Hp _ IH].
  - exists []. by split.
  - destruct IH as (evs & Heq & Hevs). cbn [for_each].
    rewrite (bind_ok _ _ _ _ _ _ (Hext name (file data) s Hp)), Heq.
    eexists. split; [reflexivity|]. cbn [events snd app].
    repeat (constructor; [by eexists; eexists|]). exact Hevs.
Qed.

(** X22.  When every object of the distribution names a file that does not
    end in [.sql], a load and an unload return after the metadata are read
    and a log of each object: no program is run and no question is
    asked. *)
Theorem run_without_sql opts s dist :
  result (get_meta (opt_spec opts) s) = Ok dist ->
  Forall (fun p => given (file p.2)
                   && negb (Str.endswith (default "" (file p.2)) ".sql") = true)
         (provides dist) ->
  (result (Load.run opts s) = Ok tt
   /\ final (Load.run opts s) = final (get_meta (opt_spec opts) s)
   /\ Forall (fun e => exists lvl msg, e = EvLog lvl msg)
             (events (Load.run opts s)))
  /\ (result (Unload.run opts s) = Ok tt
      /\ final (Unload.run opts s) = final (get_meta (opt_spec opts) s)
      /\ Forall (fun e => exists lvl msg, e = EvLog lvl msg)
                (events (Unload.run opts s))).
Proof.
  intros Hmeta Hall.
  assert (Hload : forall name sqlfile s,
            given sqlfile && negb (Str.endswith (default "" sqlfile) ".sql") = true ->
            Load.load_ext name sqlfile s
            = (Ok tt, s, [EvLog Debug (LoadingExtension name sqlfile);
                          EvLog Info (NotSql (default "" sqlfile) name)])).
  { intros name sqlfile s' Hno. unfold Load.load_ext. by rewrite Hno. }
  assert (Hunload : forall name sqlfile s,
            given sqlfile && negb (Str.endswith (default "" sqlfile) ".sql") = true ->
            Unload.load_ext name sqlfile s
            = (Ok tt, s, [EvLog Debug (UnloadingExtension name sqlfile);
                          EvLog Info (NotSql (default "" sqlfile) name)])).
  { intros name sqlfile s' Hno. unfold Unload.load_ext. by rewrite Hno. }
  split.
  - destruct (for_each_not_sql Load.load_ext LoadingExtension (provides dist)
                (final (get_meta (opt_spec opts) s)) Hload Hall)
      as (evs & Heq & Hevs).
    unfold Load.run. rewrite (bind_result_ok _ _ _ _ Hmeta), Heq.
    by rewrite get_meta_events.
  - destruct (for_each_not_sql Unload.load_ext UnloadingExtension
                (reverse (provides dist))
                (final (get_meta (opt_spec opts) s)) Hunload
                (proj2 (Forall_reverse _ _) Hall))
      as (evs & Heq & Hevs).
    unfold Unload.run. rewrite (bind_result_ok _ _ _ _ Hmeta). cbv zeta.
    rewrite Heq. by rewrite get_meta_events.
Qed.

(** X23.  A load of an object with a file name asks the user one question
    at most, the one on the control file that is missing: it never asks
    whether the file is the right one. *)
Theorem load_ext_with_file_asks_once name hint s prompt yes :
  given (Some hint) = true ->
  EvConfirm prompt yes ∈ events (Load.load_ext name (Some hint) s) ->
  prompt = LooseObjects name.
Proof.
  intros Hgiven Hin.
  assert (Hemits : emits (fun e => forall prompt yes,
                            e = EvConfirm prompt yes -> prompt = LooseObjects name)
                     (Load.load_ext name (Some hint))).
  { unfold Load.load_ext. rewrite Hgiven. cbn [negb].
    emits_activation; try discriminate.
    by intros ? ? [= <- _]. }
  specialize (Hemits s). rewrite Forall_forall in Hemits.
  exact (Hemits _ Hin _ _ eq_refl).
Qed.

End NotSql.

Lemma run_without_sql_witness :
  result (Load.run (Wd := Sample.binary_world) Sample.remote
            (Sample.state (Wd := Sample.binary_world) tt []))
  = Ok tt
  /\ result (Unload.run (Wd := Sample.binary_world) Sample.remote
               (Sample.state (Wd := Sample.binary_world) tt []))
     = Ok tt.
Proof.
  destruct (run_without_sql (Wd := Sample.binary_world) Sample.remote
              (Sample.state (Wd := Sample.binary_world) tt []) Sample.binary)
    as [[Hload _] [Hunload _]].
  - reflexivity.
  - repeat constructor.
  - by split.
Defined.

Lemma load_ext_with_file_asks_once_witness :
  EvConfirm (LooseObjects "bar") true
  ∈ events (Load.load_ext (Wd := Sample.quiet) "bar" (Some "bar.sql")
              Sample.installed)
  /\ LooseObjects "bar" = LooseObjects "bar".
Proof.
  assert (Hin : EvConfirm (LooseObjects "bar") true
                ∈ events (Load.load_ext (Wd := Sample.quiet) "bar"
                            (Some "bar.sql") Sample.installed)).
  { apply list_elem_of_In. vm_compute. do 5 right. left. reflexivity. }
  split; [exact Hin|].
  exact (load_ext_with_file_asks_once (Wd := Sample.quiet) "bar" "bar.sql"
           Sample.installed (LooseObjects "bar") true eq_refl Hin).
Defined.

(** ** Load and Unload: the script of an object without a file name *)

Section ScriptNames.
Context {Wd : World}.
Import LoadUnload.

Lemma within_version paths : emits (within paths) get_pg_version.
Proof.
  apply emits_get_pg_version; intros; apply within_other; try done.
  all: cbn; match goal with Hin : stdin _ = _ |- _ => by rewrite Hin end.
Qed.

Lemma within_piped paths call rc data :
  stdin call = StdinPipe data -> within paths (EvPopen call rc).
Proof. intros Hin. apply within_other; cbn; by rewrite ?Hin. Qed.

Lemma within_load_sql_file paths fn :
  fn ∈ paths -> emits (within paths) (load_sql (Some fn) None).
Proof.
  intros Hfn. apply emits_load_sql_file. intros call rc Hin.
  split; intros fn'; cbn; rewrite ?Hin; [done|by intros [= <-]].
Qed.

Lemma load_ext_within name sqlfile :
  emits (within (candidates name
                   (Path.basename (if given sqlfile then default "" sqlfile
                                   else name +:+ ".sql"))))
        (Load.load_ext name sqlfile).
Proof.
  set (paths := candidates name _).
  unfold Load.load_ext.
  apply emits_bind; [by apply emits_logger, within_other|intros _].
  destruct (given sqlfile && negb (Str.endswith (default "" sqlfile) ".sql"));
    [by apply emits_logger, within_other|].
  apply emits_bind; [apply within_version|intros pgver].
  apply emits_bind.
  { destruct (Version.ge pgver (9, 1, 0)%N); [|apply emits_ret].
    apply emits_bind; [by apply emits_is_extension; intros; apply within_other|].
    intros [].
    - apply emits_bind; [|intros; apply emits_ret].
      apply emits_create_extension. intros; by eapply within_piped.
    - apply emits_bind; [|intros; apply emits_ret].
      by apply emits_confirm; intros; apply within_other. }
  intros []; [apply emits_ret|]. cbv zeta.
  assert (Htail : forall fn confirm_,
            fn ∈ paths ->
            emits (within paths)
              ((if confirm_ : bool then confirm (GuessedFile name fn) else ret tt);;
               loaded ← _is_loaded fn;
               if loaded then logger Info (AlreadyLoaded fn)
               else load_sql (Some fn) None;; _register_loaded fn)).
  { intros fn confirm_ Hfn. apply emits_bind.
    { destruct confirm_; [|apply emits_ret].
      by apply emits_confirm; intros; apply within_other. }
    intros _. apply emits_bind; [apply emits_is_loaded|].
    intros []; [by apply emits_logger, within_other|].
    apply emits_bind; [by apply within_load_sql_file|].
    intros _. apply emits_register_loaded. }
  subst paths. destruct (given sqlfile); cbn [negb].
  - apply emits_bind_result; [apply find_sql_file_within|].
    intros s fn Hfn%find_sql_file_candidate. exact (Htail fn false Hfn _).
  - apply emits_bind_result; [apply find_sql_file_within|].
    intros s fn Hfn%find_sql_file_candidate. exact (Htail fn true Hfn _).
Qed.

Lemma unload_ext_within_default name sqlfile :
  given sqlfile = false ->
  emits (within (candidates name
                   (Path.basename ("uninstall_" +:+ name +:+ ".sql"))))
        (Unload.load_ext name sqlfile).
Proof.
  intros Hgiven. set (paths := candidates name _).
  unfold Unload.load_ext. rewrite Hgiven. cbn [negb andb].
  apply emits_bind; [by apply emits_logger, within_other|intros _].
  apply emits_bind; [apply within_version|intros pgver].
  apply emits_bind.
  { destruct (Version.ge pgver (9, 1, 0)%N); [|apply emits_ret].
    apply emits_bind; [by apply emits_is_extension; intros; apply within_other|].
    intros [].
    - apply emits_bind; [|intros; apply emits_ret].
      apply emits_drop_extension. intros; by eapply within_piped.
    - apply emits_bind; [|intros; apply emits_ret].
      by apply emits_confirm; intros; apply within_other. }
  intros []; [apply emits_ret|]. cbv zeta.
  apply emits_bind_result; [apply find_sql_file_within|].
  intros s fn Hfn%find_sql_file_candidate.
  assert (Hemits : emits (within paths)
                     (confirm (ExecuteToUnload name fn);;
                      load_sql (Some fn) None)); [|apply Hemits].
  apply emits_bind; [by apply emits_confirm; intros; apply within_other|].
  intros _. by apply within_load_sql_file.
Qed.

(** X24.  Every path a load probes and every file it executes is one of
    the three candidates for the base name of the file name given, or of
    [<name>.sql] when none is given.  For an unload without a file name the
    script looked for is [uninstall_<name>.sql]. *)
Theorem script_names name sqlfile s :
  let f := Path.basename (if given sqlfile then default "" sqlfile
                          else name +:+ ".sql") in
  let g := Path.basename ("uninstall_" +:+ name +:+ ".sql") in
  let l := events (Load.load_ext name sqlfile s) in
  let u := events (Unload.load_ext name sqlfile s) in
  Forall (fun fn => fn ∈ candidates name f) (probes l ++ executed l)
  /\ (given sqlfile = false ->
      Forall (fun fn => fn ∈ candidates name g) (probes u ++ executed u)
      /\ (Str.contains "/" name = false ->
          f = name +:+ ".sql" /\ g = "uninstall_" +:+ name +:+ ".sql")).
Proof.
  intros f g l u. split.
  - apply Forall_app, within_Forall, load_ext_within.
  - intros Hgiven. split.
    + by apply Forall_app, within_Forall, unload_ext_within_default.
    + intros Hname. subst f g. rewrite Hgiven. split.
      * by apply basename_app_flat.
      * apply (basename_app_flat "uninstall_" (name +:+ ".sql")); [done|].
        rewrite <- (basename_app_flat name ".sql") at 1 by done.
        apply rsplit1_last_suffix.
Qed.

End ScriptNames.

Lemma script_names_witness :
  Path.basename "foo.sql" = "foo" +:+ ".sql"
  /\ Path.basename ("uninstall_" +:+ "foo" +:+ ".sql")
     = "uninstall_" +:+ "foo" +:+ ".sql".
Proof.
  refine (proj2 (proj2 (script_names (Wd := Sample.quiet) "foo" None
                          Sample.installed) _) _); reflexivity.
Defined.

(** ** parse_pg_version: a version without a minor number *)

Section NoMinor.
Context {Wd : World}.
Import LoadUnload.

Lemma span_none p r : starts p r = false -> Version.span p r = ("", r).
Proof. destruct r as [|a r]; [done|]. cbn. by intros ->. Qed.

(** X25.  A version string in which the first number is not followed by a
    dot and a digit, as in [PostgreSQL 10beta1], is refused: the error
    quotes the whole string. *)
Theorem parse_pg_version_no_minor word blank g1 rest s :
  is_word word = true -> is_blank blank = true -> is_number g1 = true ->
  starts Version.is_digit rest = false ->
  match rest with
  | String "." r => starts Version.is_digit r = false
  | _ => True
  end ->
  parse_pg_version (word +:+ blank +:+ g1 +:+ rest) s
  = (Raise (PgxnClientException
              ("cannot parse version number from '"
               +:+ (word +:+ blank +:+ g1 +:+ rest) +:+ "'")), s, []).
Proof.
  intros [Hw1 Hw2]%andb_prop [Hb1 Hb2]%andb_prop [H11 H12]%andb_prop Hrest Hdot.
  unfold parse_pg_version.
  rewrite (span_all _ word) by
    (try done; rewrite starts_app by done;
     apply (starts_all_not Version.is_space); try done;
     by intros c ->).
  rewrite (span_all _ blank) by
    (try done; rewrite starts_app by done;
     apply (starts_all_not Version.is_digit); auto using digit_not_space).
  rewrite (span_all _ g1) by done.
  rewrite Hw1, Hb1, H11. cbn [andb negb].
  destruct rest as [|c r]; [done|].
  destruct (ascii_dec c ".") as [->|Hc].
  - rewrite (span_none _ r Hdot). reflexivity.
  - destruct c as [[] [] [] [] [] [] [] []]; try reflexivity. by destruct Hc.
Qed.

End NoMinor.

Lemma parse_pg_version_no_minor_witness :
  LoadUnload.parse_pg_version (Wd := Sample.quiet) "PostgreSQL 10beta1"
    Sample.empty_quiet
  = (Raise (PgxnClientException
              "cannot parse version number from 'PostgreSQL 10beta1'"),
     Sample.empty_quiet, []).
Proof.
  exact (parse_pg_version_no_minor (Wd := Sample.quiet) "PostgreSQL" " " "10"
           "beta1" Sample.empty_quiet eq_refl eq_refl eq_refl eq_refl I).
Defined.

Lemma sudo_for_the_last_step_witness :
  mk_cmd {| mk_cmd := ["install"]; mk_dir := "/src/foo"; mk_env := None;
            mk_sudo := Some "sudo" |} = ["install"]
  /\ Some "sudo" = opt_sudo Sample.with_sudo.
Proof.
  destruct (proj1 (sudo_for_the_last_step (Wd := Sample.quiet)
                     (Sh := Sample.sha) Sample.with_sudo "/tmp/pgxn"
                     Sample.plain_source
                     {| mk_cmd := ["install"]; mk_dir := "/src/foo";
                        mk_env := None; mk_sudo := Some "sudo" |} 0%Z))
    as [[Hcmd _]|H].
  - apply list_elem_of_In. vm_compute. do 4 right. left. reflexivity.
  - discriminate Hcmd.
  - exact H.
Defined.
